(** * Farm IoT pipeline: validation, alerting, throttling and warehouse load

    A shallow embedding of [Lambda/lamda.py] (record validation, alert
    derivation, alert throttling, the batch handler) and of the Glue job
    [ETL job - Glue/s3-to-redshift.py] (watermark-based incremental load of
    the star schema), followed by the properties proved about them. *)

From Stdlib Require Import ZArith QArith Qminmax Lia Bool Ascii String List.
From Stdlib Require Import Floats.SpecFloat.
From stdpp Require Import gmap strings list fin_maps.

#[local] Set Warnings "-register-all".

Local Open Scope string_scope.
Local Open Scope list_scope.
Local Open Scope Z_scope.

(* ===================================================================== *)
(** * Python values *)
(* ===================================================================== *)

Module Py.

(** ** Binary64 floats

    Python floats are IEEE binary64 values: [spec_float] at precision 53
    and maximal exponent 1024, with round-to-nearest-even operations. *)

Definition prec : Z := 53.
Definition emax : Z := 1024.

Definition fadd : spec_float -> spec_float -> spec_float := SFadd prec emax.
Definition fsub : spec_float -> spec_float -> spec_float := SFsub prec emax.
Definition fmul : spec_float -> spec_float -> spec_float := SFmul prec emax.

(** The float nearest to [m * 10^e], sign given apart: how a decimal
    literal of the program text, or a decimal string handed to [float()],
    is read. *)
Definition float_of_decimal (neg : bool) (m : Z) (e : Z) : spec_float :=
  match m with
  | Zpos p =>
      if 0 <=? e
      then binary_round prec emax neg (Z.to_pos (Zpos p * 10 ^ e)) 0
      else
        let '(q, e', l) := SFdiv_core_binary prec emax (Zpos p) 0 (10 ^ (- e)) 0 in
        binary_round_aux prec emax neg q e' l
  | _ => S754_zero neg
  end.

(** [float(n)] for an int: the nearest float, [None] standing for the
    OverflowError Python raises when the int is too large. *)
Definition float_of_int (n : Z) : option spec_float :=
  match binary_normalize prec emax n 0 false with
  | S754_infinity _ => None
  | f => Some f
  end.

(** ** Numbers and their exact order *)

Inductive pynum :=
| NInt (n : Z)
| NFloat (f : spec_float).

(** The value a number denotes: a rational, an infinity, or no number. *)
Inductive xreal :=
| XNaN
| XNegInf
| XFin (q : Q)
| XPosInf.

Definition float_val (f : spec_float) : xreal :=
  match f with
  | S754_zero _ => XFin 0
  | S754_infinity s => if s then XNegInf else XPosInf
  | S754_nan => XNaN
  | S754_finite s m e =>
      let v := if s then Zneg m else Zpos m in
      XFin (if 0 <=? e then inject_Z (v * 2 ^ e) else Qmake v (Z.to_pos (2 ^ (- e))))
  end.

Definition num_val (a : pynum) : xreal :=
  match a with
  | NInt n => XFin (inject_Z n)
  | NFloat f => float_val f
  end.

Definition xcompare (x y : xreal) : option comparison :=
  match x, y with
  | XNaN, _ | _, XNaN => None
  | XNegInf, XNegInf => Some Eq
  | XNegInf, _ => Some Lt
  | _, XNegInf => Some Gt
  | XPosInf, XPosInf => Some Eq
  | XPosInf, _ => Some Gt
  | _, XPosInf => Some Lt
  | XFin p, XFin q => Some (Qcompare p q)
  end.

(** Python compares ints and floats by their exact values, and any
    comparison with a NaN is false. *)
Definition num_compare (a b : pynum) : option comparison :=
  xcompare (num_val a) (num_val b).

Definition num_eq (a b : pynum) : bool :=
  match num_compare a b with Some Eq => true | _ => false end.
Definition num_lt (a b : pynum) : bool :=
  match num_compare a b with Some Lt => true | _ => false end.
Definition num_le (a b : pynum) : bool :=
  match num_compare a b with Some (Lt | Eq) => true | _ => false end.
Definition num_gt (a b : pynum) : bool := num_lt b a.

(** ** Exceptions and results *)

Inductive exn :=
| TypeError
| AttributeError
| KeyError
| OverflowError.

Inductive res (A : Type) :=
| Return (a : A)
| Raise (e : exn).
Arguments Return {A} a.
Arguments Raise {A} e.

Definition bind {A B : Type} (r : res A) (k : A -> res B) : res B :=
  match r with
  | Return a => k a
  | Raise e => Raise e
  end.

Notation "x <- r ;; k" := (bind r (fun x => k))
  (at level 100, r at next level, right associativity).

Definition is_return {A : Type} (r : res A) : bool :=
  match r with Return _ => true | Raise _ => false end.

(** ** Arithmetic on numbers

    int with int stays an int; as soon as a float takes part the int is
    converted, which is the one place an OverflowError can come from. *)

Definition to_float (a : pynum) : res spec_float :=
  match a with
  | NFloat f => Return f
  | NInt n => match float_of_int n with
              | Some f => Return f
              | None => Raise OverflowError
              end
  end.

Definition num_arith (zop : Z -> Z -> Z) (fop : spec_float -> spec_float -> spec_float)
    (a b : pynum) : res pynum :=
  match a, b with
  | NInt x, NInt y => Return (NInt (zop x y))
  | _, _ => x <- to_float a ;; y <- to_float b ;; Return (NFloat (fop x y))
  end.

Definition num_add : pynum -> pynum -> res pynum := num_arith Z.add fadd.
Definition num_sub : pynum -> pynum -> res pynum := num_arith Z.sub fsub.
Definition num_mul : pynum -> pynum -> res pynum := num_arith Z.mul fmul.

Definition num_abs (a : pynum) : pynum :=
  match a with
  | NInt n => NInt (Z.abs n)
  | NFloat f => NFloat (SFabs f)
  end.

(** ** Values decoded from JSON *)

Inductive pyval :=
| PNone
| PBool (b : bool)
| PInt (n : Z)
| PFloat (f : spec_float)
| PStr (s : string)
| PList (l : list pyval)
| PDict (d : gmap string pyval).

(** [isinstance(v, (int, float))]: the number [v] is, a bool being an int. *)
Definition as_num (v : pyval) : option pynum :=
  match v with
  | PBool b => Some (NInt (if b then 1 else 0))
  | PInt n => Some (NInt n)
  | PFloat f => Some (NFloat f)
  | _ => None
  end.

(** Truth value, as [if v:] and [not v] take it. *)
Definition truthy (v : pyval) : bool :=
  match v with
  | PNone => false
  | PBool b => b
  | PInt n => negb (n =? 0)
  | PFloat f => negb (num_eq (NFloat f) (NInt 0))
  | PStr s => negb (String.eqb s "")
  | PList l => match l with [] => false | _ => true end
  | PDict d => negb (bool_decide (d = ∅))
  end.

(** ** Membership in a list of literals

    The literals the program compares values with are ints, strings and
    None; [v == a] for such a literal [a]. *)
Inductive atom :=
| ANone
| AInt (n : Z)
| AStr (s : string).

Definition eq_atom (v : pyval) (a : atom) : bool :=
  match a, v with
  | ANone, PNone => true
  | AInt n, _ => match as_num v with
                 | Some x => num_eq x (NInt n)
                 | None => false
                 end
  | AStr s, PStr t => String.eqb t s
  | _, _ => false
  end.

(** [v in atoms] *)
Definition in_atoms (v : pyval) (atoms : list atom) : bool :=
  existsb (eq_atom v) atoms.

(** ** [float(s)] for a string

    A text is held as its UTF-8 bytes. [float()] first brings the text
    to ASCII: in a text that is not pure ASCII, every Unicode space
    becomes a blank and every Unicode decimal digit its ASCII digit, and
    the text is cut at the first other character beyond ASCII, which
    becomes a question mark. Then surrounding ASCII whitespace is
    dropped, and what is left is an optional sign and either [inf],
    [infinity] or [nan] in any case, or a decimal numeral: digits with
    single underscores between them, an optional fraction, an optional
    exponent. The result is the float nearest to the numeral; [None]
    stands for the ValueError raised on any other text. *)

(** The payload of a continuation byte. *)
Definition continuation (c : ascii) : option N :=
  let b := N_of_ascii c in
  if ((128 <=? b) && (b <? 192))%N then Some (b - 128)%N else None.

(** The code points of a text, from its UTF-8 bytes; [None] when the
    bytes are no UTF-8. A lone surrogate, which a JSON escape can put
    into a text, is read from its three bytes. *)
Fixpoint code_points (cs : list ascii) : option (list N) :=
  match cs with
  | [] => Some []
  | c :: cs1 =>
      let b := N_of_ascii c in
      if (b <? 128)%N then cons b <$> code_points cs1
      else if (b <? 194)%N then None
      else if (b <? 224)%N then
        match cs1 with
        | c1 :: cs2 =>
            match continuation c1 with
            | Some x1 => cons ((b - 192) * 64 + x1)%N <$> code_points cs2
            | None => None
            end
        | _ => None
        end
      else if (b <? 240)%N then
        match cs1 with
        | c1 :: c2 :: cs3 =>
            match continuation c1, continuation c2 with
            | Some x1, Some x2 =>
                let ch := (((b - 224) * 64 + x1) * 64 + x2)%N in
                if (2048 <=? ch)%N then cons ch <$> code_points cs3 else None
            | _, _ => None
            end
        | _ => None
        end
      else if (b <? 245)%N then
        match cs1 with
        | c1 :: c2 :: c3 :: cs4 =>
            match continuation c1, continuation c2, continuation c3 with
            | Some x1, Some x2, Some x3 =>
                let ch := ((((b - 240) * 64 + x1) * 64 + x2) * 64 + x3)%N in
                if ((65536 <=? ch) && (ch <=? 1114111))%N
                then cons ch <$> code_points cs4 else None
            | _, _, _ => None
            end
        | _ => None
        end
      else None
  end.

(** The spaces of Unicode beyond ASCII, as [str.isspace] has them. *)
Definition unicode_spaces : list N :=
  [ 133; 160; 5760; 8192; 8193; 8194; 8195; 8196; 8197; 8198;
    8199; 8200; 8201; 8202; 8232; 8233; 8239; 8287; 12288 ]%N.

(** The digit zero of every run of ten decimal digits beyond ASCII
    (category Nd of Unicode 14.0, the table of Python 3.11). *)
Definition unicode_zeros : list N :=
  [ 1632; 1776; 1984; 2406; 2534; 2662; 2790; 2918;
    3046; 3174; 3302; 3430; 3558; 3664; 3792; 3872;
    4160; 4240; 6112; 6160; 6470; 6608; 6784; 6800;
    6992; 7088; 7232; 7248; 42528; 43216; 43264; 43472;
    43504; 43600; 44016; 65296; 66720; 68912; 69734; 69872;
    69942; 70096; 70384; 70736; 70864; 71248; 71360; 71472;
    71904; 72016; 72784; 73040; 73120; 92768; 92864; 93008;
    120782; 120792; 120802; 120812; 120822; 123200; 123632; 125264;
    130032 ]%N.

Definition unicode_space (ch : N) : bool :=
  existsb (N.eqb ch) unicode_spaces.

Definition unicode_decimal (ch : N) : option N :=
  (fun zero => ch - zero)%N
    <$> List.find (fun zero => (zero <=? ch) && (ch <? zero + 10))%N unicode_zeros.

(** The loop over a text that is not pure ASCII. *)
Fixpoint decimal_and_space_to_ascii (chs : list N) : list ascii :=
  match chs with
  | [] => []
  | ch :: chs' =>
      if (ch <? 127)%N then ascii_of_N ch :: decimal_and_space_to_ascii chs'
      else if unicode_space ch then " "%char :: decimal_and_space_to_ascii chs'
      else match unicode_decimal ch with
           | Some d => ascii_of_N (48 + d) :: decimal_and_space_to_ascii chs'
           | None => [ "?"%char ]
           end
  end.

Definition ascii_text (chs : list N) : list ascii :=
  if forallb (fun ch => ch <? 128)%N chs then map ascii_of_N chs
  else decimal_and_space_to_ascii chs.

(** ASCII whitespace: blank, tab, line feed, vertical tab, form feed,
    carriage return. *)
Definition is_space (c : ascii) : bool :=
  let n := nat_of_ascii c in
  ((9 <=? n) && (n <=? 13) || (n =? 32))%nat.

Definition digit_of (c : ascii) : option Z :=
  let n := nat_of_ascii c in
  if ((48 <=? n) && (n <=? 57))%nat then Some (Z.of_nat n - 48) else None.

Definition is_underscore (c : ascii) : bool := (nat_of_ascii c =? 95)%nat.

Definition lower (c : ascii) : ascii :=
  let n := nat_of_ascii c in
  if ((65 <=? n) && (n <=? 90))%nat then ascii_of_nat (n + 32) else c.

Fixpoint lstrip (cs : list ascii) : list ascii :=
  match cs with
  | c :: cs' => if is_space c then lstrip cs' else cs
  | [] => []
  end.

Definition strip (cs : list ascii) : list ascii :=
  rev (lstrip (rev (lstrip cs))).

(** The longest prefix made of digits and underscores, and the rest. *)
Fixpoint digit_span (cs : list ascii) : list ascii * list ascii :=
  match cs with
  | c :: cs' =>
      if is_underscore c || bool_decide (is_Some (digit_of c))
      then let '(sp, rest) := digit_span cs' in (c :: sp, rest)
      else ([], cs)
  | [] => ([], [])
  end.

(** The digits of a span, when underscores stand only between digits. *)
Fixpoint digitpart_from (after_underscore : bool) (sp : list ascii) : option (list Z) :=
  match sp with
  | [] => if after_underscore then None else Some []
  | c :: sp' =>
      match digit_of c with
      | Some d => option_map (cons d) (digitpart_from false sp')
      | None => if after_underscore then None else digitpart_from true sp'
      end
  end.

Definition digitpart (sp : list ascii) : option (list Z) :=
  match sp with
  | [] => None
  | _ => digitpart_from true sp
  end.

Definition digits_value (ds : list Z) : Z :=
  fold_left (fun acc d => 10 * acc + d) ds 0.

Definition read_sign (cs : list ascii) : bool * list ascii :=
  match cs with
  | c :: cs' =>
      if Ascii.eqb c "-" then (true, cs')
      else if Ascii.eqb c "+" then (false, cs')
      else (false, cs)
  | [] => (false, [])
  end.

(** An empty span counts as no digits where the grammar lets a part be
    left out. *)
Definition optional_digitpart (sp : list ascii) : option (list Z) :=
  match sp with
  | [] => Some []
  | _ => digitpart sp
  end.

Definition read_exponent (cs : list ascii) : option Z :=
  match cs with
  | [] => Some 0
  | c :: cs' =>
      if Ascii.eqb (lower c) "e" then
        let '(neg, cs'') := read_sign cs' in
        let '(sp, rest) := digit_span cs'' in
        match digitpart sp, rest with
        | Some ds, [] => Some (if neg then - digits_value ds else digits_value ds)
        | _, _ => None
        end
      else None
  end.

Definition read_decimal (neg : bool) (cs : list ascii) : option spec_float :=
  let '(isp, rest) := digit_span cs in
  let '(fsp, rest') :=
    match rest with
    | c :: r => if Ascii.eqb c "." then digit_span r else ([], rest)
    | [] => ([], [])
    end in
  match isp, fsp with
  | [], [] => None
  | _, _ =>
      match optional_digitpart isp, optional_digitpart fsp, read_exponent rest' with
      | Some ids, Some fds, Some ex =>
          Some (float_of_decimal neg (digits_value (ids ++ fds))
                  (ex - Z.of_nat (length fds)))
      | _, _, _ => None
      end
  end.

Definition float_of_ascii (cs : list ascii) : option spec_float :=
  let '(neg, body) := read_sign (strip cs) in
  let word := string_of_list_ascii (map lower body) in
  if String.eqb word "inf" || String.eqb word "infinity" then Some (S754_infinity neg)
  else if String.eqb word "nan" then Some S754_nan
  else read_decimal neg body.

Definition float_of_string (s : string) : option spec_float :=
  match code_points (list_ascii_of_string s) with
  | Some chs => float_of_ascii (ascii_text chs)
  | None => None
  end.

(** [float(v)] as the validator calls it, on a value that is neither an
    int nor a float: [None] for the ValueError or TypeError it catches. *)
Definition float_of_value (v : pyval) : option spec_float :=
  match v with
  | PStr s => float_of_string s
  | _ => None
  end.

(** ** Strings *)

(** [needle in s] *)
Fixpoint contains (needle s : string) : bool :=
  String.prefix needle s ||
  match s with
  | EmptyString => false
  | String _ s' => contains needle s'
  end.

(** [s.startswith(p)] *)
Definition startswith (p s : string) : bool := String.prefix p s.

(** ** Formatted text

    The text of an f-string whose fields hold values: kept as its pieces,
    a field [{v}] as [Val v] and a field [{v:.nf}] as [Fixed n v]. Nothing
    in the program reads such text back. *)
Inductive piece :=
| Lit (s : string)
| Val (v : pyval)
| Fixed (digits : nat) (v : pyval).

Definition fstring : Type := list piece.

End Py.

(* ===================================================================== *)
(** * Lambda/lamda.py: validation *)
(* ===================================================================== *)

Module Validator.
Import Py.

(** A float literal of the program text, [m * 10^e]. *)
Definition lit (m e : Z) : pynum := NFloat (float_of_decimal false m e).

Definition EXPECTED_RANGES_PER_LOCATION : list (string * list (string * (pynum * pynum))) :=
  [ ("loc_1",
      [ ("temperature", (NInt 10, NInt 50));
        ("humidity", (NInt 30, NInt 90));
        ("water_level", (lit 5 (-1), lit 30 (-1)));
        ("nitrogen", (NInt 80, NInt 150));
        ("phosphorus", (NInt 40, NInt 80));
        ("potassium", (NInt 40, NInt 80));
        ("ph", (lit 60 (-1), lit 80 (-1))) ]);
    ("loc_2",
      [ ("temperature", (NInt 15, NInt 55));
        ("humidity", (NInt 25, NInt 80));
        ("water_level", (lit 3 (-1), lit 25 (-1)));
        ("nitrogen", (NInt 70, NInt 140));
        ("phosphorus", (NInt 30, NInt 70));
        ("potassium", (NInt 30, NInt 70));
        ("ph", (lit 65 (-1), lit 85 (-1))) ]);
    ("loc_3",
      [ ("temperature", (NInt 12, NInt 52));
        ("humidity", (NInt 28, NInt 85));
        ("water_level", (lit 4 (-1), lit 28 (-1)));
        ("nitrogen", (NInt 75, NInt 145));
        ("phosphorus", (NInt 35, NInt 75));
        ("potassium", (NInt 35, NInt 75));
        ("ph", (lit 62 (-1), lit 82 (-1))) ]) ].

(** Lookup in a table kept in the order the program writes it. *)
Fixpoint assoc {A : Type} (k : string) (l : list (string * A)) : option A :=
  match l with
  | [] => None
  | (k', a) :: l' => if String.eqb k k' then Some a else assoc k l'
  end.

(** The decoded payload: a JSON object, of which [validate_record],
    [handle_alerts] and the alert loop of the handler read these seven
    keys, [alerts_sent] being the key the handler appends to. A field is
    [None] when its key is absent. [loc_id] is kept as the string it
    carries: it is [None] for an absent key and for a null, and
    [loc_id_null] then tells the null from the absent key (it is not
    read otherwise); a [loc_id] that is neither a string nor null is not
    represented. *)
Record reading := {
  event_id : option pyval;
  timestamp : option pyval;
  loc_id : option string;
  loc_id_null : bool;
  sensor_data : option pyval;
  weather_data : option pyval;
  location : option pyval;
  alerts_sent : option pyval
}.

Definition set_sensor_data (sd : pyval) (data : reading) : reading :=
  {| event_id := event_id data; timestamp := timestamp data; loc_id := loc_id data;
     loc_id_null := loc_id_null data;
     sensor_data := Some sd; weather_data := weather_data data;
     location := location data; alerts_sent := alerts_sent data |}.

Inductive status := VALID | WARNING | INVALID.

(** [required_keys], each with whether [data] has it. *)
Definition required_keys (data : reading) : list (string * bool) :=
  [ ("event_id", bool_decide (is_Some (event_id data)));
    ("timestamp", bool_decide (is_Some (timestamp data)));
    ("sensor_data", bool_decide (is_Some (sensor_data data)));
    ("weather_data", bool_decide (is_Some (weather_data data)));
    ("location", bool_decide (is_Some (location data))) ].

Definition missing_top_level_keys (data : reading) : list string :=
  map (fun kb => "missing_top_level_key:" +:+ fst kb)
      (filter (fun kb => negb (snd kb)) (required_keys data)).

Definition extreme_values : list atom :=
  [ AInt 0; AInt 9999; AInt (-9999); AStr "0"; AStr "9999"; AStr "-9999";
    AStr "null"; AStr "NULL"; AStr "NaN"; ANone ].

(** [v.get(k)]: only a dict has the method. *)
Definition py_get (v : pyval) (k : string) : res pyval :=
  match v with
  | PDict d => Return (default PNone (d !! k))
  | _ => Raise AttributeError
  end.

(** [v[k] = x] for a dict [v], the only kind of value the program
    assigns into. *)
Definition py_setitem (v : pyval) (k : string) (x : pyval) : pyval :=
  match v with
  | PDict d => PDict (<[k := x]> d)
  | _ => v
  end.

(** [k in v] for a string [k]: a key of a dict, an element of a list, a
    substring of a string; a TypeError on anything else. *)
Definition py_in (k : string) (v : pyval) : res bool :=
  match v with
  | PDict d => Return (bool_decide (is_Some (d !! k)))
  | PList l => Return (existsb (fun x => eq_atom x (AStr k)) l)
  | PStr s => Return (contains k s)
  | _ => Raise TypeError
  end.

(** [v[k]] for a string [k]. *)
Definition py_getitem (v : pyval) (k : string) : res pyval :=
  match v with
  | PDict d => match d !! k with
               | Some x => Return x
               | None => Raise KeyError
               end
  | _ => Raise TypeError
  end.

(** [a - b] on values: numbers only. *)
Definition py_sub (a b : pyval) : res pynum :=
  match as_num a, as_num b with
  | Some x, Some y => num_sub x y
  | _, _ => Raise TypeError
  end.

Definition sensor_error (sensor_name kind : string) : string :=
  "sensor_data:" +:+ sensor_name +:+ kind.

Definition sensor_warning (sensor_name kind : string) : fstring :=
  [Lit ("sensor_data:" +:+ sensor_name +:+ kind)].

(** The state of the loop over the sensors: the sensor map (rewritten in
    place when a value is converted), the errors and the warnings. *)
Definition vstate : Type := pyval * list string * list fstring.

(** One round of [for sensor_name, (min_val, max_val) in location_ranges.items()]. *)
Definition validate_sensor (entry : string * (pynum * pynum)) (st : vstate) : res vstate :=
  let '(sensor_name, (min_val, max_val)) := entry in
  let '(sd, errors, warnings) := st in
  val <- py_get sd sensor_name ;;
  if in_atoms val extreme_values then
    Return (sd, errors ++ [sensor_error sensor_name "_extreme_value"], warnings)
  else
  match val with
  | PNone => Return (sd, errors ++ [sensor_error sensor_name "_missing"], warnings)
  | _ =>
    let checked : option (pynum * pyval * list fstring) :=
      match as_num val with
      | Some x => Some (x, sd, warnings)
      | None =>
          match float_of_value val with
          | Some f =>
              Some (NFloat f, py_setitem sd sensor_name (PFloat f),
                    warnings ++ [sensor_warning sensor_name "_type_converted"])
          | None => None
          end
      end in
    match checked with
    | None => Return (sd, errors ++ [sensor_error sensor_name "_invalid_type"], warnings)
    | Some (x, sd, warnings) =>
        if num_le min_val x && num_le x max_val then Return (sd, errors, warnings)
        else
          width <- num_sub max_val min_val ;;
          buffer <- num_mul width (lit 1 (-1)) ;;
          low <- num_sub min_val buffer ;;
          high <- num_add max_val buffer ;;
          if num_le low x && num_le x high
          then Return (sd, errors, warnings ++ [sensor_warning sensor_name "_near_threshold"])
          else Return (sd, errors ++ [sensor_error sensor_name "_out_of_range"], warnings)
    end
  end.

Fixpoint validate_sensors (ranges : list (string * (pynum * pynum))) (st : vstate) : res vstate :=
  match ranges with
  | [] => Return st
  | entry :: ranges' => st' <- validate_sensor entry st ;; validate_sensors ranges' st'
  end.

(** The cross-check of the sensor temperature with the weather service's:
    the warnings it leaves. *)
Definition cross_validate (sd : pyval) (data : reading) (warnings : list fstring)
    : res (list fstring) :=
  has_temp <- py_in "temperature" sd ;;
  match has_temp, weather_data data with
  | true, Some wd =>
      has_w <- py_in "temperature_2m" wd ;;
      if has_w then
        sensor_temp <- py_getitem sd "temperature" ;;
        weather_temp <- py_getitem wd "temperature_2m" ;;
        diff <- py_sub sensor_temp weather_temp ;;
        if num_gt (num_abs diff) (NInt 15)
        then Return (warnings ++
               [[Lit "temperature_mismatch:"; Val sensor_temp; Lit "vs"; Val weather_temp]])
        else Return warnings
      else Return warnings
  | _, _ => Return warnings
  end.

Definition overall_status (errors : list string) (warnings : list fstring) : status :=
  match errors, warnings with
  | _ :: _, _ => INVALID
  | [], _ :: _ => WARNING
  | [], [] => VALID
  end.

(** [validate_record(data)]: the status, the errors, the warnings, and
    [data] as the call leaves it (its sensor map may have been rewritten). *)
Definition validate_record (data : reading)
    : res (status * list string * list fstring * reading) :=
  match loc_id data with
  | None => Return (INVALID, ["missing_loc_id"], [], data)
  | Some loc =>
    if String.eqb loc "" then Return (INVALID, ["missing_loc_id"], [], data) else
    match assoc loc EXPECTED_RANGES_PER_LOCATION with
    | None => Return (INVALID, ["invalid_loc_id:" +:+ loc], [], data)
    | Some location_ranges =>
        let errors := missing_top_level_keys data in
        let sd := default (PDict ∅) (sensor_data data) in
        if negb (truthy sd)
        then Return (INVALID, errors ++ ["missing_sensor_data"], [], data)
        else
          st <- validate_sensors location_ranges (sd, errors, []) ;;
          let '(sd', errors, warnings) := st in
          let data' := set_sensor_data sd' data in
          match cross_validate sd' data' warnings with
          | Raise e => Raise e
          | Return warnings =>
              Return (overall_status errors warnings, errors, warnings, data')
          end
    end
  end.

End Validator.

(* ===================================================================== *)
(** * Lambda/lamda.py: alert derivation *)
(* ===================================================================== *)

Module Alerts.
Import Py Validator.

Record alert := {
  alert_type : string;
  alert_priority : string;
  alert_description : fstring
}.

(** The classification of one sensor error, by the substrings of its code. *)
Definition classify_error (error : string) : option string :=
  if contains "extreme_value" error then Some "sensor_failure"
  else if contains "missing" error then Some "sensor_disconnected"
  else if contains "out_of_range" error then Some "sensor_malfunction"
  else None.

(** [error_types]: a set, so each classification is kept once. *)
Definition error_types (sensor_errors : list string) : gset string :=
  foldr (fun error acc =>
           match classify_error error with
           | Some t => {[ t ]} ∪ acc
           | None => acc
           end) ∅ sensor_errors.

Definition sensor_failure_alert (loc : string) (error_type : string) : alert :=
  {| alert_type := "Sensor Failure";
     alert_priority := "CRITICAL";
     alert_description :=
       [Lit ("Critical sensor issue detected at " +:+ loc +:+ ": " +:+ error_type)] |}.

(** The alerts of an INVALID record. The program walks a set, whose order
    Python does not fix; [elements] gives one order. *)
Definition invalid_alerts (loc : string) (errors : list string) : list alert :=
  let sensor_errors := filter (startswith "sensor_data") errors in
  match sensor_errors with
  | [] => []
  | _ => map (sensor_failure_alert loc) (elements (error_types sensor_errors))
  end.

(** The field [{v:.nf}] of an f-string, for a value [v] that is the
    number [x]: an int is converted to a float before it is formatted,
    which raises an OverflowError when the int is too large. *)
Definition fixed (digits : nat) (v : pyval) (x : pynum) : res piece :=
  bind (to_float x) (fun _ => Return (Fixed digits v)).

Definition temperature_alerts (loc : string) (sd : pyval) : res (list alert) :=
  temp <- py_get sd "temperature" ;;
  match as_num temp with
  | Some x =>
      if num_gt x (NInt 35) then
        shown <- fixed 1 temp x ;;
        Return [ {| alert_type := "High Temperature"; alert_priority := "HIGH";
                    alert_description :=
                      [Lit "High temperature warning: "; shown;
                       Lit ("¬∞C at " +:+ loc)] |} ]
      else if num_lt x (NInt 5) then
        shown <- fixed 1 temp x ;;
        Return [ {| alert_type := "Low Temperature"; alert_priority := "HIGH";
                    alert_description :=
                      [Lit "Low temperature warning: "; shown;
                       Lit ("¬∞C at " +:+ loc)] |} ]
      else Return []
  | None => Return []
  end.

Definition water_level_alerts (loc : string) (sd : pyval) : res (list alert) :=
  water_level <- py_get sd "water_level" ;;
  match as_num water_level with
  | Some x =>
      if num_lt x (lit 10 (-1)) then
        shown <- fixed 2 water_level x ;;
        Return [ {| alert_type := "Low Water Level"; alert_priority := "HIGH";
                    alert_description :=
                      [Lit "Low water level alert: "; shown;
                       Lit ("m at " +:+ loc)] |} ]
      else if num_gt x (lit 25 (-1)) then
        shown <- fixed 2 water_level x ;;
        Return [ {| alert_type := "High Water Level"; alert_priority := "MEDIUM";
                    alert_description :=
                      [Lit "High water level: "; shown;
                       Lit ("m at " +:+ loc)] |} ]
      else Return []
  | None => Return []
  end.

Definition ph_alerts (loc : string) (sd : pyval) : res (list alert) :=
  ph_level <- py_get sd "ph" ;;
  match as_num ph_level with
  | Some x =>
      if num_lt x (lit 60 (-1)) || num_gt x (lit 75 (-1)) then
        let priority :=
          if num_lt x (lit 55 (-1)) || num_gt x (lit 80 (-1)) then "HIGH" else "MEDIUM" in
        shown <- fixed 1 ph_level x ;;
        Return [ {| alert_type := "Soil pH Warning"; alert_priority := priority;
                    alert_description :=
                      [Lit "Soil pH out of optimal range: "; shown;
                       Lit (" at " +:+ loc)] |} ]
      else Return []
  | None => Return []
  end.

Definition lookup_or_raise {A : Type} (k : string) (l : list (string * A)) : res A :=
  match assoc k l with
  | Some a => Return a
  | None => Raise KeyError
  end.

Definition nutrient_alerts (loc : string) (sd : pyval) (nutrient : string) : res (list alert) :=
  value <- py_get sd nutrient ;;
  match as_num value with
  | Some x =>
      ranges <- lookup_or_raise loc EXPECTED_RANGES_PER_LOCATION ;;
      bounds <- lookup_or_raise nutrient ranges ;;
      floor <- num_mul (fst bounds) (lit 8 (-1)) ;;
      if num_lt x floor then
        shown <- fixed 1 value x ;;
        Return [ {| alert_type := "Low Nutrient"; alert_priority := "MEDIUM";
                    alert_description :=
                      [Lit ("Low " +:+ nutrient +:+ " level: "); shown;
                       Lit (" at " +:+ loc)] |} ]
      else Return []
  | None => Return []
  end.

(** The alerts of a VALID or WARNING record, in the order the rules run. *)
Definition operational_alerts (loc : string) (sd : pyval) : res (list alert) :=
  t <- temperature_alerts loc sd ;;
  w <- water_level_alerts loc sd ;;
  p <- ph_alerts loc sd ;;
  n <- nutrient_alerts loc sd "nitrogen" ;;
  ph <- nutrient_alerts loc sd "phosphorus" ;;
  k <- nutrient_alerts loc sd "potassium" ;;
  Return (t ++ w ++ p ++ n ++ ph ++ k).

(** [record.get("loc_id", "unknown")] as an f-string shows it: the text
    itself, [unknown] for an absent key, [None] for a null. *)
Definition loc_text (record : reading) : string :=
  match loc_id record with
  | Some loc => loc
  | None => if loc_id_null record then "None" else "unknown"
  end.

(** [handle_alerts(record, status, errors, warnings)]; the warnings are
    not read. *)
Definition handle_alerts (record : reading) (st : status) (errors : list string)
    : res (list alert) :=
  let loc := loc_text record in
  let sd := default (PDict ∅) (sensor_data record) in
  match st with
  | INVALID => Return (invalid_alerts loc errors)
  | VALID | WARNING => operational_alerts loc sd
  end.

(** [get_recommended_action(alert_type)]: the [actions] table, read
    with a fallback. *)
Definition actions : list (string * string) :=
  [ ("High Temperature", "Increase irrigation frequency and check cooling systems");
    ("Low Temperature", "Check heating systems and frost protection");
    ("Low Water Level", "Inspect irrigation system and water supply");
    ("High Water Level", "Check drainage systems and reduce irrigation");
    ("Soil pH Warning", "Test soil samples and adjust pH levels as needed");
    ("Low Nutrient", "Schedule fertilizer application and soil testing");
    ("Sensor Failure", "Immediate sensor inspection and replacement required") ].

Definition get_recommended_action (alert_type : string) : string :=
  default "Investigate the issue and contact technical support" (assoc alert_type actions).

End Alerts.

(* ===================================================================== *)
(** * Lambda/lamda.py: alert throttling *)
(* ===================================================================== *)

Module Throttle.
Import Py Validator Alerts.

(** Instants and durations are counted in microseconds, the resolution of
    [datetime] and [timedelta]. *)
Definition minutes (n : Z) : Z := n * 60 * 1000000.
Definition seconds (n : Z) : Z := n * 1000000.

Definition ALERT_INTERVAL : Z := minutes 5.
Definition CONSECUTIVE_RECORDS_THRESHOLD : Z := 1.

(** [alert_state]: the two maps of the module-level dict. *)
Record alert_state := {
  last_sent : gmap string Z;
  consecutive_counts : gmap string Z
}.

Definition empty_state : alert_state :=
  {| last_sent := ∅; consecutive_counts := ∅ |}.

(** What [send_alert] hands to [sns_client.publish]: kept as the
    arguments of the call; the subject and body text are not modelled.
    The timestamp is [None] when the record has none and the handler
    passes the current time. *)
Record notification := {
  note_alert : alert;
  note_loc_id : string;
  note_event_id : pyval;
  note_timestamp : option pyval
}.

(** The process state the throttle works on: [alert_state], and the
    calls of [sns_client.publish] made so far. A call that raises is
    caught inside [send_alert], whose result [check_and_send_alert] does
    not read: whether SNS accepted a message changes nothing the program
    does, so [sns] logs the calls, accepted or not. *)
Record world := {
  state : alert_state;
  sns : list notification
}.

Definition empty_world : world := {| state := empty_state; sns := [] |}.

Definition alert_key (loc : string) (a : alert) : string :=
  loc +:+ "|" +:+ alert_type a.

Definition send_alert (a : alert) (loc : string) (event_id : pyval)
    (timestamp : option pyval) (w : world) : world :=
  {| state := state w;
     sns := sns w ++ [ {| note_alert := a; note_loc_id := loc;
                          note_event_id := event_id; note_timestamp := timestamp |} ] |}.

Definition set_last_sent (key : string) (now : Z) (w : world) : world :=
  {| state := {| last_sent := <[key := now]> (last_sent (state w));
                 consecutive_counts := consecutive_counts (state w) |};
     sns := sns w |}.

Definition set_count (key : string) (count : Z) (w : world) : world :=
  {| state := {| last_sent := last_sent (state w);
                 consecutive_counts := <[key := count]> (consecutive_counts (state w)) |};
     sns := sns w |}.

(** [check_and_send_alert(alert, loc_id, event_id, timestamp)], with the
    reading [now] of the clock it takes: whether the alert was sent, and
    the state it leaves. *)
Definition check_and_send_alert (a : alert) (loc : string) (event_id : pyval)
    (timestamp : option pyval) (now : Z) (w : world) : bool * world :=
  let key := alert_key loc a in
  if String.eqb (alert_priority a) "CRITICAL" then
    (true, set_last_sent key now (send_alert a loc event_id timestamp w))
  else
    let throttled :=
      match last_sent (state w) !! key with
      | Some last => now - last <? ALERT_INTERVAL
      | None => false
      end in
    if throttled then (false, w)
    else
      let count := default 0 (consecutive_counts (state w) !! key) + 1 in
      let w := set_count key count w in
      if CONSECUTIVE_RECORDS_THRESHOLD <=? count then
        (true, set_count key 0 (set_last_sent key now (send_alert a loc event_id timestamp w)))
      else (false, w).

(** The count the throttle reads for a key: an absent entry reads as 0. *)
Definition count_of (w : world) (key : string) : Z :=
  default 0 (consecutive_counts (state w) !! key).

(** The same alert offered once at each of the instants [nows], in order:
    the answers, and the state left. *)
Fixpoint offer_at (a : alert) (loc : string) (event_id : pyval) (timestamp : option pyval)
    (nows : list Z) (w : world) : list bool * world :=
  match nows with
  | [] => ([], w)
  | now :: nows' =>
      let '(sent, w') := check_and_send_alert a loc event_id timestamp now w in
      let '(rest, w'') := offer_at a loc event_id timestamp nows' w' in
      (sent :: rest, w'')
  end.

End Throttle.

(* ===================================================================== *)
(** * Lambda/lamda.py: the batch handler *)
(* ===================================================================== *)

Module Handler.
Import Py Validator Alerts Throttle.

(** One Kinesis record after base64 and JSON decoding: the decoded
    object, or [Undecodable] when decoding raised or gave no object. *)
Inductive payload :=
| Undecodable
| Decoded (data : reading).

Record summary := {
  processed_records : nat;
  error_records : nat;
  total_alerts_generated : nat
}.

(** The periodic cleanup: the keys last sent more than an hour before
    [current_time] leave both maps. *)
Definition cleanup (current_time : Z) (st : alert_state) : alert_state :=
  let old_keys : gset string :=
    dom (filter (fun kt => (seconds 3600 <? current_time - kt.2) = true) (last_sent st)) in
  {| last_sent := filter (fun kt => kt.1 ∉ old_keys) (last_sent st);
     consecutive_counts := filter (fun kc => kc.1 ∉ old_keys) (consecutive_counts st) |}.

(** Whether [data["alerts_sent"].append(...)] can run: the handler
    creates the key with an empty list when it is absent, and of the
    values a payload can carry there only a list has [append]. *)
Definition can_record (data : reading) : bool :=
  match alerts_sent data with
  | None | Some (PList _) => true
  | Some _ => false
  end.

(** The loop [for alert in alerts]: [clock n] is the [n]-th reading of
    the clock taken by the throttle, [tick] counts the readings, [sent]
    holds the alerts whose entry was appended to the record's
    [alerts_sent] so far. The result is [None] when the append raised:
    the alert was sent by then, and the alerts after it are not looked
    at. *)
Fixpoint process_alerts (clock : nat -> Z) (loc : string) (event_id : pyval)
    (timestamp : option pyval) (appendable : bool) (alerts : list alert)
    (tick : nat) (w : world) (sent : list alert) : nat * world * option (list alert) :=
  match alerts with
  | [] => (tick, w, Some sent)
  | a :: alerts' =>
      let '(alert_sent, w') := check_and_send_alert a loc event_id timestamp (clock tick) w in
      if alert_sent then
        if appendable
        then process_alerts clock loc event_id timestamp appendable alerts' (S tick) w'
               (sent ++ [a])
        else (S tick, w', None)
      else process_alerts clock loc event_id timestamp appendable alerts' (S tick) w' sent
  end.

(** The loop state of the handler: the three counters, the clock tick,
    the world, and the alerts recorded as sent in the records processed
    so far. *)
Record batch := {
  processed_count : nat;
  error_count : nat;
  alert_count : nat;
  ticks : nat;
  the_world : world;
  recorded : list alert
}.

Definition record_failed (b : batch) : batch :=
  {| processed_count := processed_count b; error_count := S (error_count b);
     alert_count := alert_count b; ticks := ticks b; the_world := the_world b;
     recorded := recorded b |}.

(** The body of [for record in event["Records"]]. The uploads to S3,
    which touch neither the counters nor the throttle, are left out. An
    exception anywhere in the body is caught and counted in
    [error_count]; when it is the append to [alerts_sent] that raises,
    the alerts of the record are counted and the throttle has run by
    then. *)
Definition process_record (clock : nat -> Z) (p : payload) (b : batch) : batch :=
  match p with
  | Undecodable => record_failed b
  | Decoded data =>
      match validate_record data with
      | Raise _ => record_failed b
      | Return (st, errors, warnings, data) =>
          match handle_alerts data st errors with
          | Raise _ => record_failed b
          | Return alerts =>
              let '(tick, w, outcome) :=
                process_alerts clock (loc_text data)
                  (default (PStr "unknown") (event_id data)) (timestamp data)
                  (can_record data) alerts (ticks b) (the_world b) [] in
              match outcome with
              | Some sent =>
                  {| processed_count := S (processed_count b);
                     error_count := error_count b;
                     alert_count := (alert_count b + length alerts)%nat;
                     ticks := tick;
                     the_world := w;
                     recorded := recorded b ++ sent |}
              | None =>
                  {| processed_count := processed_count b;
                     error_count := S (error_count b);
                     alert_count := (alert_count b + length alerts)%nat;
                     ticks := tick;
                     the_world := w;
                     recorded := recorded b |}
              end
          end
      end
  end.

(** [lambda_handler(event, context)]. [purge] is [Some t] when the random
    draw starts the cleanup, at clock reading [t]. The result is the
    summary of the response body, the world left behind, and the alerts
    recorded as sent. *)
Definition lambda_handler (records : list payload) (purge : option Z)
    (clock : nat -> Z) (w : world) : summary * world * list alert :=
  let w0 :=
    match purge with
    | Some current_time => {| state := cleanup current_time (state w); sns := sns w |}
    | None => w
    end in
  let b := fold_left (fun b p => process_record clock p b) records
             {| processed_count := 0; error_count := 0; alert_count := 0;
                ticks := 0; the_world := w0; recorded := [] |} in
  ({| processed_records := processed_count b;
      error_records := error_count b;
      total_alerts_generated := alert_count b |},
   the_world b, recorded b).

End Handler.

(* ===================================================================== *)
(** * ETL job - Glue/s3-to-redshift.py: the incremental warehouse load *)
(* ===================================================================== *)

Module Warehouse.

(** ** SQL values and three-valued logic

    A nullable column holds [option] of its type, [None] being NULL. A
    condition is [Some true], [Some false] or unknown ([None]); WHERE and
    ON keep a row only when the condition is [Some true]. *)

(** Instants, in microseconds since 1970-01-01 00:00:00. *)
Definition instant : Type := Z.

(** Modelled from the spec: the tables' DDL is not among the sources. The
    measure columns are only ever compared with [=], so their values are
    taken as integers. *)
Definition num : Type := Z.

Definition sql_eq {A : Type} `{EqDecision A} (a b : option A) : option bool :=
  match a, b with
  | Some x, Some y => Some (bool_decide (x = y))
  | _, _ => None
  end.

Definition sql_and (p q : option bool) : option bool :=
  match p, q with
  | Some false, _ | _, Some false => Some false
  | Some true, Some true => Some true
  | _, _ => None
  end.

Definition sql_gt (a b : option instant) : option bool :=
  match a, b with
  | Some x, Some y => Some (y <? x)
  | _, _ => None
  end.

Definition is_not_null {A : Type} (a : option A) : option bool :=
  Some (bool_decide (is_Some a)).

(** [a NOT IN (subquery)]: true on an empty subquery; false when a value
    of it equals [a]; otherwise unknown if [a] or a value of it is NULL. *)
Definition sql_not_in {A : Type} `{EqDecision A} (a : option A) (sub : list (option A))
    : option bool :=
  match sub with
  | [] => Some true
  | _ =>
      match a with
      | None => None
      | Some x =>
          if bool_decide (Some x ∈ sub) then Some false
          else if bool_decide (None ∈ sub) then None
          else Some true
      end
  end.

(** [NOT EXISTS (SELECT 1 FROM t WHERE cond)] *)
Definition sql_not_exists {R : Type} (cond : R -> option bool) (t : list R) : option bool :=
  Some (negb (existsb (fun r => bool_decide (cond r = Some true)) t)).

Definition holds (c : option bool) : bool := bool_decide (c = Some true).

(** [MAX] over a column: NULLs are skipped, and no value gives NULL. *)
Definition sql_max (col : list (option instant)) : option instant :=
  foldr (fun c acc =>
           match c, acc with
           | Some x, Some y => Some (Z.max x y)
           | Some x, None => Some x
           | None, _ => acc
           end) None col.

(** ** Calendar fields of an instant, for [EXTRACT] *)

Definition day_us : Z := 86400 * 1000000.

Definition civil_from_days (days : Z) : Z * Z * Z :=
  let z := days + 719468 in
  let era := z / 146097 in
  let doe := z - era * 146097 in
  let yoe := (doe - doe / 1460 + doe / 36524 - doe / 146096) / 365 in
  let doy := doe - (365 * yoe + yoe / 4 - yoe / 100) in
  let mp := (5 * doy + 2) / 153 in
  let d := doy - (153 * mp + 2) / 5 + 1 in
  let m := if mp <? 10 then mp + 3 else mp - 9 in
  (yoe + era * 400 + (if m <=? 2 then 1 else 0), m, d).

Definition extract_year (t : instant) : Z := (civil_from_days (t / day_us)).1.1.
Definition extract_month (t : instant) : Z := (civil_from_days (t / day_us)).1.2.
Definition extract_day (t : instant) : Z := (civil_from_days (t / day_us)).2.
Definition extract_hour (t : instant) : Z := (t mod day_us) / (3600 * 1000000).
Definition extract_minute (t : instant) : Z := ((t mod day_us) / (60 * 1000000)) mod 60.

(** ** Tables *)

(** A row of the source table [valid_readings]: the columns the job reads. *)
Record valid_reading := {
  event_id : option string;
  loc_id : option string;
  latitude : option num;
  longitude : option num;
  timestamp : option instant;
  temperature : option num;
  humidity : option num;
  water_level : option num;
  ph : option num;
  nitrogen : option num;
  phosphorus : option num;
  potassium : option num;
  weather_temperature_2m : option num;
  weather_relative_humidity_2m : option num;
  weather_wind_speed_10m : option num;
  weather_wind_direction_10m : option num;
  weather_rain : option num;
  weather_surface_pressure : option num;
  validation_status : option string
}.

(** The attribute tuples of the four dimensions: what the INSERTs write. *)
Record location := {
  l_loc_id : option string;
  l_latitude : option num;
  l_longitude : option num
}.

Record time := {
  t_full_date : option instant;
  t_year : option Z;
  t_month : option Z;
  t_day : option Z;
  t_hour : option Z;
  t_minute : option Z
}.

Record soil := {
  s_ph : option num;
  s_nitrogen : option num;
  s_phosphorus : option num;
  s_potassium : option num
}.

Record weather := {
  w_weather_temperature : option num;
  w_weather_humidity : option num;
  w_wind_speed : option num;
  w_wind_direction : option num;
  w_rain : option num;
  w_surface_pressure : option num
}.

#[global] Instance location_eq_dec : EqDecision location.
Proof. solve_decision. Defined.
#[global] Instance time_eq_dec : EqDecision time.
Proof. solve_decision. Defined.
#[global] Instance soil_eq_dec : EqDecision soil.
Proof. solve_decision. Defined.
#[global] Instance weather_eq_dec : EqDecision weather.
Proof. solve_decision. Defined.

Record fact := {
  evt_id : option string;
  location_key : Z;
  weather_key : Z;
  soil_key : Z;
  full_date : option instant;
  soil_temperature : option num;
  soil_humidity : option num;
  f_water_level : option num;
  f_validation_status : option string
}.

(** A dimension table: its rows, each a surrogate key and the attributes. *)
Definition dim (T : Type) : Type := list (Z * T).

Record warehouse := {
  valid_readings : list valid_reading;
  dim_location : dim location;
  dim_time : dim time;
  dim_soil : dim soil;
  dim_weather : dim weather;
  fact_sensor_readings : list fact
}.

(** Modelled from the spec: the DDL that generates the surrogate keys is
    not among the sources. A new row takes the next integer above the
    keys in use. *)
Definition next_key {T : Type} (t : dim T) : Z :=
  1 + foldr (fun r acc => Z.max r.1 acc) 0 t.

Fixpoint number_from {T : Type} (k : Z) (rows : list T) : dim T :=
  match rows with
  | [] => []
  | r :: rows' => (k, r) :: number_from (k + 1) rows'
  end.

(** [INSERT INTO t SELECT ...]: the selected rows join the table, each
    under a fresh key. *)
Definition insert_into {T : Type} (t : dim T) (rows : list T) : dim T :=
  t ++ number_from (next_key t) rows.

(** ** The statements of the job *)

Definition location_of (nv : valid_reading) : location :=
  {| l_loc_id := loc_id nv; l_latitude := latitude nv; l_longitude := longitude nv |}.

Definition time_of (nv : valid_reading) : time :=
  {| t_full_date := timestamp nv;
     t_year := extract_year <$> timestamp nv;
     t_month := extract_month <$> timestamp nv;
     t_day := extract_day <$> timestamp nv;
     t_hour := extract_hour <$> timestamp nv;
     t_minute := extract_minute <$> timestamp nv |}.

Definition soil_of (nv : valid_reading) : soil :=
  {| s_ph := ph nv; s_nitrogen := nitrogen nv;
     s_phosphorus := phosphorus nv; s_potassium := potassium nv |}.

Definition weather_of (nv : valid_reading) : weather :=
  {| w_weather_temperature := weather_temperature_2m nv;
     w_weather_humidity := weather_relative_humidity_2m nv;
     w_wind_speed := weather_wind_speed_10m nv;
     w_wind_direction := weather_wind_direction_10m nv;
     w_rain := weather_rain nv;
     w_surface_pressure := weather_surface_pressure nv |}.

(** [SELECT DISTINCT cols FROM new_valid_readings nv WHERE cond] *)
Definition select_distinct {T : Type} `{EqDecision T} (cols : valid_reading -> T)
    (cond : valid_reading -> option bool) (new_valid_readings : list valid_reading) : list T :=
  remove_dups (map cols (filter (fun nv => holds (cond nv) = true) new_valid_readings)).

Definition new_locations (new_valid_readings : list valid_reading) (t : dim location)
    : list location :=
  select_distinct location_of
    (fun nv => sql_and (is_not_null (loc_id nv))
                 (sql_not_in (loc_id nv) (map (fun r => l_loc_id r.2) t)))
    new_valid_readings.

Definition new_times (new_valid_readings : list valid_reading) (t : dim time) : list time :=
  select_distinct time_of
    (fun nv => sql_and (is_not_null (timestamp nv))
                 (sql_not_in (timestamp nv) (map (fun r => t_full_date r.2) t)))
    new_valid_readings.

Definition soil_matches (nv : valid_reading) (ds : soil) : option bool :=
  sql_and (sql_eq (s_ph ds) (ph nv))
    (sql_and (sql_eq (s_nitrogen ds) (nitrogen nv))
       (sql_and (sql_eq (s_phosphorus ds) (phosphorus nv))
          (sql_eq (s_potassium ds) (potassium nv)))).

Definition new_soils (new_valid_readings : list valid_reading) (t : dim soil) : list soil :=
  select_distinct soil_of
    (fun nv => sql_and (sql_not_exists (fun r => soil_matches nv r.2) t)
                 (sql_and (is_not_null (ph nv))
                    (sql_and (is_not_null (nitrogen nv))
                       (sql_and (is_not_null (phosphorus nv))
                          (is_not_null (potassium nv))))))
    new_valid_readings.

Definition weather_matches (nv : valid_reading) (dw : weather) : option bool :=
  sql_and (sql_eq (w_weather_temperature dw) (weather_temperature_2m nv))
    (sql_and (sql_eq (w_weather_humidity dw) (weather_relative_humidity_2m nv))
       (sql_and (sql_eq (w_wind_speed dw) (weather_wind_speed_10m nv))
          (sql_and (sql_eq (w_wind_direction dw) (weather_wind_direction_10m nv))
             (sql_and (sql_eq (w_rain dw) (weather_rain nv))
                (sql_eq (w_surface_pressure dw) (weather_surface_pressure nv)))))).

Definition new_weathers (new_valid_readings : list valid_reading) (t : dim weather)
    : list weather :=
  select_distinct weather_of
    (fun nv => sql_and (sql_not_exists (fun r => weather_matches nv r.2) t)
                 (is_not_null (weather_temperature_2m nv)))
    new_valid_readings.

Definition location_matches (v : valid_reading) (l : location) : option bool :=
  sql_and (sql_and (sql_eq (loc_id v) (l_loc_id l)) (sql_eq (latitude v) (l_latitude l)))
    (sql_eq (longitude v) (l_longitude l)).

Definition time_matches (v : valid_reading) (t : time) : option bool :=
  sql_eq (timestamp v) (t_full_date t).

Definition joined {T : Type} (on : T -> option bool) (t : dim T) : dim T :=
  filter (fun r => holds (on r.2) = true) t.

(** The SELECT of the fact INSERT: one row for every way a new reading
    joins the four dimensions. *)
Definition new_facts (new_valid_readings : list valid_reading) (db : warehouse) : list fact :=
  v ← new_valid_readings;
  l ← joined (location_matches v) (dim_location db);
  w ← joined (fun dw => weather_matches v dw) (dim_weather db);
  s ← joined (fun ds => soil_matches v ds) (dim_soil db);
  t ← joined (time_matches v) (dim_time db);
  [ {| evt_id := event_id v;
       location_key := l.1;
       weather_key := w.1;
       soil_key := s.1;
       full_date := t_full_date t.2;
       soil_temperature := temperature v;
       soil_humidity := humidity v;
       f_water_level := water_level v;
       f_validation_status := validation_status v |} ].

(** ** The cycle *)

(** The places where the job can fail: the watermark query, and the five
    statements run through [execute_sql_query]. *)
Inductive step :=
| Watermark
| DimLocation
| DimTime
| DimSoil
| DimWeather
| FactInsert.

Definition epoch : instant := 0.

(** [SELECT MAX(full_date) FROM fact_sensor_readings], with the fall-back
    to the epoch on an empty table and on a failed query. *)
Definition last_ts (fails : bool) (db : warehouse) : instant :=
  if fails then epoch
  else default epoch (sql_max (map full_date (fact_sensor_readings db))).

(** [valid_readings_df.filter(col("timestamp") > last_ts)] *)
Definition new_data (last : instant) (db : warehouse) : list valid_reading :=
  filter (fun v => holds (sql_gt (timestamp v) (Some last)) = true) (valid_readings db).

(** [execute_sql_query]: a statement that raises is logged and changes
    nothing; the job goes on. *)
Definition execute_sql_query (fails : bool) (statement : warehouse -> warehouse)
    (db : warehouse) : warehouse :=
  if fails then db else statement db.

Definition insert_dim_location (nv : list valid_reading) (db : warehouse) : warehouse :=
  {| valid_readings := valid_readings db;
     dim_location := insert_into (dim_location db) (new_locations nv (dim_location db));
     dim_time := dim_time db; dim_soil := dim_soil db; dim_weather := dim_weather db;
     fact_sensor_readings := fact_sensor_readings db |}.

Definition insert_dim_time (nv : list valid_reading) (db : warehouse) : warehouse :=
  {| valid_readings := valid_readings db;
     dim_location := dim_location db;
     dim_time := insert_into (dim_time db) (new_times nv (dim_time db));
     dim_soil := dim_soil db; dim_weather := dim_weather db;
     fact_sensor_readings := fact_sensor_readings db |}.

Definition insert_dim_soil (nv : list valid_reading) (db : warehouse) : warehouse :=
  {| valid_readings := valid_readings db;
     dim_location := dim_location db; dim_time := dim_time db;
     dim_soil := insert_into (dim_soil db) (new_soils nv (dim_soil db));
     dim_weather := dim_weather db;
     fact_sensor_readings := fact_sensor_readings db |}.

Definition insert_dim_weather (nv : list valid_reading) (db : warehouse) : warehouse :=
  {| valid_readings := valid_readings db;
     dim_location := dim_location db; dim_time := dim_time db; dim_soil := dim_soil db;
     dim_weather := insert_into (dim_weather db) (new_weathers nv (dim_weather db));
     fact_sensor_readings := fact_sensor_readings db |}.

Definition insert_facts (nv : list valid_reading) (db : warehouse) : warehouse :=
  {| valid_readings := valid_readings db;
     dim_location := dim_location db; dim_time := dim_time db; dim_soil := dim_soil db;
     dim_weather := dim_weather db;
     fact_sensor_readings := fact_sensor_readings db ++ new_facts nv db |}.

(** One run of the job. [fails] tells which steps raise. *)
Definition run_cycle (fails : step -> bool) (db : warehouse) : warehouse :=
  let nv := new_data (last_ts (fails Watermark) db) db in
  match nv with
  | [] => db
  | _ =>
      let db := execute_sql_query (fails DimLocation) (insert_dim_location nv) db in
      let db := execute_sql_query (fails DimTime) (insert_dim_time nv) db in
      let db := execute_sql_query (fails DimSoil) (insert_dim_soil nv) db in
      let db := execute_sql_query (fails DimWeather) (insert_dim_weather nv) db in
      execute_sql_query (fails FactInsert) (insert_facts nv) db
  end.

Definition no_failure : step -> bool := fun _ => false.

(** New source rows arrive, then the job runs. *)
Definition add_readings (rows : list valid_reading) (db : warehouse) : warehouse :=
  {| valid_readings := valid_readings db ++ rows;
     dim_location := dim_location db; dim_time := dim_time db; dim_soil := dim_soil db;
     dim_weather := dim_weather db;
     fact_sensor_readings := fact_sensor_readings db |}.

(** A sequence of cycles, each with the rows that arrived before it and
    the steps that fail in it. *)
Definition run_cycles (cycles : list (list valid_reading * (step -> bool)))
    (db : warehouse) : warehouse :=
  fold_left (fun db c => run_cycle c.2 (add_readings c.1 db)) cycles db.

Definition empty_warehouse : warehouse :=
  {| valid_readings := []; dim_location := []; dim_time := []; dim_soil := [];
     dim_weather := []; fact_sensor_readings := [] |}.

End Warehouse.

(* ===================================================================== *)
(** * Notions used to state the properties *)
(* ===================================================================== *)

Module Notions.
Import Py Validator Alerts Throttle Handler.

(** [min_val <= x <= max_val] *)
Definition in_range (lo hi x : pynum) : bool := num_le lo x && num_le x hi.

(** The range widened by the buffer, a tenth of its width, on both
    sides: computed as the validator computes it. *)
Definition threshold_band (lo hi : pynum) : res (pynum * pynum) :=
  width <- num_sub hi lo ;;
  buffer <- num_mul width (lit 1 (-1)) ;;
  low <- num_sub lo buffer ;;
  high <- num_add hi buffer ;;
  Return (low, high).

(** [x] is outside the range and within the buffer beyond its bounds. *)
Definition near_threshold (lo hi x : pynum) : Prop :=
  in_range lo hi x = false /\
  exists low high, threshold_band lo hi = Return (low, high) /\ in_range low high x = true.

(** The same notion as the specification words it, in exact arithmetic
    on the numbers as written: [x] lies outside [min, max] and within
    [min - 0.1 * (max - min), max + 0.1 * (max - min)]. *)
Definition claimed_near_threshold (lo hi x : Q) : bool :=
  (negb (Qle_bool lo x && Qle_bool x hi)
   && Qle_bool (lo - (1 # 10) * (hi - lo)) x
   && Qle_bool x (hi + (1 # 10) * (hi - lo)))%Q.

(** The quantities every location's table lists, in its order. *)
Definition sensor_names : list string :=
  [ "temperature"; "humidity"; "water_level"; "nitrogen"; "phosphorus";
    "potassium"; "ph" ].

Definition error_kinds : list string :=
  [ "_extreme_value"; "_missing"; "_invalid_type"; "_out_of_range" ].

(** The error codes that name the quantity [q]. *)
Definition errors_of (q : string) : list string := map (sensor_error q) error_kinds.

(** The error codes one round of the sensor loop can append for [q]. *)
Definition raised_errors (q : string) : list string :=
  [ sensor_error q "_extreme_value"; sensor_error q "_invalid_type";
    sensor_error q "_out_of_range" ].

(** Where an error code of a returned list can come from. *)
Definition benign (data : reading) (e : string) : Prop :=
  e = "missing_loc_id"
  \/ (exists loc, e = "invalid_loc_id:" +:+ loc)
  \/ e ∈ missing_top_level_keys data
  \/ e = "missing_sensor_data"
  \/ (exists q, q ∈ sensor_names /\ e ∈ raised_errors q).

Definition warning_kinds : list string := [ "_type_converted"; "_near_threshold" ].

Definition raised_warnings (q : string) : list fstring :=
  [ sensor_warning q "_type_converted"; sensor_warning q "_near_threshold" ].

(** The numeric sentinels among [extreme_values]. *)
Definition numeric_sentinels : list Z := [0; 9999; -9999].

(** For one entry of a range table: the band is computed without error,
    and no numeric sentinel lies in the band outside the range. *)
Definition band_clear (entry : string * (pynum * pynum)) : bool :=
  let '(_, (lo, hi)) := entry in
  match threshold_band lo hi with
  | Return (low, high) =>
      forallb (fun s => in_range lo hi (NInt s) || negb (in_range low high (NInt s)))
              numeric_sentinels
  | Raise _ => false
  end.

(** [s] ends with [suffix]. *)
Fixpoint endswith (suffix s : string) : bool :=
  String.eqb suffix s ||
  match s with
  | EmptyString => false
  | String _ s' => endswith suffix s'
  end.

(** Whether a statement of the job takes effect in a cycle: there are
    new rows and the statement does not raise. *)
Definition takes_effect (fails : Warehouse.step -> bool) (s : Warehouse.step)
    (nv : list Warehouse.valid_reading) : bool :=
  match nv with
  | [] => false
  | _ => negb (fails s)
  end.

(** The rows a cycle extracts from the source. *)
Definition extraction (fails : Warehouse.step -> bool) (db : Warehouse.warehouse)
    : list Warehouse.valid_reading :=
  Warehouse.new_data (Warehouse.last_ts (fails Warehouse.Watermark) db) db.

(** A weather tuple without NULL. *)
Definition complete_weather (w : Warehouse.weather) : Prop :=
  is_Some (Warehouse.w_weather_temperature w) /\ is_Some (Warehouse.w_weather_humidity w)
  /\ is_Some (Warehouse.w_wind_speed w) /\ is_Some (Warehouse.w_wind_direction w)
  /\ is_Some (Warehouse.w_rain w) /\ is_Some (Warehouse.w_surface_pressure w).

(** A soil tuple without NULL. *)
Definition complete_soil (s : Warehouse.soil) : Prop :=
  is_Some (Warehouse.s_ph s) /\ is_Some (Warehouse.s_nitrogen s)
  /\ is_Some (Warehouse.s_phosphorus s) /\ is_Some (Warehouse.s_potassium s).

#[global] Instance complete_soil_dec s : Decision (complete_soil s).
Proof. unfold complete_soil. apply _. Defined.

(** The number the validator checks for a value: the value itself when
    it is an int or a float, else what [float()] makes of it. *)
Definition checked_number (val : pyval) : option pynum :=
  match as_num val with
  | Some x => Some x
  | None => NFloat <$> float_of_value val
  end.

(** The float a value is replaced with in the sensor map, if any. *)
Definition converted (val : pyval) : option spec_float :=
  match as_num val with
  | Some _ => None
  | None => float_of_value val
  end.

(** [x] lies in the range or in the range widened by the buffer. *)
Definition tolerated (lo hi x : pynum) : Prop :=
  in_range lo hi x = true
  \/ exists low high, threshold_band lo hi = Return (low, high) /\ in_range low high x = true.

(** [x] lies outside the range widened by the buffer. *)
Definition beyond_buffer (lo hi x : pynum) : Prop :=
  in_range lo hi x = false /\
  exists low high, threshold_band lo hi = Return (low, high) /\ in_range low high x = false.

(** For one entry of a range table: no numeric sentinel lies in the
    range. *)
Definition range_clear (entry : string * (pynum * pynum)) : bool :=
  let '(_, (lo, hi)) := entry in
  forallb (fun s => negb (in_range lo hi (NInt s))) numeric_sentinels.

(** The type and the priority of an alert. *)
Definition kind_of (a : alert) : string * string := (alert_type a, alert_priority a).

(** The kinds of alert the rules for VALID and WARNING records can give. *)
Definition operational_kinds : list (string * string) :=
  [ ("High Temperature", "HIGH"); ("Low Temperature", "HIGH");
    ("Low Water Level", "HIGH"); ("High Water Level", "MEDIUM");
    ("Soil pH Warning", "HIGH"); ("Soil pH Warning", "MEDIUM");
    ("Low Nutrient", "MEDIUM") ].

(** For one entry of a range table: [floor] is at most the lower bound
    of the range, and at most that of the range widened by the buffer. *)
Definition floor_clear (floor : pynum) (entry : string * (pynum * pynum)) : bool :=
  let '(_, (lo, hi)) := entry in
  match threshold_band lo hi with
  | Return (low, _) => num_le floor lo && num_le floor low
  | Raise _ => false
  end.

(** For one entry of a range table: the range and the range widened by
    the buffer lie between -1000 and 1000. *)
Definition band_small (entry : string * (pynum * pynum)) : bool :=
  let '(_, (lo, hi)) := entry in
  match threshold_band lo hi with
  | Return (low, high) =>
      num_le (NInt (-1000)) lo && num_le (NInt (-1000)) low
      && num_le hi (NInt 1000) && num_le high (NInt 1000)
  | Raise _ => false
  end.

(** The table [ranges] lists a temperature range, and 5, below which the
    Low Temperature rule fires, is at most its lower bounds. *)
Definition temperature_clear (ranges : list (string * (pynum * pynum))) : bool :=
  match assoc "temperature" ranges with
  | Some bounds => floor_clear (NInt 5) ("temperature", bounds)
  | None => false
  end.

Definition nutrients : list string := [ "nitrogen"; "phosphorus"; "potassium" ].

(** The table [ranges] lists the nutrient, and the floor of the Low
    Nutrient rule, 0.8 times the minimum, is computed without error and
    is at most the lower bounds of the range. *)
Definition nutrient_clear (ranges : list (string * (pynum * pynum))) (nutrient : string)
    : bool :=
  match assoc nutrient ranges with
  | Some bounds =>
      match num_mul (fst bounds) (lit 8 (-1)) with
      | Return floor => floor_clear floor (nutrient, bounds)
      | Raise _ => false
      end
  | None => false
  end.

(** No alert, or one alert of one of the [kinds]. *)
Definition one_of (kinds : list (string * string)) (l : list alert) : Prop :=
  l = [] \/ exists a, l = [a] /\ kind_of a ∈ kinds.

(** The number of candidate alerts a payload gives rise to: those
    [handle_alerts] derives when the record validates without raising. *)
Definition candidate_alerts (p : payload) : nat :=
  match p with
  | Undecodable => 0%nat
  | Decoded data =>
      match validate_record data with
      | Raise _ => 0%nat
      | Return (st, errors, _, data') =>
          match handle_alerts data' st errors with
          | Raise _ => 0%nat
          | Return alerts => length alerts
          end
      end
  end.




(** A payload whose [alerts_sent], if it has one, is a list. *)
Definition recordable (p : payload) : bool :=
  match p with
  | Undecodable => true
  | Decoded data => can_record data
  end.

(** A payload the handler counts as an error because it cannot be
    decoded or because [validate_record] raises on it. *)
Definition fails_to_process (p : payload) : bool :=
  match p with
  | Undecodable => true
  | Decoded data => negb (is_return (validate_record data))
  end.

(** Every fact row refers to a key of each of [dim_location],
    [dim_weather] and [dim_soil], and carries a date that is not NULL
    and is the [full_date] of a row of [dim_time]. *)
Definition references_hold (db : Warehouse.warehouse) : Prop :=
  forall f, f ∈ Warehouse.fact_sensor_readings db ->
    Warehouse.location_key f ∈ map fst (Warehouse.dim_location db)
    /\ Warehouse.weather_key f ∈ map fst (Warehouse.dim_weather db)
    /\ Warehouse.soil_key f ∈ map fst (Warehouse.dim_soil db)
    /\ is_Some (Warehouse.full_date f)
    /\ Warehouse.full_date f
       ∈ map (fun r => Warehouse.t_full_date r.2) (Warehouse.dim_time db).

(** The six tables of [db] are each the beginning of the same table of
    [db']. *)
Definition grows_into (db db' : Warehouse.warehouse) : Prop :=
  Warehouse.valid_readings db `prefix_of` Warehouse.valid_readings db'
  /\ Warehouse.dim_location db `prefix_of` Warehouse.dim_location db'
  /\ Warehouse.dim_time db `prefix_of` Warehouse.dim_time db'
  /\ Warehouse.dim_soil db `prefix_of` Warehouse.dim_soil db'
  /\ Warehouse.dim_weather db `prefix_of` Warehouse.dim_weather db'
  /\ Warehouse.fact_sensor_readings db `prefix_of` Warehouse.fact_sensor_readings db'.

End Notions.

(* ===================================================================== *)
(** * Concrete readings, alerts and warehouses used below *)
(* ===================================================================== *)

Module Scenarios.
Import Py Validator Alerts Throttle Handler.

Definition flt (m e : Z) : pyval := PFloat (float_of_decimal false m e).

(** A loc_1 reading with every quantity inside its range; the sensor
    temperature is 38.0 and the weather service reports 30.0. *)
Definition healthy_sensors : gmap string pyval :=
  list_to_map
    [ ("temperature", flt 380 (-1)); ("humidity", PInt 60);
      ("water_level", flt 15 (-1)); ("nitrogen", PInt 100);
      ("phosphorus", PInt 50); ("potassium", PInt 50); ("ph", flt 70 (-1)) ].

Definition healthy_reading : reading :=
  {| event_id := Some (PStr "evt-1");
     timestamp := Some (PStr "2025-01-01T00:00:00");
     loc_id := Some "loc_1";
     loc_id_null := false;
     sensor_data := Some (PDict healthy_sensors);
     weather_data := Some (PDict {[ "temperature_2m" := flt 300 (-1) ]});
     location := Some (PDict ∅);
     alerts_sent := None |}.

(** The same reading with the temperature sensor reporting the text
    ["9999"]. *)
Definition textual_sentinel_reading : reading :=
  set_sensor_data (PDict (<["temperature" := PStr "9999"]> healthy_sensors)) healthy_reading.

(** The same reading with a temperature of 9, just below the range
    [10, 50] of loc_1 and inside the buffer of 4 below it. *)
Definition near_threshold_reading : reading :=
  set_sensor_data (PDict (<["temperature" := PInt 9]> healthy_sensors)) healthy_reading.

(** The healthy values reported from loc_3, whose water level ranges
    over [0.4, 2.8], with a water level of 0.16. *)
Definition low_water_reading : reading :=
  {| event_id := event_id healthy_reading; timestamp := timestamp healthy_reading;
     loc_id := Some "loc_3"; loc_id_null := false;
     sensor_data := Some (PDict (<["water_level" := flt 16 (-2)]> healthy_sensors));
     weather_data := weather_data healthy_reading; location := location healthy_reading;
     alerts_sent := None |}.

(** The same reading without its [loc_id]. *)
Definition anonymous_reading : reading :=
  {| event_id := event_id healthy_reading; timestamp := timestamp healthy_reading;
     loc_id := None; loc_id_null := false;
     sensor_data := sensor_data healthy_reading;
     weather_data := weather_data healthy_reading; location := location healthy_reading;
     alerts_sent := None |}.

(** The same reading without its nitrogen value. *)
Definition missing_nitrogen_reading : reading :=
  set_sensor_data (PDict (delete "nitrogen" healthy_sensors)) healthy_reading.

Definition critical_alert : alert := sensor_failure_alert "loc_1" "sensor_failure".

Definition medium_alert : alert :=
  {| alert_type := "High Water Level"; alert_priority := "MEDIUM";
     alert_description := [Lit "High water level: "; Fixed 2 (flt 27 (-1)); Lit "m at loc_1"] |}.

(** 100 instants, a microsecond apart. *)
Definition hundred_instants : list Z := map Z.of_nat (seq 0 100).

(** A clock that advances one second per reading. *)
Definition one_second_clock (n : nat) : Z := seconds (Z.of_nat n).

(** The healthy reading with a null under [alerts_sent]. *)
Definition unrecordable_reading : reading :=
  {| event_id := event_id healthy_reading; timestamp := timestamp healthy_reading;
     loc_id := loc_id healthy_reading; loc_id_null := false;
     sensor_data := sensor_data healthy_reading;
     weather_data := weather_data healthy_reading; location := location healthy_reading;
     alerts_sent := Some PNone |}.

(** A batch of two records, each the healthy reading. *)
Definition twice_healthy : list payload :=
  [Decoded healthy_reading; Decoded healthy_reading].

(** The healthy reading with its temperature given as the text ["38.5"],
    and the record the validator leaves of it. *)
Definition textual_temperature_reading : reading :=
  set_sensor_data (PDict (<["temperature" := PStr "38.5"]> healthy_sensors)) healthy_reading.

Definition converted_temperature_reading : reading :=
  set_sensor_data (PDict (<["temperature" := flt 385 (-1)]> healthy_sensors)) healthy_reading.

(** The healthy reading with a temperature of 70, beyond the range
    [10, 50] of loc_1 and the buffer of 4 above it. *)
Definition scorching_reading : reading :=
  set_sensor_data (PDict (<["temperature" := PInt 70]> healthy_sensors)) healthy_reading.

(** The healthy reading with the text ["wet"] as its humidity. *)
Definition unreadable_humidity_reading : reading :=
  set_sensor_data (PDict (<["humidity" := PStr "wet"]> healthy_sensors)) healthy_reading.

(** The healthy reading whose [sensor_data] is a list. *)
Definition listed_sensors_reading : reading :=
  set_sensor_data (PList [PInt 38]) healthy_reading.

(** The alerts [handle_alerts] derives for the healthy reading. *)
Definition healthy_alerts : list alert :=
  match handle_alerts healthy_reading VALID [] with
  | Return alerts => alerts
  | Raise _ => []
  end.

(** A throttle state whose only entry, for the key of [medium_alert], was
    written at instant 0. *)
Definition stale_world : world :=
  {| state := {| last_sent := {[ "loc_1|High Water Level" := 0 ]};
                 consecutive_counts := {[ "loc_1|High Water Level" := 0 ]} |};
     sns := [] |}.

End Scenarios.

Module WarehouseScenarios.
Import Warehouse.

(** A source row at loc_1 (latitude 23, longitude 30) with the given
    event id, instant, soil pH, weather temperature and rain; every other
    measure is fixed and not NULL. *)
Definition source_row (id : string) (at_time : instant) (soil_ph weather_temp : num)
    (rain : option num) : valid_reading :=
  {| event_id := Some id; loc_id := Some "loc_1";
     latitude := Some 23; longitude := Some 30;
     timestamp := Some at_time;
     temperature := Some 25; humidity := Some 60; water_level := Some 2;
     ph := Some soil_ph; nitrogen := Some 100; phosphorus := Some 50;
     potassium := Some 50;
     weather_temperature_2m := Some weather_temp;
     weather_relative_humidity_2m := Some 40;
     weather_wind_speed_10m := Some 3;
     weather_wind_direction_10m := Some 90;
     weather_rain := rain;
     weather_surface_pressure := Some 1000;
     validation_status := Some "VALID" |}.

(** An empty warehouse whose source holds one row with a NULL rain. *)
Definition null_rain_source : warehouse :=
  add_readings [source_row "evt-1" 100 7 30 None] empty_warehouse.

(** An empty warehouse whose source holds a complete row at instant 200
    and a row with a NULL rain at the earlier instant 100. *)
Definition late_and_early : warehouse :=
  add_readings [source_row "evt-1" 200 7 30 (Some 0); source_row "evt-2" 100 7 31 None]
    empty_warehouse.

(** A warehouse that has loaded one row at instant 100, after which two
    rows arrive: one at instant 300 with the weather already known, one
    at instant 200 with a weather not yet in [dim_weather]. *)
Definition loaded_once : warehouse :=
  run_cycle no_failure
    (add_readings [source_row "evt-1" 100 7 30 (Some 0)] empty_warehouse).

Definition two_arrivals : warehouse :=
  add_readings [source_row "evt-2" 300 7 30 (Some 0); source_row "evt-3" 200 7 31 (Some 0)]
    loaded_once.

(** Only the [dim_weather] statement raises. *)
Definition weather_fails (s : step) : bool :=
  match s with DimWeather => true | _ => false end.

(** A row of loc_1 reporting other coordinates than the row loaded
    before it. *)
Definition moved_row : valid_reading :=
  {| event_id := Some "evt-9"; loc_id := Some "loc_1";
     latitude := Some 24; longitude := Some 31;
     timestamp := Some 400;
     temperature := Some 25; humidity := Some 60; water_level := Some 2;
     ph := Some 7; nitrogen := Some 100; phosphorus := Some 50;
     potassium := Some 50;
     weather_temperature_2m := Some 30;
     weather_relative_humidity_2m := Some 40;
     weather_wind_speed_10m := Some 3;
     weather_wind_direction_10m := Some 90;
     weather_rain := Some 0;
     weather_surface_pressure := Some 1000;
     validation_status := Some "VALID" |}.

(** The fact row [loaded_once] holds. *)
Definition first_fact : fact :=
  {| evt_id := Some "evt-1"; location_key := 1; weather_key := 1; soil_key := 1;
     full_date := Some 100; soil_temperature := Some 25; soil_humidity := Some 60;
     f_water_level := Some 2; f_validation_status := Some "VALID" |}.

End WarehouseScenarios.

(* ===================================================================== *)
(** * Properties of the throttle *)
(* ===================================================================== *)

Module ThrottleSpec.
Import Py Validator Alerts Throttle Handler Notions Scenarios.

Lemma critical_is_sent a loc e ts now w :
  alert_priority a = "CRITICAL" ->
  check_and_send_alert a loc e ts now w
  = (true, set_last_sent (alert_key loc a) now (send_alert a loc e ts w)).
Proof.
  intros Hp. unfold check_and_send_alert. by rewrite Hp.
Qed.

Lemma critical_always_sent a loc e ts nows :
  alert_priority a = "CRITICAL" ->
  forall w, (offer_at a loc e ts nows w).1 = replicate (length nows) true
            /\ length (sns (offer_at a loc e ts nows w).2)
               = (length (sns w) + length nows)%nat.
Proof.
  intros Hp. induction nows as [|now nows IH]; intros w; simpl.
  - split; [done | lia].
  - rewrite (critical_is_sent _ _ _ _ _ _ Hp).
    destruct (offer_at a loc e ts nows _) as [rest w''] eqn:Hrest.
    specialize (IH (set_last_sent (alert_key loc a) now (send_alert a loc e ts w))).
    rewrite Hrest in IH. destruct IH as [IH1 IH2]. simpl in *.
    split; [by rewrite IH1 |].
    rewrite IH2. rewrite length_app. simpl. lia.
Qed.

(** C3. From the empty throttle state, a CRITICAL alert offered at any
    100 instants is sent all 100 times; and an alert of MEDIUM priority
    (threshold 1, interval 5 minutes) is sent at its first occurrence,
    suppressed at a second one less than 5 minutes after the first, and
    sent again at a third one 6 minutes after the first. *)
Theorem throttle_correctness :
  forall (critical medium : alert) (loc : string) (e : pyval) (ts : option pyval)
         (nows : list Z) (t0 t1 : Z),
    alert_priority critical = "CRITICAL" ->
    alert_priority medium = "MEDIUM" ->
    length nows = 100%nat ->
    t1 - t0 < minutes 5 ->
    (offer_at critical loc e ts nows empty_world).1 = replicate 100 true
    /\ length (sns (offer_at critical loc e ts nows empty_world).2) = 100%nat
    /\ (offer_at medium loc e ts [t0; t1; t0 + minutes 6] empty_world).1
       = [true; false; true].
Proof.
  intros critical medium loc e ts nows t0 t1 Hc Hm Hlen Hlt.
  destruct (critical_always_sent critical loc e ts nows Hc empty_world) as [H1 H2].
  rewrite Hlen in H1, H2.
  split; [exact H1 | split; [exact H2 |]].
  unfold offer_at, check_and_send_alert. rewrite Hm. simpl.
  rewrite lookup_empty. simpl.
  rewrite !lookup_insert_eq. simpl.
  assert (Hthr : (t1 - t0 <? ALERT_INTERVAL) = true)
    by (apply Z.ltb_lt; exact Hlt).
  rewrite Hthr. simpl.
  rewrite !lookup_insert_eq. simpl.
  assert (Hgo : (t0 + minutes 6 - t0 <? ALERT_INTERVAL) = false)
    by (apply Z.ltb_ge; unfold ALERT_INTERVAL, minutes; lia).
  rewrite Hgo. simpl. reflexivity.
Qed.

Lemma throttle_correctness_witness :
  (offer_at critical_alert "loc_1" (PStr "evt-1") None hundred_instants empty_world).1
  = replicate 100 true
  /\ length (sns (offer_at critical_alert "loc_1" (PStr "evt-1") None
                    hundred_instants empty_world).2) = 100%nat
  /\ (offer_at medium_alert "loc_1" (PStr "evt-1") None
        [0; minutes 2; 0 + minutes 6] empty_world).1 = [true; false; true].
Proof.
  apply (throttle_correctness critical_alert medium_alert "loc_1" (PStr "evt-1") None
           hundred_instants 0 (minutes 2)).
  - reflexivity.
  - reflexivity.
  - reflexivity.
  - unfold minutes. lia.
Defined.

(** The count under a key other than the one written is left alone. *)
Lemma count_of_set_count_ne key key' c w :
  key <> key' -> count_of (set_count key c w) key' = count_of w key'.
Proof.
  intros Hne. unfold count_of, set_count. simpl. by rewrite lookup_insert_ne.
Qed.






(** A CRITICAL emission and one through the threshold check, both from
    the empty state: the one writes no count, the other stores a 0; the
    throttle reads 0 after both. *)
Example counts_after_emission :
  consecutive_counts
    (state (check_and_send_alert critical_alert "loc_1" (PStr "evt-1") None 0
              empty_world).2) = ∅
  /\ consecutive_counts
       (state (check_and_send_alert medium_alert "loc_1" (PStr "evt-1") None 0
                 empty_world).2) = {[ alert_key "loc_1" medium_alert := 0 ]}
  /\ count_of (check_and_send_alert critical_alert "loc_1" (PStr "evt-1") None 0
                 empty_world).2 (alert_key "loc_1" critical_alert) = 0.
Proof. split_and!; reflexivity. Qed.

End ThrottleSpec.

(* ===================================================================== *)
(** * Properties of the validator *)
(* ===================================================================== *)

Module ValidatorSpec.
Import Py Validator Alerts Notions Scenarios.

(** ** Numbers: equal numbers compare alike *)

Lemma xcompare_eq_r x y z :
  xcompare x y = Some Eq -> xcompare z x = xcompare z y.
Proof.
  destruct x as [| |p|], y as [| |q|]; simpl; try discriminate; try done.
  intros [= Hpq]. apply Qeq_alt in Hpq.
  destruct z as [| |r|]; simpl; try done.
  f_equal. by rewrite Hpq.
Qed.

Lemma xcompare_eq_l x y z :
  xcompare x y = Some Eq -> xcompare x z = xcompare y z.
Proof.
  destruct x as [| |p|], y as [| |q|]; simpl; try discriminate; try done.
  intros [= Hpq]. apply Qeq_alt in Hpq.
  destruct z as [| |r|]; simpl; try done.
  f_equal. by rewrite Hpq.
Qed.

Lemma num_eq_compare x y :
  num_eq x y = true -> num_compare x y = Some Eq.
Proof.
  unfold num_eq. destruct (num_compare x y) as [[]|]; done.
Qed.

Lemma in_range_eq lo hi x y :
  num_eq x y = true -> in_range lo hi x = in_range lo hi y.
Proof.
  intros Heq%num_eq_compare. unfold in_range, num_le, num_compare in *.
  by rewrite (xcompare_eq_r _ _ _ Heq), (xcompare_eq_l _ _ _ Heq).
Qed.

(** ** The shipped range tables *)

Lemma shipped_names loc ranges :
  assoc loc EXPECTED_RANGES_PER_LOCATION = Some ranges ->
  map fst ranges = sensor_names.
Proof.
  unfold EXPECTED_RANGES_PER_LOCATION. simpl.
  repeat (destruct (String.eqb loc _); [intros [= <-]; reflexivity |]).
  discriminate.
Qed.

Lemma shipped_band_clear loc ranges :
  assoc loc EXPECTED_RANGES_PER_LOCATION = Some ranges ->
  forallb band_clear ranges = true.
Proof.
  unfold EXPECTED_RANGES_PER_LOCATION. simpl.
  repeat (destruct (String.eqb loc _); [intros [= <-]; vm_compute; reflexivity |]).
  discriminate.
Qed.

Lemma band_clear_entry ranges q lo hi :
  forallb band_clear ranges = true ->
  (q, (lo, hi)) ∈ ranges ->
  band_clear (q, (lo, hi)) = true.
Proof.
  intros Hall Hin. rewrite forallb_forall in Hall.
  apply Hall. by apply list_elem_of_In.
Qed.

Lemma band_clear_returns q lo hi :
  band_clear (q, (lo, hi)) = true ->
  exists low high, threshold_band lo hi = Return (low, high).
Proof.
  unfold band_clear. destruct (threshold_band lo hi) as [[low high]|]; [eauto | done].
Qed.

(** A number near the threshold of a shipped range is no sentinel. *)
Lemma near_threshold_not_extreme q lo hi v x :
  band_clear (q, (lo, hi)) = true ->
  as_num v = Some x ->
  near_threshold lo hi x ->
  in_atoms v extreme_values = false.
Proof.
  intros Hclear Hnum [Hout (low & high & Hband & Hin)].
  unfold band_clear in Hclear. rewrite Hband in Hclear.
  assert (Hs : forall s, s ∈ numeric_sentinels -> num_eq x (NInt s) = false).
  { intros s Hs. destruct (num_eq x (NInt s)) eqn:Heq; [| done].
    rewrite forallb_forall in Hclear.
    specialize (Hclear s (proj1 (list_elem_of_In _ _) Hs)).
    rewrite <- (in_range_eq lo hi _ _ Heq), <- (in_range_eq low high _ _ Heq) in Hclear.
    rewrite Hout, Hin in Hclear. done. }
  assert (H0 := Hs 0 ltac:(set_solver)).
  assert (H1 := Hs 9999 ltac:(set_solver)).
  assert (H2 := Hs (-9999) ltac:(set_solver)).
  unfold in_atoms, extreme_values. simpl.
  destruct v; simpl in Hnum; try discriminate; injection Hnum as <-;
    simpl; rewrite ?H0, ?H1, ?H2; reflexivity.
Qed.

(** ** One round of the sensor loop *)

Lemma none_is_extreme : in_atoms PNone extreme_values = true.
Proof. reflexivity. Qed.

(** On a dict, and with a band that is computed without error, a round
    returns; it appends at most errors and warnings of its own quantity,
    never the [_missing] one, and rewrites at most its own entry. *)
Lemma validate_sensor_frame q lo hi band d errs warns :
  threshold_band lo hi = Return band ->
  exists d' es ws,
    validate_sensor (q, (lo, hi)) (PDict d, errs, warns)
    = Return (PDict d', errs ++ es, warns ++ ws)
    /\ (forall k, k <> q -> d' !! k = d !! k)
    /\ (forall e, e ∈ es -> e ∈ raised_errors q)
    /\ (forall w, w ∈ ws -> w ∈ raised_warnings q).
Proof.
  intros Hband. unfold validate_sensor, py_get. cbn [bind].
  set (val := default PNone (d !! q)).
  destruct (in_atoms val extreme_values) eqn:Hext.
  { exists d, [sensor_error q "_extreme_value"], [].
    rewrite app_nil_r. unfold raised_errors.
    split_and!; [done | done | | by intros w ?%elem_of_nil].
    intros e ->%list_elem_of_singleton. apply list_elem_of_here. }
  assert (Hnone : val <> PNone) by (intros E; rewrite E in Hext; discriminate).
  assert (Hcheck : forall x d0 warns0 ws0,
             warns0 = warns ++ ws0 ->
             (forall k, k <> q -> d0 !! k = d !! k) ->
             (forall w, w ∈ ws0 -> w ∈ raised_warnings q) ->
             exists d' es ws,
               (if num_le lo x && num_le x hi then Return (PDict d0, errs, warns0)
                else
                  width <- num_sub hi lo ;;
                  buffer <- num_mul width (lit 1 (-1)) ;;
                  low <- num_sub lo buffer ;;
                  high <- num_add hi buffer ;;
                  if num_le low x && num_le x high
                  then Return (PDict d0, errs,
                               warns0 ++ [sensor_warning q "_near_threshold"])
                  else Return (PDict d0, errs ++ [sensor_error q "_out_of_range"], warns0))
               = Return (PDict d', errs ++ es, warns ++ ws)
               /\ (forall k, k <> q -> d' !! k = d !! k)
               /\ (forall e, e ∈ es -> e ∈ raised_errors q)
               /\ (forall w, w ∈ ws -> w ∈ raised_warnings q)).
  { intros x d0 warns0 ws0 -> Hd0 Hws0.
    destruct (num_le lo x && num_le x hi).
    - exists d0, [], ws0. rewrite app_nil_r.
      split_and!; [done | done | by intros e ?%elem_of_nil | done].
    - unfold threshold_band in Hband.
      destruct (num_sub hi lo) as [width|]; simpl in *; [| discriminate].
      destruct (num_mul width _) as [buffer|]; simpl in *; [| discriminate].
      destruct (num_sub lo buffer) as [low|]; simpl in *; [| discriminate].
      destruct (num_add hi buffer) as [high|]; simpl in *; [| discriminate].
      destruct (num_le low x && num_le x high).
      + exists d0, [], (ws0 ++ [sensor_warning q "_near_threshold"]).
        rewrite app_nil_r, app_assoc.
        split_and!; [done | done | by intros e ?%elem_of_nil |].
        intros w [Hw|Hw%list_elem_of_singleton]%elem_of_app; [by apply Hws0 |].
        subst w. unfold raised_warnings. apply list_elem_of_further, list_elem_of_here.
      + exists d0, [sensor_error q "_out_of_range"], ws0.
        split_and!; [done | done | | done].
        intros e ->%list_elem_of_singleton. unfold raised_errors.
        do 2 apply list_elem_of_further. apply list_elem_of_here. }
  assert (Hnum : forall x, exists d' es ws,
             (if num_le lo x && num_le x hi then Return (PDict d, errs, warns)
                else
                  width <- num_sub hi lo ;;
                  buffer <- num_mul width (lit 1 (-1)) ;;
                  low <- num_sub lo buffer ;;
                  high <- num_add hi buffer ;;
                  if num_le low x && num_le x high
                  then Return (PDict d, errs,
                               warns ++ [sensor_warning q "_near_threshold"])
                  else Return (PDict d, errs ++ [sensor_error q "_out_of_range"], warns))
               = Return (PDict d', errs ++ es, warns ++ ws)
               /\ (forall k, k <> q -> d' !! k = d !! k)
               /\ (forall e, e ∈ es -> e ∈ raised_errors q)
               /\ (forall w, w ∈ ws -> w ∈ raised_warnings q)).
  { intros x. apply (Hcheck x d warns []).
    - by rewrite app_nil_r.
    - done.
    - by intros w ?%elem_of_nil. }
  assert (Hbad : exists d' es ws,
             Return (PDict d, errs ++ [sensor_error q "_invalid_type"], warns)
             = Return (PDict d', errs ++ es, warns ++ ws)
             /\ (forall k, k <> q -> d' !! k = d !! k)
             /\ (forall e, e ∈ es -> e ∈ raised_errors q)
             /\ (forall w, w ∈ ws -> w ∈ raised_warnings q)).
  { exists d, [sensor_error q "_invalid_type"], []. rewrite app_nil_r.
    split_and!; [done | done | | by intros w ?%elem_of_nil].
    intros e ->%list_elem_of_singleton. unfold raised_errors.
    apply list_elem_of_further, list_elem_of_here. }
  destruct val as [|b|n|f|s|l|m] eqn:Hval; cbn [as_num float_of_value].
  - done.
  - apply Hnum.
  - apply Hnum.
  - apply Hnum.
  - destruct (float_of_string s) as [f|]; [| exact Hbad].
    apply (Hcheck (NFloat f) (<[q := PFloat f]> d) _ [sensor_warning q "_type_converted"]).
    + done.
    + intros k Hk. by rewrite lookup_insert_ne.
    + intros w ->%list_elem_of_singleton. unfold raised_warnings. apply list_elem_of_here.
  - exact Hbad.
  - exact Hbad.
Qed.

(** ** The whole sensor loop *)

Lemma validate_sensors_app l1 l2 st :
  validate_sensors (l1 ++ l2) st
  = (st' <- validate_sensors l1 st ;; validate_sensors l2 st').
Proof.
  revert st. induction l1 as [|entry l1 IH]; intros st; simpl; [done |].
  destruct (validate_sensor entry st) as [st1|]; simpl; [apply IH | done].
Qed.

(** On a dict the loop over a table with clear bands returns; what it
    appends comes from the rounds of the listed quantities, and the
    entries of the other quantities are as before. *)
Lemma validate_sensors_frame ranges :
  forallb band_clear ranges = true ->
  forall d errs warns,
  exists d' es ws,
    validate_sensors ranges (PDict d, errs, warns)
    = Return (PDict d', errs ++ es, warns ++ ws)
    /\ (forall k, k ∉ map fst ranges -> d' !! k = d !! k)
    /\ (forall e, e ∈ es -> exists q, q ∈ map fst ranges /\ e ∈ raised_errors q)
    /\ (forall w, w ∈ ws -> exists q, q ∈ map fst ranges /\ w ∈ raised_warnings q).
Proof.
  induction ranges as [|[q [lo hi]] ranges IH]; intros Hclear d errs warns.
  - exists d, [], []. rewrite !app_nil_r.
    split_and!; [done | done | by intros e ?%elem_of_nil | by intros w ?%elem_of_nil].
  - cbn [forallb] in Hclear. apply andb_prop in Hclear as [Hq Hrest].
    destruct (band_clear_returns _ _ _ Hq) as (low & high & Hband).
    destruct (validate_sensor_frame q lo hi _ d errs warns Hband)
      as (d1 & es1 & ws1 & Hstep & Hd1 & Hes1 & Hws1).
    destruct (IH Hrest d1 (errs ++ es1) (warns ++ ws1))
      as (d2 & es2 & ws2 & Hloop & Hd2 & Hes2 & Hws2).
    exists d2, (es1 ++ es2), (ws1 ++ ws2).
    cbn [validate_sensors]. rewrite Hstep. cbn [bind]. rewrite Hloop, !app_assoc.
    split_and!; [done | | |].
    + intros k Hk. cbn [map fst] in Hk. rewrite not_elem_of_cons in Hk.
      destruct Hk as [Hne Hk]. rewrite (Hd2 k Hk). by apply Hd1.
    + intros e [He|He]%elem_of_app.
      * exists q. split; [apply list_elem_of_here | by apply Hes1].
      * destruct (Hes2 e He) as (q' & Hq' & He'). exists q'.
        split; [by apply list_elem_of_further | done].
    + intros w [Hw|Hw]%elem_of_app.
      * exists q. split; [apply list_elem_of_here | by apply Hws1].
      * destruct (Hws2 w Hw) as (q' & Hq' & Hw'). exists q'.
        split; [by apply list_elem_of_further | done].
Qed.

(** ** What [validate_record] can return *)

Lemma cross_validate_warnings sd data warnings ws :
  cross_validate sd data warnings = Return ws ->
  ws = warnings
  \/ exists a b, ws = warnings ++ [[Lit "temperature_mismatch:"; Val a; Lit "vs"; Val b]].
Proof.
  unfold cross_validate.
  destruct (py_in "temperature" sd) as [[]|]; cbn [bind]; try discriminate.
  - destruct (weather_data data) as [wd|].
    + destruct (py_in "temperature_2m" wd) as [[]|]; cbn [bind]; try discriminate.
      * destruct (py_getitem sd "temperature") as [st|]; cbn [bind]; try discriminate.
        destruct (py_getitem wd "temperature_2m") as [wt|]; cbn [bind]; try discriminate.
        destruct (py_sub st wt) as [diff|]; cbn [bind]; try discriminate.
        destruct (num_gt _ _); intros [= <-]; [right; eauto | by left].
      * intros [= <-]. by left.
    + intros [= <-]. by left.
  - intros [= <-]. by left.
Qed.

Lemma validate_record_unfold data loc ranges d :
  loc_id data = Some loc ->
  assoc loc EXPECTED_RANGES_PER_LOCATION = Some ranges ->
  sensor_data data = Some (PDict d) ->
  d <> ∅ ->
  validate_record data
  = bind (validate_sensors ranges (PDict d, missing_top_level_keys data, []))
      (fun st =>
         match cross_validate st.1.1 (set_sensor_data st.1.1 data) st.2 with
         | Raise e => Raise e
         | Return warnings =>
             Return (overall_status st.1.2 warnings, st.1.2, warnings,
                     set_sensor_data st.1.1 data)
         end).
Proof.
  intros Hloc Hranges Hsd Hne.
  unfold validate_record. rewrite Hloc.
  destruct (String.eqb loc "") eqn:Hempty.
  { apply String.eqb_eq in Hempty. subst loc. discriminate. }
  rewrite Hranges, Hsd. cbn [default from_option id truthy].
  rewrite bool_decide_eq_false_2 by done. cbn [negb].
  destruct (validate_sensors ranges _) as [[[sd' errors] warnings]|]; reflexivity.
Qed.

(** The shape of a call that gets as far as the sensor loop. *)
Lemma validate_record_loop data loc ranges d :
  loc_id data = Some loc ->
  assoc loc EXPECTED_RANGES_PER_LOCATION = Some ranges ->
  sensor_data data = Some (PDict d) ->
  d <> ∅ ->
  exists d' es ws,
    validate_sensors ranges (PDict d, missing_top_level_keys data, [])
    = Return (PDict d', missing_top_level_keys data ++ es, ws)
    /\ (forall k, k ∉ map fst ranges -> d' !! k = d !! k)
    /\ (forall e, e ∈ es -> exists q, q ∈ map fst ranges /\ e ∈ raised_errors q)
    /\ (forall w, w ∈ ws -> exists q, q ∈ map fst ranges /\ w ∈ raised_warnings q)
    /\ validate_record data
       = match cross_validate (PDict d') (set_sensor_data (PDict d') data) ws with
         | Raise e => Raise e
         | Return warnings =>
             Return (overall_status (missing_top_level_keys data ++ es) warnings,
                     missing_top_level_keys data ++ es, warnings,
                     set_sensor_data (PDict d') data)
         end.
Proof.
  intros Hloc Hranges Hsd Hne.
  destruct (validate_sensors_frame ranges (shipped_band_clear _ _ Hranges)
              d (missing_top_level_keys data) [])
    as (d' & es & ws & Hloop & Hd' & Hes & Hws).
  rewrite app_nil_l in Hloop.
  exists d', es, ws. split_and!; try done.
  rewrite (validate_record_unfold _ _ _ _ Hloc Hranges Hsd Hne), Hloop. reflexivity.
Qed.

(** ** The codes of different quantities never coincide *)

Lemma sensor_code_inj :
  Forall (fun q => Forall (fun q' => Forall (fun k => Forall (fun k' =>
    sensor_error q k = sensor_error q' k' -> q = q' /\ k = k')
    (error_kinds ++ warning_kinds)) (error_kinds ++ warning_kinds))
    sensor_names) sensor_names.
Proof. apply (bool_decide_unpack _). vm_compute. exact I. Qed.

Lemma sensor_code_eq q q' k k' :
  q ∈ sensor_names -> q' ∈ sensor_names ->
  k ∈ error_kinds ++ warning_kinds -> k' ∈ error_kinds ++ warning_kinds ->
  sensor_error q k = sensor_error q' k' -> q = q' /\ k = k'.
Proof.
  intros Hq Hq' Hk Hk'. pose proof sensor_code_inj as H.
  rewrite Forall_forall in H. specialize (H q Hq).
  rewrite Forall_forall in H. specialize (H q' Hq').
  rewrite Forall_forall in H. specialize (H k Hk).
  rewrite Forall_forall in H. exact (H k' Hk').
Qed.

Lemma raised_errors_kind q e :
  e ∈ raised_errors q ->
  exists k, k ∈ error_kinds ++ warning_kinds /\ k <> "_missing" /\ e = sensor_error q k.
Proof.
  unfold raised_errors. rewrite !elem_of_cons, elem_of_nil.
  intros [->|[->|[->|[]]]]; eexists; (split; [| split; [| reflexivity]]);
    [ | discriminate | | discriminate | | discriminate ];
    unfold error_kinds, warning_kinds; cbn [app]; rewrite !elem_of_cons; tauto.
Qed.

Lemma errors_of_kind q e :
  e ∈ errors_of q -> exists k, k ∈ error_kinds ++ warning_kinds /\ e = sensor_error q k.
Proof.
  unfold errors_of. intros (k & -> & Hk)%list_elem_of_fmap.
  exists k. split; [| done]. apply elem_of_app. by left.
Qed.

Lemma raised_warnings_kind q w :
  w ∈ raised_warnings q ->
  exists k, k ∈ error_kinds ++ warning_kinds /\ w = sensor_warning q k.
Proof.
  unfold raised_warnings. rewrite !elem_of_cons, elem_of_nil.
  intros [->|[->|[]]]; eexists; (split; [| reflexivity]);
    unfold error_kinds, warning_kinds; cbn [app]; rewrite !elem_of_cons; tauto.
Qed.

Lemma sensor_warning_inj q k q' k' :
  sensor_warning q k = sensor_warning q' k' -> sensor_error q k = sensor_error q' k'.
Proof.
  intros H.
  exact (f_equal (fun w : fstring => match w with [Lit s] => s | _ => "" end) H).
Qed.

(** The codes for a missing top-level key name no quantity. *)
Lemma top_level_not_sensor data e q k :
  e ∈ missing_top_level_keys data -> e <> sensor_error q k.
Proof.
  unfold missing_top_level_keys. intros (kb & -> & _)%list_elem_of_fmap.
  unfold sensor_error. cbn. discriminate.
Qed.

(** ** A value near the threshold *)

Lemma validate_sensor_near q lo hi d v x errs warns :
  band_clear (q, (lo, hi)) = true ->
  d !! q = Some v ->
  as_num v = Some x ->
  near_threshold lo hi x ->
  validate_sensor (q, (lo, hi)) (PDict d, errs, warns)
  = Return (PDict d, errs, warns ++ [sensor_warning q "_near_threshold"]).
Proof.
  intros Hclear Hd Hnum Hnear.
  pose proof (near_threshold_not_extreme _ _ _ _ _ Hclear Hnum Hnear) as Hext.
  destruct Hnear as [Hout (low & high & Hband & Hin)].
  unfold in_range in Hout, Hin. unfold threshold_band in Hband.
  unfold validate_sensor, py_get. cbn [bind]. rewrite Hd.
  cbn [default from_option id]. rewrite Hext.
  destruct (num_sub hi lo) as [width|]; cbn [bind] in Hband; [| discriminate].
  destruct (num_mul width _) as [buffer|] eqn:Hmul; cbn [bind] in Hband; [| discriminate].
  destruct (num_sub lo buffer) as [low'|] eqn:Hlow; cbn [bind] in Hband; [| discriminate].
  destruct (num_add hi buffer) as [high'|] eqn:Hhigh; cbn [bind] in Hband; [| discriminate].
  injection Hband as -> ->.
  destruct v; cbn [as_num] in Hnum; try discriminate; injection Hnum as <-;
    cbn [as_num]; rewrite Hout; cbn [bind]; rewrite Hmul; cbn [bind];
    rewrite Hlow; cbn [bind]; rewrite Hhigh; cbn [bind]; rewrite Hin; reflexivity.
Qed.

Lemma forallb_app_inv {A} (f : A -> bool) l1 l2 :
  forallb f (l1 ++ l2) = true -> forallb f l1 = true /\ forallb f l2 = true.
Proof. rewrite forallb_app. apply andb_prop. Qed.

(** The loop seen from one quantity [q]: when the round of [q] leaves
    the sensor map alone and appends [eq] and [wq], the loop appends
    these and, besides, only codes of the other quantities. *)
Lemma validate_sensors_focus ranges q lo hi d eq wq errs warns :
  forallb band_clear ranges = true ->
  NoDup (map fst ranges) ->
  (q, (lo, hi)) ∈ ranges ->
  (forall d1 errs1 warns1,
      d1 !! q = d !! q ->
      validate_sensor (q, (lo, hi)) (PDict d1, errs1, warns1)
      = Return (PDict d1, errs1 ++ eq, warns1 ++ wq)) ->
  exists d' es ws,
    validate_sensors ranges (PDict d, errs, warns)
    = Return (PDict d', errs ++ es, warns ++ ws)
    /\ (forall e, e ∈ eq -> e ∈ es)
    /\ (forall w, w ∈ wq -> w ∈ ws)
    /\ (forall e, e ∈ es ->
          e ∈ eq \/ exists q', q' ∈ map fst ranges /\ q' <> q /\ e ∈ raised_errors q')
    /\ (forall w, w ∈ ws ->
          w ∈ wq \/ exists q', q' ∈ map fst ranges /\ q' <> q /\ w ∈ raised_warnings q').
Proof.
  intros Hclear Hnodup Hin Hstep.
  apply list_elem_of_split in Hin as (l1 & l2 & ->).
  rewrite map_app in Hnodup. cbn [map fst] in Hnodup.
  apply NoDup_app in Hnodup as (_ & Hl1 & Hnodup).
  apply NoDup_cons in Hnodup as [Hl2 _].
  assert (Hq1 : q ∉ map fst l1).
  { intros Hq. apply (Hl1 q Hq). apply list_elem_of_here. }
  apply forallb_app_inv in Hclear as [Hc1 Hc2].
  cbn [forallb] in Hc2. apply andb_prop in Hc2 as [Hcq Hc2].
  destruct (validate_sensors_frame l1 Hc1 d errs warns)
    as (d1 & es1 & ws1 & Hloop1 & Hd1 & Hes1 & Hws1).
  destruct (validate_sensors_frame l2 Hc2 d1 ((errs ++ es1) ++ eq) ((warns ++ ws1) ++ wq))
    as (d2 & es2 & ws2 & Hloop2 & Hd2 & Hes2 & Hws2).
  exists d2, (es1 ++ eq ++ es2), (ws1 ++ wq ++ ws2).
  split_and!.
  - rewrite validate_sensors_app, Hloop1. cbn [bind validate_sensors].
    rewrite Hstep by (by apply Hd1).
    cbn [bind]. rewrite Hloop2. by rewrite !app_assoc.
  - intros e He. rewrite !elem_of_app. tauto.
  - intros w Hw. rewrite !elem_of_app. tauto.
  - intros e [He|[He|He]%elem_of_app]%elem_of_app.
    + right. destruct (Hes1 e He) as (q' & Hq' & He'). exists q'. split_and!; [| | done].
      * rewrite map_app. apply elem_of_app. by left.
      * intros ->. done.
    + by left.
    + right. destruct (Hes2 e He) as (q' & Hq' & He'). exists q'. split_and!; [| | done].
      * rewrite map_app. apply elem_of_app. right. by apply list_elem_of_further.
      * intros ->. done.
  - intros w [Hw|[Hw|Hw]%elem_of_app]%elem_of_app.
    + right. destruct (Hws1 w Hw) as (q' & Hq' & Hw'). exists q'. split_and!; [| | done].
      * rewrite map_app. apply elem_of_app. by left.
      * intros ->. done.
    + by left.
    + right. destruct (Hws2 w Hw) as (q' & Hq' & Hw'). exists q'. split_and!; [| | done].
      * rewrite map_app. apply elem_of_app. right. by apply list_elem_of_further.
      * intros ->. done.
Qed.

Lemma validate_sensors_near ranges q lo hi d v x errs warns :
  forallb band_clear ranges = true ->
  NoDup (map fst ranges) ->
  (q, (lo, hi)) ∈ ranges ->
  d !! q = Some v ->
  as_num v = Some x ->
  near_threshold lo hi x ->
  exists d' es ws,
    validate_sensors ranges (PDict d, errs, warns)
    = Return (PDict d', errs ++ es, warns ++ ws)
    /\ sensor_warning q "_near_threshold" ∈ ws
    /\ (forall e, e ∈ es ->
          exists q', q' ∈ map fst ranges /\ q' <> q /\ e ∈ raised_errors q')
    /\ (forall w, w ∈ ws ->
          w = sensor_warning q "_near_threshold"
          \/ exists q', q' ∈ map fst ranges /\ q' <> q /\ w ∈ raised_warnings q').
Proof.
  intros Hclear Hnodup Hin Hd Hnum Hnear.
  destruct (validate_sensors_focus ranges q lo hi d []
              [sensor_warning q "_near_threshold"] errs warns Hclear Hnodup Hin)
    as (d' & es & ws & Hloop & _ & Hwq & Hes & Hws).
  { intros d1 errs1 warns1 Hd1. rewrite app_nil_r.
    apply (validate_sensor_near q lo hi d1 v x); try done.
    - exact (band_clear_entry _ _ _ _ Hclear Hin).
    - by rewrite Hd1. }
  exists d', es, ws. split_and!; [done | | |].
  - apply Hwq, list_elem_of_here.
  - intros e He. destruct (Hes e He) as [?%elem_of_nil | ?]; done.
  - intros w Hw. destruct (Hws w Hw) as [->%list_elem_of_singleton | ?]; [by left | by right].
Qed.

(** ** A sentinel value *)

Lemma validate_sensor_extreme q lo hi d errs warns :
  in_atoms (default PNone (d !! q)) extreme_values = true ->
  validate_sensor (q, (lo, hi)) (PDict d, errs, warns)
  = Return (PDict d, errs ++ [sensor_error q "_extreme_value"], warns).
Proof.
  intros Hext. unfold validate_sensor, py_get. cbn [bind]. by rewrite Hext.
Qed.

Lemma shipped_name loc ranges q b :
  assoc loc EXPECTED_RANGES_PER_LOCATION = Some ranges ->
  (q, b) ∈ ranges -> q ∈ sensor_names.
Proof.
  intros Hranges Hin. rewrite <- (shipped_names _ _ Hranges).
  apply list_elem_of_fmap. by exists (q, b).
Qed.

Lemma sensor_names_nodup : NoDup sensor_names.
Proof. apply (bool_decide_unpack _). vm_compute. exact I. Qed.

Lemma lookup_Some_nonempty (d : gmap string pyval) q v : d !! q = Some v -> d <> ∅.
Proof. intros Hd ->. by rewrite lookup_empty in Hd. Qed.

Lemma overall_status_invalid errors warnings :
  overall_status errors warnings = INVALID -> exists e, e ∈ errors.
Proof.
  destruct errors as [|e errors]; [destruct warnings; discriminate |].
  intros _. exists e. apply list_elem_of_here.
Qed.

Lemma cross_validate_without_weather d' data ws :
  weather_data data = None ->
  cross_validate (PDict d') (set_sensor_data (PDict d') data) ws = Return ws.
Proof.
  intros Hw. unfold cross_validate. cbn [py_in bind set_sensor_data weather_data].
  rewrite Hw. by destruct (bool_decide _).
Qed.

(** C8. Take a reading of a configured location whose sensor map gives a
    quantity of the location's range table a number (an int, a float or
    a bool) outside the range [min, max] and inside the band the code
    computes in binary64 from the buffer (max - min) * 0.1. The sensor
    loop returns, and the state it leaves holds that quantity's
    [_near_threshold] warning, not its [_type_converted] warning, and no
    error of that quantity. What [validate_record] does is then settled
    by the temperature cross-check on that state: if the cross-check
    returns, [validate_record] returns its warnings with these errors,
    the warning is still there, the status is not VALID, and a status
    INVALID is due to an error that is not about the quantity; if the
    cross-check raises, [validate_record] raises the same exception.
    Without [weather_data] the cross-check returns. *)
Theorem near_threshold_is_warning :
  forall (data : reading) (loc : string) (ranges : list (string * (pynum * pynum)))
         (q : string) (lo hi : pynum) (d : gmap string pyval) (v : pyval) (x : pynum),
    loc_id data = Some loc ->
    assoc loc EXPECTED_RANGES_PER_LOCATION = Some ranges ->
    (q, (lo, hi)) ∈ ranges ->
    sensor_data data = Some (PDict d) ->
    d !! q = Some v ->
    as_num v = Some x ->
    near_threshold lo hi x ->
    exists d' es ws,
      validate_sensors ranges (PDict d, missing_top_level_keys data, [])
      = Return (PDict d', missing_top_level_keys data ++ es, ws)
      /\ sensor_warning q "_near_threshold" ∈ ws
      /\ (sensor_warning q "_type_converted" ∉ ws)
      /\ (forall e, e ∈ errors_of q -> e ∉ missing_top_level_keys data ++ es)
      /\ match cross_validate (PDict d') (set_sensor_data (PDict d') data) ws with
         | Return warnings =>
             validate_record data
             = Return (overall_status (missing_top_level_keys data ++ es) warnings,
                       missing_top_level_keys data ++ es, warnings,
                       set_sensor_data (PDict d') data)
             /\ sensor_warning q "_near_threshold" ∈ warnings
             /\ (sensor_warning q "_type_converted" ∉ warnings)
             /\ overall_status (missing_top_level_keys data ++ es) warnings <> VALID
             /\ (overall_status (missing_top_level_keys data ++ es) warnings = INVALID ->
                 exists e, e ∈ missing_top_level_keys data ++ es /\ e ∉ errors_of q)
         | Raise e => validate_record data = Raise e
         end
      /\ (weather_data data = None ->
          cross_validate (PDict d') (set_sensor_data (PDict d') data) ws = Return ws).
Proof.
  intros data loc ranges q lo hi d v x Hloc Hranges Hin Hsd Hd Hnum Hnear.
  pose proof (shipped_name _ _ _ _ Hranges Hin) as Hq.
  pose proof (lookup_Some_nonempty _ _ _ Hd) as Hne.
  assert (Hnodup : NoDup (map fst ranges)).
  { rewrite (shipped_names _ _ Hranges). apply sensor_names_nodup. }
  destruct (validate_sensors_near ranges q lo hi d v x (missing_top_level_keys data) []
              (shipped_band_clear _ _ Hranges) Hnodup Hin Hd Hnum Hnear)
    as (d' & es & ws & Hloop & Hnearw & Hes & Hws).
  rewrite app_nil_l in Hloop.
  rewrite (validate_record_unfold _ _ _ _ Hloc Hranges Hsd Hne), Hloop.
  cbn [bind fst snd].
  assert (Hkinds : "_type_converted" ∈ error_kinds ++ warning_kinds
                   /\ "_near_threshold" ∈ error_kinds ++ warning_kinds).
  { unfold error_kinds, warning_kinds. cbn [app]. rewrite !elem_of_cons. tauto. }
  destruct Hkinds as [Hktc Hknt].
  assert (Herrs : forall e, e ∈ errors_of q -> e ∉ missing_top_level_keys data ++ es).
  { intros e (k & Hk & ->)%errors_of_kind [He|He]%elem_of_app.
    - by apply (top_level_not_sensor data _ q k He).
    - destruct (Hes _ He) as (q' & Hq' & Hne' & (k' & Hk' & _ & Heq)%raised_errors_kind).
      rewrite (shipped_names _ _ Hranges) in Hq'.
      destruct (sensor_code_eq _ _ _ _ Hq Hq' Hk Hk' Heq) as [-> _]. done. }
  assert (Hconv : sensor_warning q "_type_converted" ∉ ws).
  { intros Hw. destruct (Hws _ Hw) as [Heq | (q' & Hq' & Hne' & Hw')].
    - apply sensor_warning_inj in Heq.
      destruct (sensor_code_eq _ _ _ _ Hq Hq Hktc Hknt Heq) as [_ ?]. done.
    - apply raised_warnings_kind in Hw' as (k' & Hk' & Heq).
      apply sensor_warning_inj in Heq.
      rewrite (shipped_names _ _ Hranges) in Hq'.
      destruct (sensor_code_eq _ _ _ _ Hq Hq' Hktc Hk' Heq) as [-> _]. done. }
  exists d', es, ws. split_and!; [done | done | done | done | | ].
  - destruct (cross_validate _ _ ws) as [ws'|] eqn:Hcross; [| done].
    assert (Hshape := cross_validate_warnings _ _ _ _ Hcross).
    assert (Hnear' : sensor_warning q "_near_threshold" ∈ ws').
    { destruct Hshape as [-> | (a & b & ->)]; [done |]. apply elem_of_app. by left. }
    split_and!.
    + done.
    + done.
    + destruct Hshape as [-> | (a & b & ->)]; [done |].
      intros [Hw | Hw%list_elem_of_singleton]%elem_of_app; [done |].
      unfold sensor_warning in Hw. discriminate.
    + destruct (missing_top_level_keys data ++ es); [| done].
      destruct ws'; [by apply elem_of_nil in Hnear' | done].
    + intros Hst. apply overall_status_invalid in Hst as [e He].
      exists e. split; [done |]. intros He'. by apply (Herrs e He').
  - apply cross_validate_without_weather.
Qed.

Lemma near_threshold_is_warning_witness :
  exists d' es ws,
    validate_sensors (default [] (assoc "loc_1" EXPECTED_RANGES_PER_LOCATION))
      (PDict (<["temperature" := PInt 9]> healthy_sensors),
       missing_top_level_keys near_threshold_reading, [])
    = Return (PDict d', missing_top_level_keys near_threshold_reading ++ es, ws)
    /\ sensor_warning "temperature" "_near_threshold" ∈ ws
    /\ (sensor_warning "temperature" "_type_converted" ∉ ws)
    /\ (forall e, e ∈ errors_of "temperature" ->
          e ∉ missing_top_level_keys near_threshold_reading ++ es)
    /\ match cross_validate (PDict d') (set_sensor_data (PDict d') near_threshold_reading) ws
       with
       | Return warnings =>
           validate_record near_threshold_reading
           = Return (overall_status (missing_top_level_keys near_threshold_reading ++ es)
                       warnings,
                     missing_top_level_keys near_threshold_reading ++ es, warnings,
                     set_sensor_data (PDict d') near_threshold_reading)
           /\ sensor_warning "temperature" "_near_threshold" ∈ warnings
           /\ (sensor_warning "temperature" "_type_converted" ∉ warnings)
           /\ overall_status (missing_top_level_keys near_threshold_reading ++ es) warnings
              <> VALID
           /\ (overall_status (missing_top_level_keys near_threshold_reading ++ es) warnings
               = INVALID ->
               exists e, e ∈ missing_top_level_keys near_threshold_reading ++ es
                         /\ e ∉ errors_of "temperature")
       | Raise e => validate_record near_threshold_reading = Raise e
       end
    /\ (weather_data near_threshold_reading = None ->
        cross_validate (PDict d') (set_sensor_data (PDict d') near_threshold_reading) ws
        = Return ws).
Proof.
  apply (near_threshold_is_warning near_threshold_reading "loc_1"
           (default [] (assoc "loc_1" EXPECTED_RANGES_PER_LOCATION)) "temperature"
           (NInt 10) (NInt 50) (<["temperature" := PInt 9]> healthy_sensors)
           (PInt 9) (NInt 9)).
  - reflexivity.
  - reflexivity.
  - apply list_elem_of_here.
  - reflexivity.
  - reflexivity.
  - reflexivity.
  - split; [reflexivity |]. exists (lit 60 (-1)), (lit 540 (-1)). split; reflexivity.
Defined.

(** C8 as stated fails where the band of the code and the band of the
    text part. The water level of loc_3 ranges over [0.4, 2.8], so the
    band of the text starts at 0.4 - 0.1 * 2.4 = 0.16. The code computes
    0.4 - (2.8 - 0.4) * 0.1 in binary64 and gets 5764607523034236 * 2^-55,
    one unit in the last place above the float 0.16, whose exact value
    5764607523034235 * 2^-55 is above 0.16. A water level of 0.16 is thus
    within the band of the text, and [validate_record] reports it out of
    range, with status INVALID and no warning. *)
Theorem rounded_band_excludes_claimed_value :
  assoc "water_level" (default [] (assoc "loc_3" EXPECTED_RANGES_PER_LOCATION))
  = Some (lit 4 (-1), lit 28 (-1))
  /\ num_val (lit 16 (-2)) = XFin (5764607523034235 # 36028797018963968)
  /\ claimed_near_threshold (4 # 10) (28 # 10) (5764607523034235 # 36028797018963968) = true
  /\ threshold_band (lit 4 (-1)) (lit 28 (-1))
     = Return (NFloat (S754_finite false 5764607523034236 (-55)), lit 304 (-2))
  /\ in_range (NFloat (S754_finite false 5764607523034236 (-55))) (lit 304 (-2))
       (lit 16 (-2)) = false
  /\ validate_record low_water_reading
     = Return (INVALID, [sensor_error "water_level" "_out_of_range"], [],
               low_water_reading).
Proof. split_and!; vm_compute; reflexivity. Qed.

(** A reading with every quantity in range is VALID, and one without a
    [loc_id] is INVALID with the single error [missing_loc_id]. *)
Example healthy_reading_valid :
  validate_record healthy_reading = Return (VALID, [], [], healthy_reading).
Proof. vm_compute. reflexivity. Qed.

Example anonymous_reading_invalid :
  validate_record anonymous_reading
  = Return (INVALID, ["missing_loc_id"], [], anonymous_reading).
Proof. reflexivity. Qed.

(** An absent quantity is reported as an extreme value. *)
Example missing_nitrogen_is_extreme :
  validate_record missing_nitrogen_reading
  = Return (INVALID, [sensor_error "nitrogen" "_extreme_value"], [],
            missing_nitrogen_reading).
Proof. vm_compute. reflexivity. Qed.

(** The reading of the witness is classified WARNING. *)
Example near_threshold_reading_status :
  exists warnings data',
    validate_record near_threshold_reading = Return (WARNING, [], warnings, data').
Proof. eexists _, _. vm_compute. reflexivity. Qed.

(** A sentinel value, or an absent one, is reported whenever the call
    returns: the status is INVALID, the quantity's [_extreme_value] code
    is among the errors, and no warning is recorded for the quantity.
    The call fails to return only when the cross-check raises. *)
Lemma sentinel_is_flagged data loc ranges q lo hi d :
  loc_id data = Some loc ->
  assoc loc EXPECTED_RANGES_PER_LOCATION = Some ranges ->
  (q, (lo, hi)) ∈ ranges ->
  sensor_data data = Some (PDict d) ->
  d <> ∅ ->
  in_atoms (default PNone (d !! q)) extreme_values = true ->
  (forall st errors warnings data',
      validate_record data = Return (st, errors, warnings, data') ->
      st = INVALID
      /\ sensor_error q "_extreme_value" ∈ errors
      /\ (forall w, w ∈ raised_warnings q -> w ∉ warnings))
  /\ (forall e, validate_record data = Raise e ->
        exists sd ws, cross_validate sd (set_sensor_data sd data) ws = Raise e).
Proof.
  intros Hloc Hranges Hin Hsd Hne Hext.
  pose proof (shipped_name _ _ _ _ Hranges Hin) as Hq.
  assert (Hnodup : NoDup (map fst ranges)).
  { rewrite (shipped_names _ _ Hranges). apply sensor_names_nodup. }
  destruct (validate_sensors_focus ranges q lo hi d [sensor_error q "_extreme_value"] []
              (missing_top_level_keys data) []
              (shipped_band_clear _ _ Hranges) Hnodup Hin)
    as (d' & es & ws & Hloop & Heq & _ & _ & Hws).
  { intros d1 errs1 warns1 Hd1. rewrite app_nil_r.
    apply validate_sensor_extreme. by rewrite Hd1. }
  rewrite app_nil_l in Hloop.
  rewrite (validate_record_unfold _ _ _ _ Hloc Hranges Hsd Hne), Hloop.
  cbn [bind fst snd].
  assert (Hmine : sensor_error q "_extreme_value" ∈ es)
    by apply Heq, list_elem_of_here.
  split.
  - intros st errors warnings data' Hret.
    destruct (cross_validate _ _ ws) as [ws'|] eqn:Hcross; [| discriminate].
    injection Hret as <- <- <- <-.
    assert (Hshape := cross_validate_warnings _ _ _ _ Hcross).
    split_and!.
    + destruct (missing_top_level_keys data ++ es) as [|e0 l] eqn:Hl; [| done].
      apply app_eq_nil in Hl as [_ ->]. by apply elem_of_nil in Hmine.
    + apply elem_of_app. by right.
    + intros w (k & Hk & ->)%raised_warnings_kind Hw.
      assert (Hws' : sensor_warning q k ∈ ws).
      { destruct Hshape as [-> | (a & b & ->)]; [done |].
        apply elem_of_app in Hw as [Hw | Hw%list_elem_of_singleton]; [done |].
        unfold sensor_warning in Hw. discriminate. }
      destruct (Hws _ Hws') as [?%elem_of_nil | (q' & Hq' & Hne' & Hw')]; [done |].
      apply raised_warnings_kind in Hw' as (k' & Hk' & Heq').
      apply sensor_warning_inj in Heq'.
      rewrite (shipped_names _ _ Hranges) in Hq'.
      destruct (sensor_code_eq _ _ _ _ Hq Hq' Hk Hk' Heq') as [-> _]. done.
  - intros e Hraise.
    destruct (cross_validate _ _ ws) as [ws'|] eqn:Hcross; [discriminate |].
    injection Hraise as <-. eauto.
Qed.

(** C1 fails on the cross-check: with the text ["9999"] as the sensor
    temperature and a weather temperature present, the sensor loop
    records the [_extreme_value] error, and then the subtraction of the
    weather temperature from the text raises a TypeError, so
    [validate_record] returns no status at all. *)
Theorem textual_sentinel_raises :
  in_atoms (PStr "9999") extreme_values = true
  /\ validate_record textual_sentinel_reading = Raise TypeError.
Proof. split; vm_compute; reflexivity. Qed.

(** ** The codes [validate_record] can return *)

Lemma validate_sensors_not_dict ranges sd errs warns :
  ranges <> [] ->
  (forall d, sd <> PDict d) ->
  validate_sensors ranges (sd, errs, warns) = Raise AttributeError.
Proof.
  destruct ranges as [|[q [lo hi]] ranges]; [done |]. intros _ Hsd.
  cbn [validate_sensors]. unfold validate_sensor, py_get.
  destruct sd; try reflexivity. by destruct (Hsd d).
Qed.

Lemma validate_record_errors data st errors warnings data' :
  validate_record data = Return (st, errors, warnings, data') ->
  forall e, e ∈ errors -> benign data e.
Proof.
  unfold validate_record.
  destruct (loc_id data) as [loc|] eqn:Hloc.
  2:{ intros [= <- <- <- <-] e ->%list_elem_of_singleton. by left. }
  destruct (String.eqb loc "").
  { intros [= <- <- <- <-] e ->%list_elem_of_singleton. by left. }
  destruct (assoc loc EXPECTED_RANGES_PER_LOCATION) as [ranges|] eqn:Hranges.
  2:{ intros [= <- <- <- <-] e ->%list_elem_of_singleton. right. left. eauto. }
  destruct (negb (truthy _)) eqn:Htruthy.
  { intros [= <- <- <- <-] e [He | ->%list_elem_of_singleton]%elem_of_app.
    - right. right. by left.
    - right. right. right. by left. }
  destruct (default (PDict ∅) (sensor_data data)) as [| | | | | |d] eqn:Hsd.
  1-6: rewrite validate_sensors_not_dict; [discriminate | | done];
       intros ->; by apply shipped_names in Hranges.
  destruct (validate_sensors_frame ranges (shipped_band_clear _ _ Hranges)
              d (missing_top_level_keys data) [])
    as (d' & es & ws & Hloop & _ & Hes & _).
  rewrite Hloop. cbn [bind].
  destruct (cross_validate _ _ _); [| discriminate].
  intros [= <- <- <- <-] e [He|He]%elem_of_app.
  - right. right. by left.
  - destruct (Hes e He) as (q & Hq & Hraised).
    rewrite (shipped_names _ _ Hranges) in Hq.
    right. right. right. right. eauto.
Qed.

Lemma endswith_append p s : endswith s (p +:+ s) = true.
Proof.
  induction p as [|c p IH].
  - change ("" +:+ s) with s. destruct s as [|c s]; [reflexivity |].
    cbn [endswith]. by rewrite (String.eqb_refl (String c s)).
  - change (String c p +:+ s) with (String c (p +:+ s)).
    cbn [endswith]. rewrite IH. apply orb_true_r.
Qed.

Lemma endswith_missing q : endswith "_missing" (sensor_error q "_missing") = true.
Proof. exact (endswith_append ("sensor_data:" +:+ q) "_missing"). Qed.

(** No code the loop appends for a shipped quantity ends in [_missing],
    and none is classified as a disconnected sensor. *)
Lemma raised_errors_shipped :
  Forall (fun q => Forall (fun e =>
      endswith "_missing" e = false /\ classify_error e <> Some "sensor_disconnected")
    (raised_errors q)) sensor_names.
Proof. apply (bool_decide_unpack _). vm_compute. exact I. Qed.

Lemma benign_not_missing data e q :
  benign data e -> e <> sensor_error q "_missing".
Proof.
  intros [-> | [[loc ->] | [He | [-> | (q' & Hq' & He)]]]].
  - unfold sensor_error. cbn. discriminate.
  - unfold sensor_error. cbn. discriminate.
  - exact (top_level_not_sensor data e q _ He).
  - unfold sensor_error. cbn. discriminate.
  - pose proof raised_errors_shipped as H.
    rewrite Forall_forall in H. specialize (H q' Hq').
    rewrite Forall_forall in H. destruct (H e He) as [Hend _].
    intros ->. by rewrite endswith_missing in Hend.
Qed.

Lemma benign_not_disconnected data e :
  benign data e ->
  startswith "sensor_data" e = true ->
  classify_error e <> Some "sensor_disconnected".
Proof.
  intros [-> | [[loc ->] | [He | [-> | (q' & Hq' & He)]]]]; try (cbn; discriminate).
  - unfold missing_top_level_keys in He.
    apply list_elem_of_fmap in He as (kb & -> & _). cbn. discriminate.
  - intros _. pose proof raised_errors_shipped as H.
    rewrite Forall_forall in H. specialize (H q' Hq').
    rewrite Forall_forall in H. by destruct (H e He) as [_ Hc].
Qed.

(** A record whose errors name a sensor has a [loc_id], which the call
    leaves in place. *)
Lemma validate_record_located data st errors warnings data' e :
  validate_record data = Return (st, errors, warnings, data') ->
  e ∈ errors ->
  startswith "sensor_data" e = true ->
  exists loc, loc_id data' = Some loc.
Proof.
  unfold validate_record.
  destruct (loc_id data) as [loc|] eqn:Hloc.
  2:{ intros [= <- <- <- <-] ->%list_elem_of_singleton. cbn. discriminate. }
  destruct (String.eqb loc "").
  { intros [= <- <- <- <-]. eauto. }
  destruct (assoc loc EXPECTED_RANGES_PER_LOCATION) as [ranges|].
  2:{ intros [= <- <- <- <-]. eauto. }
  destruct (negb (truthy _)).
  { intros [= <- <- <- <-]. eauto. }
  destruct (validate_sensors _ _) as [[[sd' errs] ws]|]; cbn [bind]; [| discriminate].
  destruct (cross_validate _ _ _); [| discriminate].
  intros [= <- <- <- <-]. eauto.
Qed.

End ValidatorSpec.

(* ===================================================================== *)
(** * Properties of the alert derivation *)
(* ===================================================================== *)

Module AlertsSpec.
Import Py Validator Alerts Notions Scenarios ValidatorSpec.

Lemma elem_of_error_types t l :
  t ∈ error_types l <-> exists e, e ∈ l /\ classify_error e = Some t.
Proof.
  induction l as [|e l IH]; cbn [error_types foldr].
  - split; [by intros ?%not_elem_of_empty | by intros (e & ?%elem_of_nil & _)].
  - fold (error_types l). destruct (classify_error e) as [t'|] eqn:Hc.
    + rewrite elem_of_union, elem_of_singleton, IH. split.
      * intros [-> | (e' & He' & Hc')].
        -- exists e. split; [apply list_elem_of_here | done].
        -- exists e'. split; [by apply list_elem_of_further | done].
      * intros (e' & [-> | He']%elem_of_cons & Hc'); [left; congruence | right; eauto].
    + rewrite IH. split.
      * intros (e' & He' & Hc'). exists e'. split; [by apply list_elem_of_further | done].
      * intros (e' & [-> | He']%elem_of_cons & Hc'); [congruence | eauto].
Qed.

Lemma classify_error_cases e t :
  classify_error e = Some t ->
  t = "sensor_failure" \/ t = "sensor_disconnected" \/ t = "sensor_malfunction".
Proof.
  unfold classify_error.
  repeat (destruct (contains _ e); [intros [= <-]; tauto |]). discriminate.
Qed.

(** The alerts of a VALID or WARNING record are never sensor failures. *)
Lemma operational_alerts_types loc sd alerts :
  operational_alerts loc sd = Return alerts ->
  forall a, a ∈ alerts -> alert_type a <> "Sensor Failure".
Proof.
  assert (Hrule : forall (r : res (list alert)) (k : list alert -> res (list alert)),
             (forall l, r = Return l -> Forall (fun a => alert_type a <> "Sensor Failure") l) ->
             (forall l, Forall (fun a => alert_type a <> "Sensor Failure") l ->
                forall alerts, k l = Return alerts ->
                  Forall (fun a => alert_type a <> "Sensor Failure") alerts) ->
             forall alerts, bind r k = Return alerts ->
               Forall (fun a => alert_type a <> "Sensor Failure") alerts).
  { intros [l|] k Hr Hk out; cbn [bind]; [| discriminate]. apply Hk. by apply Hr. }
  assert (Htemp : forall l, temperature_alerts loc sd = Return l ->
             Forall (fun a => alert_type a <> "Sensor Failure") l).
  { unfold temperature_alerts. intros l.
    destruct (py_get sd "temperature") as [v|]; cbn [bind]; [| discriminate].
    destruct (as_num v); [| intros [= <-]; constructor].
    destruct (num_gt _ _); [destruct (fixed _ _ _); cbn [bind]; [intros [= <-]; repeat constructor; discriminate | discriminate] |].
    destruct (num_lt _ _); [destruct (fixed _ _ _); cbn [bind]; [intros [= <-]; repeat constructor; discriminate | discriminate] |].
    intros [= <-]; constructor. }
  assert (Hwater : forall l, water_level_alerts loc sd = Return l ->
             Forall (fun a => alert_type a <> "Sensor Failure") l).
  { unfold water_level_alerts. intros l.
    destruct (py_get sd "water_level") as [v|]; cbn [bind]; [| discriminate].
    destruct (as_num v); [| intros [= <-]; constructor].
    destruct (num_lt _ _); [destruct (fixed _ _ _); cbn [bind]; [intros [= <-]; repeat constructor; discriminate | discriminate] |].
    destruct (num_gt _ _); [destruct (fixed _ _ _); cbn [bind]; [intros [= <-]; repeat constructor; discriminate | discriminate] |].
    intros [= <-]; constructor. }
  assert (Hph : forall l, ph_alerts loc sd = Return l ->
             Forall (fun a => alert_type a <> "Sensor Failure") l).
  { unfold ph_alerts. intros l.
    destruct (py_get sd "ph") as [v|]; cbn [bind]; [| discriminate].
    destruct (as_num v); [| intros [= <-]; constructor].
    destruct (_ || _); [| intros [= <-]; constructor].
    destruct (fixed _ _ _); cbn [bind]; [intros [= <-]; repeat constructor; discriminate | discriminate]. }
  assert (Hnut : forall nutrient l, nutrient_alerts loc sd nutrient = Return l ->
             Forall (fun a => alert_type a <> "Sensor Failure") l).
  { unfold nutrient_alerts. intros nutrient l.
    destruct (py_get sd nutrient) as [v|]; cbn [bind]; [| discriminate].
    destruct (as_num v); [| intros [= <-]; constructor].
    destruct (lookup_or_raise loc _) as [ranges|]; cbn [bind]; [| discriminate].
    destruct (lookup_or_raise nutrient ranges) as [bounds|]; cbn [bind]; [| discriminate].
    destruct (num_mul _ _) as [floor|]; cbn [bind]; [| discriminate].
    destruct (num_lt _ _); [| intros [= <-]; constructor].
    destruct (fixed _ _ _); cbn [bind]; [intros [= <-]; repeat constructor; discriminate | discriminate]. }
  intros Hop. apply Forall_forall. revert alerts Hop. unfold operational_alerts.
  apply Hrule; [exact Htemp |]. intros t Ht.
  apply Hrule; [exact Hwater |]. intros w Hw.
  apply Hrule; [exact Hph |]. intros p Hp.
  apply Hrule; [apply Hnut |]. intros n Hn.
  apply Hrule; [apply Hnut |]. intros ph Hph'.
  apply Hrule; [apply Hnut |]. intros k Hk.
  intros out [= <-]. repeat (apply Forall_app; split); done.
Qed.

(** The healthy reading, at 38.0 degrees, gives one High Temperature
    alert of priority HIGH. *)
Example healthy_reading_alerts :
  (fun alerts => map (fun a => (alert_type a, alert_priority a)) alerts)
    <$> match handle_alerts healthy_reading VALID [] with
        | Return alerts => Some alerts
        | Raise _ => None
        end
  = Some [("High Temperature", "HIGH")].
Proof. vm_compute. reflexivity. Qed.

(** C10. Whatever the reading, a list of errors returned by
    [validate_record] holds no [sensor_data:<quantity>_missing] code, for
    any quantity; so the errors [handle_alerts] receives from it are never
    classified [sensor_disconnected], and every sensor-failure alert it
    derives carries [sensor_failure] or [sensor_malfunction]. *)
Theorem missing_is_never_reported :
  forall (data : reading) (st : status) (errors : list string)
         (warnings : list fstring) (data' : reading),
    validate_record data = Return (st, errors, warnings, data') ->
    (forall q, sensor_error q "_missing" ∉ errors)
    /\ ("sensor_disconnected" ∉ error_types (filter (startswith "sensor_data") errors))
    /\ (forall alerts a,
          handle_alerts data' st errors = Return alerts ->
          a ∈ alerts ->
          alert_type a = "Sensor Failure" ->
          exists t, t ∈ ["sensor_failure"; "sensor_malfunction"]
                    /\ a = sensor_failure_alert (default "unknown" (loc_id data')) t).
Proof.
  intros data st errors warnings data' Hret.
  pose proof (validate_record_errors _ _ _ _ _ Hret) as Hbenign.
  assert (Hnd : "sensor_disconnected" ∉ error_types (filter (startswith "sensor_data") errors)).
  { intros (e & He & Hc)%elem_of_error_types.
    apply list_elem_of_filter in He as [Hstart He].
    apply (benign_not_disconnected data e); [by apply Hbenign | | done].
    by destruct (startswith "sensor_data" e). }
  split_and!.
  - intros q Hq. by apply (benign_not_missing data _ q (Hbenign _ Hq)).
  - exact Hnd.
  - intros alerts a Halerts Ha Htype. unfold handle_alerts in Halerts.
    destruct st.
    + by destruct (operational_alerts_types _ _ _ Halerts a Ha).
    + by destruct (operational_alerts_types _ _ _ Halerts a Ha).
    + injection Halerts as <-. unfold invalid_alerts in Ha.
      destruct (filter (startswith "sensor_data") errors) as [|e0 l] eqn:Hf;
        [by apply elem_of_nil in Ha |].
      apply list_elem_of_fmap in Ha as (t & -> & Ht).
      apply elem_of_elements in Ht. exists t.
      assert (Ht' := Ht). rewrite <- Hf in Ht'.
      apply elem_of_error_types in Ht' as (e & He & Hc).
      apply list_elem_of_filter in He as [Hstart He].
      destruct (validate_record_located _ _ _ _ _ e Hret He) as [loc Hloc];
        [by destruct (startswith "sensor_data" e) |].
      split; [| unfold loc_text; by rewrite Hloc].
      destruct (classify_error_cases _ _ Hc) as [-> | [-> | ->]].
      * apply list_elem_of_here.
      * done.
      * apply list_elem_of_further, list_elem_of_here.
Qed.

Lemma missing_is_never_reported_witness :
  (forall q, sensor_error q "_missing"
             ∉ [sensor_error "nitrogen" "_extreme_value"])
  /\ ("sensor_disconnected"
      ∉ error_types (filter (startswith "sensor_data")
                       [sensor_error "nitrogen" "_extreme_value"]))
  /\ (forall alerts a,
        handle_alerts missing_nitrogen_reading INVALID
          [sensor_error "nitrogen" "_extreme_value"] = Return alerts ->
        a ∈ alerts ->
        alert_type a = "Sensor Failure" ->
        exists t, t ∈ ["sensor_failure"; "sensor_malfunction"]
                  /\ a = sensor_failure_alert
                           (default "unknown" (loc_id missing_nitrogen_reading)) t).
Proof.
  apply (missing_is_never_reported missing_nitrogen_reading INVALID
           [sensor_error "nitrogen" "_extreme_value"] [] missing_nitrogen_reading).
  vm_compute. reflexivity.
Defined.

End AlertsSpec.

(* ===================================================================== *)
(** * Properties of the batch handler *)
(* ===================================================================== *)

Module HandlerSpec.
Import Py Validator Alerts Throttle Handler Notions Scenarios.

Lemma check_and_send_alert_sns a loc e ts now w :
  sns (check_and_send_alert a loc e ts now w).2
  = sns w ++ (if (check_and_send_alert a loc e ts now w).1
              then [ {| note_alert := a; note_loc_id := loc;
                        note_event_id := e; note_timestamp := ts |} ]
              else []).
Proof.
  unfold check_and_send_alert.
  destruct (String.eqb _ _); [reflexivity |].
  destruct (match last_sent (state w) !! alert_key loc a with
            | Some last => now - last <? ALERT_INTERVAL
            | None => false
            end); cbn [fst snd]; [by rewrite app_nil_r |].
  destruct (CONSECUTIVE_RECORDS_THRESHOLD <=? _); cbn [fst snd]; [reflexivity |].
  by rewrite app_nil_r.
Qed.

(** The loop over the alerts of a record calls [publish] at most once
    for each of them; when it runs to its end, the alerts it recorded
    are those of its calls; it breaks off only on a record that cannot
    take the entry, and only after a call. *)
Lemma process_alerts_log clock loc e ts appendable alerts :
  forall tick w sent,
    exists notes,
      sns (process_alerts clock loc e ts appendable alerts tick w sent).1.2 = sns w ++ notes
      /\ (length notes <= length alerts)%nat
      /\ Forall (fun n => note_loc_id n = loc /\ note_event_id n = e
                          /\ note_timestamp n = ts) notes
      /\ match (process_alerts clock loc e ts appendable alerts tick w sent).2 with
         | Some out => out = sent ++ map note_alert notes
         | None => appendable = false /\ notes <> []
         end.
Proof.
  induction alerts as [|a alerts IH]; intros tick w sent; cbn [process_alerts].
  - exists []. rewrite !app_nil_r. cbn. split_and!; [done | lia | constructor | done].
  - pose proof (check_and_send_alert_sns a loc e ts (clock tick) w) as Hsns.
    destruct (check_and_send_alert a loc e ts (clock tick) w) as [alert_sent w'].
    cbn [fst snd] in Hsns. destruct alert_sent.
    + destruct appendable.
      * destruct (IH (S tick) w' (sent ++ [a])) as (notes & Hs & Hlen & Hall & Hout).
        exists ({| note_alert := a; note_loc_id := loc; note_event_id := e;
                   note_timestamp := ts |} :: notes).
        rewrite Hs, Hsns, <- app_assoc. cbn [app length].
        split_and!; [done | lia | by constructor |].
        destruct (process_alerts _ _ _ _ _ _ _ _ _).2 as [out|].
        -- rewrite Hout, <- app_assoc. done.
        -- by destruct Hout.
      * exists [ {| note_alert := a; note_loc_id := loc; note_event_id := e;
                    note_timestamp := ts |} ].
        cbn [fst snd length]. rewrite Hsns.
        split_and!; [done | lia | by repeat constructor | done | done].
    + destruct (IH (S tick) w' sent) as (notes & Hs & Hlen & Hall & Hout).
      exists notes. rewrite Hs, Hsns, app_nil_r. cbn [length].
      split_and!; [done | lia | done | done].
Qed.

(** [validate_record] leaves the [alerts_sent] of the payload alone. *)
Lemma validate_record_can_record data st errors warnings data' :
  validate_record data = Return (st, errors, warnings, data') ->
  can_record data' = can_record data.
Proof.
  unfold validate_record.
  destruct (loc_id data) as [loc|]; [| by intros [= <- <- <- <-]].
  destruct (String.eqb loc ""); [by intros [= <- <- <- <-] |].
  destruct (assoc loc EXPECTED_RANGES_PER_LOCATION) as [ranges|];
    [| by intros [= <- <- <- <-]].
  destruct (negb (truthy _)); [by intros [= <- <- <- <-] |].
  destruct (validate_sensors _ _) as [[[sd' errs] ws]|]; cbn [bind]; [| discriminate].
  destruct (cross_validate _ _ _); [| discriminate].
  by intros [= <- <- <- <-].
Qed.

Lemma process_record_counts clock p b :
  alert_count (process_record clock p b) = (alert_count b + candidate_alerts p)%nat
  /\ exists notes extra,
       sns (the_world (process_record clock p b)) = sns (the_world b) ++ notes
       /\ recorded (process_record clock p b) = recorded b ++ extra
       /\ extra `sublist_of` map note_alert notes
       /\ (recordable p = true -> extra = map note_alert notes)
       /\ (length notes <= candidate_alerts p)%nat.
Proof.
  assert (Hfail : alert_count (record_failed b) = (alert_count b + 0)%nat
                  /\ exists notes extra,
                       sns (the_world (record_failed b)) = sns (the_world b) ++ notes
                       /\ recorded (record_failed b) = recorded b ++ extra
                       /\ extra `sublist_of` map note_alert notes
                       /\ (recordable p = true -> extra = map note_alert notes)
                       /\ (length notes <= 0)%nat).
  { cbn. split; [lia |]. exists [], []. rewrite !app_nil_r. cbn.
    split_and!; [done | done | done | done | lia]. }
  unfold process_record, candidate_alerts. destruct p as [|data]; [exact Hfail |].
  destruct (validate_record data) as [[[[st errors] warnings] data']|] eqn:Hret;
    [| exact Hfail].
  destruct (handle_alerts data' st errors) as [alerts|]; [| exact Hfail].
  destruct (process_alerts_log clock (loc_text data')
              (default (PStr "unknown") (event_id data')) (timestamp data')
              (can_record data') alerts (ticks b) (the_world b) [])
    as (notes & Hsns & Hlen & _ & Hout).
  destruct (process_alerts _ _ _ _ _ _ _ _ _) as [[tick w] outcome].
  cbn [fst snd] in *. destruct outcome as [sent|]; cbn.
  - split; [done |]. exists notes, sent. rewrite app_nil_l in Hout. subst sent.
    split_and!; done.
  - split; [done |]. exists notes, []. rewrite app_nil_r. destruct Hout as [Hcan _].
    split_and!; [done | done | apply sublist_nil_l | | done].
    rewrite <- (validate_record_can_record _ _ _ _ _ Hret), Hcan. discriminate.
Qed.

Lemma process_records_counts clock records :
  forall b,
    alert_count (fold_left (fun b p => process_record clock p b) records b)
    = (alert_count b + sum_list_with candidate_alerts records)%nat
    /\ exists notes extra,
         sns (the_world (fold_left (fun b p => process_record clock p b) records b))
         = sns (the_world b) ++ notes
         /\ recorded (fold_left (fun b p => process_record clock p b) records b)
            = recorded b ++ extra
         /\ extra `sublist_of` map note_alert notes
         /\ (forallb recordable records = true -> extra = map note_alert notes)
         /\ (length notes <= sum_list_with candidate_alerts records)%nat.
Proof.
  induction records as [|p records IH]; intros b; cbn [fold_left sum_list_with forallb].
  - split; [lia |]. exists [], []. rewrite !app_nil_r. cbn.
    split_and!; [done | done | done | done | lia].
  - destruct (IH (process_record clock p b))
      as (Hcount & n2 & x2 & Hsns2 & Hrec2 & Hsub2 & Hall2 & Hlen2).
    destruct (process_record_counts clock p b)
      as (Hcount1 & n1 & x1 & Hsns1 & Hrec1 & Hsub1 & Hall1 & Hlen1).
    rewrite Hcount, Hcount1, Hsns2, Hsns1, Hrec2, Hrec1.
    split; [lia |]. exists (n1 ++ n2), (x1 ++ x2).
    rewrite length_app, map_app, !app_assoc.
    split_and!; [done | done | by apply sublist_app | | lia].
    intros [Hp Hrest]%andb_prop. by rewrite Hall1, Hall2.
Qed.

(** C9, as the code has it. The [total_alerts_generated] field of the
    summary is the number of candidate alerts [handle_alerts] derived for
    the records of the batch on which [validate_record] and
    [handle_alerts] returned, counted before throttling, and whether or
    not the record then failed while its alerts were sent; the calls of
    [publish] the batch makes are at most that many, and the alerts it
    records as sent at most as many as the calls. *)
Theorem summary_counts_candidates :
  forall (records : list payload) (purge : option Z) (clock : nat -> Z) (w : world),
    total_alerts_generated (lambda_handler records purge clock w).1.1
    = sum_list_with candidate_alerts records
    /\ exists notes,
         sns (lambda_handler records purge clock w).1.2 = sns w ++ notes
         /\ (length notes
             <= total_alerts_generated (lambda_handler records purge clock w).1.1)%nat
         /\ (length (lambda_handler records purge clock w).2 <= length notes)%nat.
Proof.
  intros records purge clock w. unfold lambda_handler. cbn [fst snd total_alerts_generated].
  set (w0 := match purge with
             | Some current_time =>
                 {| state := cleanup current_time (state w); sns := sns w |}
             | None => w
             end).
  assert (Hw0 : sns w0 = sns w) by (subst w0; by destruct purge).
  destruct (process_records_counts clock records
              {| processed_count := 0; error_count := 0; alert_count := 0;
                 ticks := 0; the_world := w0; recorded := [] |})
    as (Hcount & notes & extra & Hsns & Hrec & Hsub & _ & Hlen).
  cbn [alert_count recorded the_world] in *.
  rewrite Hcount, Hsns, Hrec, Hw0. cbn [app].
  split; [lia |]. exists notes. split_and!; [done | lia |].
  apply sublist_length in Hsub. by rewrite length_map in Hsub.
Qed.

(** C9 as stated fails: of the two High Temperature candidates of a
    batch of two healthy readings, one second apart, the second is
    throttled; the summary reports 2 while 1 alert was sent. *)
Lemma summary_counts_throttled_alerts :
  total_alerts_generated
    (lambda_handler twice_healthy None one_second_clock empty_world).1.1 = 2%nat
  /\ length (lambda_handler twice_healthy None one_second_clock empty_world).2 = 1%nat
  /\ length (sns (lambda_handler twice_healthy None one_second_clock empty_world).1.2)
     = 1%nat.
Proof. split_and!; vm_compute; reflexivity. Qed.

(** A record whose [alerts_sent] is no list fails when its first sent
    alert is recorded: it is counted in [error_records], and yet its
    alert is counted in [total_alerts_generated] and was handed to SNS. *)
Example unrecordable_reading_fails :
  (lambda_handler [Decoded unrecordable_reading] None one_second_clock empty_world).1.1
  = {| processed_records := 0; error_records := 1; total_alerts_generated := 1 |}
  /\ length (sns (lambda_handler [Decoded unrecordable_reading] None one_second_clock
                    empty_world).1.2) = 1%nat
  /\ (lambda_handler [Decoded unrecordable_reading] None one_second_clock empty_world).2
     = [].
Proof. split_and!; vm_compute; reflexivity. Qed.

End HandlerSpec.

(* ===================================================================== *)
(** * Properties of the warehouse load *)
(* ===================================================================== *)

Module WarehouseSpec.
Import Warehouse Notions WarehouseScenarios.

(** ** What a cycle does to each table *)

(** Each statement reads the new rows and its own table only, so what
    one statement does is independent of whether the others raised. *)
Lemma run_cycle_tables fails db :
  let nv := new_data (last_ts (fails Watermark) db) db in
  valid_readings (run_cycle fails db) = valid_readings db
  /\ dim_location (run_cycle fails db)
     = (if takes_effect fails DimLocation nv
        then insert_into (dim_location db) (new_locations nv (dim_location db))
        else dim_location db)
  /\ dim_time (run_cycle fails db)
     = (if takes_effect fails DimTime nv
        then insert_into (dim_time db) (new_times nv (dim_time db))
        else dim_time db)
  /\ dim_soil (run_cycle fails db)
     = (if takes_effect fails DimSoil nv
        then insert_into (dim_soil db) (new_soils nv (dim_soil db))
        else dim_soil db)
  /\ dim_weather (run_cycle fails db)
     = (if takes_effect fails DimWeather nv
        then insert_into (dim_weather db) (new_weathers nv (dim_weather db))
        else dim_weather db)
  /\ fact_sensor_readings (run_cycle fails db)
     = (if takes_effect fails FactInsert nv
        then fact_sensor_readings db
             ++ new_facts nv
                  {| valid_readings := valid_readings db;
                     dim_location := dim_location (run_cycle fails db);
                     dim_time := dim_time (run_cycle fails db);
                     dim_soil := dim_soil (run_cycle fails db);
                     dim_weather := dim_weather (run_cycle fails db);
                     fact_sensor_readings := fact_sensor_readings db |}
        else fact_sensor_readings db).
Proof.
  intros nv. unfold run_cycle. fold nv. unfold takes_effect, execute_sql_query.
  destruct nv as [|v nv']; [done |].
  destruct (fails DimLocation), (fails DimTime), (fails DimSoil), (fails DimWeather),
    (fails FactInsert); cbn; split_and!; reflexivity.
Qed.

(** ** The watermark *)

Lemma sql_max_lt col t :
  (forall m, sql_max col = Some m -> m < t) <-> (forall d, Some d ∈ col -> d < t).
Proof.
  induction col as [|c col IH]; cbn [sql_max foldr].
  - split; [by intros _ d ?%elem_of_nil | by intros _ m ?].
  - fold (sql_max col). destruct c as [x|].
    + destruct (sql_max col) as [y|] eqn:Hmax.
      * split.
        -- intros H d [[= ->] | Hd]%elem_of_cons.
           ++ specialize (H _ eq_refl). lia.
           ++ apply (proj1 IH); [| done].
              intros m [= <-]. specialize (H _ eq_refl). lia.
        -- intros H m [= <-].
           assert (x < t) by (apply H, list_elem_of_here).
           assert (y < t).
           { apply (proj2 IH); [| done]. intros d Hd. by apply H, list_elem_of_further. }
           lia.
      * split.
        -- intros H d [[= ->] | Hd]%elem_of_cons; [by apply H |].
           apply (proj1 IH); [| done]. by intros m ?.
        -- intros H m [= <-]. apply H, list_elem_of_here.
    + rewrite IH. split.
      * intros H d [? | Hd]%elem_of_cons; [done | by apply H].
      * intros H d Hd. by apply H, list_elem_of_further.
Qed.

Lemma sql_max_none col :
  sql_max col = None <-> (forall c, c ∈ col -> c = None).
Proof.
  induction col as [|c col IH]; cbn [sql_max foldr].
  - split; [by intros _ c ?%elem_of_nil | done].
  - fold (sql_max col). destruct c as [x|].
    + split.
      * by destruct (sql_max col).
      * intros H. by specialize (H (Some x) (list_elem_of_here _ _)).
    + rewrite IH. split.
      * intros H c [-> | Hc]%elem_of_cons; [done | by apply H].
      * intros H c Hc. by apply H, list_elem_of_further.
Qed.

(** A source row is extracted exactly when its timestamp lies above the
    [full_date] of every fact row, and above the epoch when no fact row
    has a date. *)
Lemma extracted_iff db v t :
  v ∈ valid_readings db ->
  timestamp v = Some t ->
  v ∈ new_data (last_ts false db) db
  <-> (forall f d, f ∈ fact_sensor_readings db -> full_date f = Some d -> d < t)
      /\ ((forall f, f ∈ fact_sensor_readings db -> full_date f = None) -> epoch < t).
Proof.
  intros Hv Ht. unfold new_data, last_ts.
  rewrite list_elem_of_filter, Ht. unfold holds, sql_gt.
  set (col := map full_date (fact_sensor_readings db)).
  assert (Hcol : forall c, c ∈ col <-> exists f, f ∈ fact_sensor_readings db /\ full_date f = c).
  { intros c. subst col. rewrite list_elem_of_fmap. split; intros (f & ? & ?); eauto. }
  pose proof (sql_max_lt col t) as Hlt. pose proof (sql_max_none col) as Hnone.
  split.
  - intros [Hgt _]. apply bool_decide_eq_true in Hgt. injection Hgt as Hgt.
    apply Z.ltb_lt in Hgt. split.
    + intros f d Hf Hd. apply (proj1 Hlt).
      * intros m Hm. by rewrite Hm in Hgt.
      * apply Hcol. eauto.
    + intros Hall. assert (Hm : sql_max col = None).
      { apply Hnone. intros c (f & Hf & <-)%Hcol. by apply Hall. }
      by rewrite Hm in Hgt.
  - intros [Hfacts Hepoch]. split; [| done].
    apply bool_decide_eq_true. f_equal. apply Z.ltb_lt.
    destruct (sql_max col) as [m|] eqn:Hm; cbn.
    + apply (proj2 Hlt); [| done]. intros d (f & Hf & Hd)%Hcol. eauto.
    + apply Hepoch. intros f Hf. apply (proj1 Hnone eq_refl). apply Hcol. eauto.
Qed.

(** A fact row written by the fact INSERT carries the event id and the
    timestamp of one of the new rows. *)
Lemma new_facts_origin nv db f :
  f ∈ new_facts nv db ->
  exists v, v ∈ nv /\ evt_id f = event_id v /\ full_date f = timestamp v.
Proof.
  unfold new_facts.
  intros (v & Hf & Hv)%list_elem_of_bind.
  apply list_elem_of_bind in Hf as (l & Hf & _).
  apply list_elem_of_bind in Hf as (w & Hf & _).
  apply list_elem_of_bind in Hf as (s & Hf & _).
  apply list_elem_of_bind in Hf as (t & Hf & Ht).
  apply list_elem_of_singleton in Hf as ->. cbn.
  exists v. split_and!; [done | done |].
  unfold joined in Ht. apply list_elem_of_filter in Ht as [Hon _].
  unfold holds, time_matches, sql_eq in Hon. apply bool_decide_eq_true in Hon.
  destruct (timestamp v) as [x|], (t_full_date t.2) as [y|]; try discriminate.
  injection Hon as Hon. apply bool_decide_eq_true in Hon. by subst.
Qed.

(** C5, as the code has it. After a cycle, a source row is extracted
    again by the next cycle exactly when its timestamp is above the
    [full_date] of every fact row (and above the epoch when there is
    none): the watermark is MAX(full_date) over the fact table. Every fact
    row a cycle adds carries the timestamp of some row of its extraction,
    so the watermark moves past a row's timestamp as soon as any row at
    least as late is inserted, whether or not the row itself was. *)
Theorem retry_depends_on_watermark :
  forall (fails : step -> bool) (db : warehouse) (v : valid_reading) (t : instant),
    v ∈ valid_readings db ->
    timestamp v = Some t ->
    (v ∈ new_data (last_ts false (run_cycle fails db)) (run_cycle fails db)
     <-> (forall f d, f ∈ fact_sensor_readings (run_cycle fails db) ->
                      full_date f = Some d -> d < t)
         /\ ((forall f, f ∈ fact_sensor_readings (run_cycle fails db) -> full_date f = None)
             -> epoch < t))
    /\ (forall f, f ∈ fact_sensor_readings (run_cycle fails db) ->
          f ∈ fact_sensor_readings db
          \/ exists v', v' ∈ new_data (last_ts (fails Watermark) db) db
                        /\ evt_id f = event_id v' /\ full_date f = timestamp v').
Proof.
  intros fails db v t Hv Ht.
  destruct (run_cycle_tables fails db) as (Hsrc & _ & _ & _ & _ & Hfacts).
  split.
  - apply extracted_iff; [by rewrite Hsrc | done].
  - intros f Hf. rewrite Hfacts in Hf.
    destruct (takes_effect fails FactInsert _); [| by left].
    apply elem_of_app in Hf as [Hf | Hf]; [by left | right].
    by apply new_facts_origin in Hf.
Qed.

Lemma retry_depends_on_watermark_witness :
  (source_row "evt-2" 100 7 31 None
     ∈ new_data (last_ts false (run_cycle no_failure late_and_early))
         (run_cycle no_failure late_and_early)
   <-> (forall f d, f ∈ fact_sensor_readings (run_cycle no_failure late_and_early) ->
                    full_date f = Some d -> d < 100)
       /\ ((forall f, f ∈ fact_sensor_readings (run_cycle no_failure late_and_early) ->
                      full_date f = None)
           -> epoch < 100))
  /\ (forall f, f ∈ fact_sensor_readings (run_cycle no_failure late_and_early) ->
        f ∈ fact_sensor_readings late_and_early
        \/ exists v', v' ∈ new_data (last_ts (no_failure Watermark) late_and_early)
                             late_and_early
                      /\ evt_id f = event_id v' /\ full_date f = timestamp v').
Proof.
  apply (retry_depends_on_watermark no_failure late_and_early
           (source_row "evt-2" 100 7 31 None) 100).
  - apply list_elem_of_further, list_elem_of_here.
  - reflexivity.
Defined.

(** C5 as stated fails: the row at instant 100 does not join (its rain is
    NULL) and is left out, the row at instant 200 is inserted, and the
    watermark is then 200: the next cycle extracts nothing, although the
    row at instant 100 was never inserted. *)
Lemma watermark_passes_excluded_row :
  map evt_id (fact_sensor_readings (run_cycle no_failure late_and_early))
  = [Some "evt-1"]
  /\ last_ts false (run_cycle no_failure late_and_early) = 200
  /\ new_data (last_ts false (run_cycle no_failure late_and_early))
       (run_cycle no_failure late_and_early) = [].
Proof. split_and!; vm_compute; reflexivity. Qed.

(** ** Failing statements *)

(** C4, as the code has it. A statement that raises is caught by
    [execute_sql_query] and changes nothing, and the cycle goes on: every
    other statement takes effect as usual, the fact INSERT included, which
    joins the new rows against the dimensions as they then stand. Only
    when the fact INSERT itself raises does the fact table, and with it
    the watermark of the next cycle, stay as it was. *)
Theorem failed_statement_is_skipped :
  forall (fails : step -> bool) (db : warehouse),
    dim_location (run_cycle fails db)
    = (if takes_effect fails DimLocation (extraction fails db)
       then insert_into (dim_location db)
              (new_locations (extraction fails db) (dim_location db))
       else dim_location db)
    /\ dim_time (run_cycle fails db)
       = (if takes_effect fails DimTime (extraction fails db)
          then insert_into (dim_time db) (new_times (extraction fails db) (dim_time db))
          else dim_time db)
    /\ dim_soil (run_cycle fails db)
       = (if takes_effect fails DimSoil (extraction fails db)
          then insert_into (dim_soil db) (new_soils (extraction fails db) (dim_soil db))
          else dim_soil db)
    /\ dim_weather (run_cycle fails db)
       = (if takes_effect fails DimWeather (extraction fails db)
          then insert_into (dim_weather db)
                 (new_weathers (extraction fails db) (dim_weather db))
          else dim_weather db)
    /\ fact_sensor_readings (run_cycle fails db)
       = (if takes_effect fails FactInsert (extraction fails db)
          then fact_sensor_readings db
               ++ new_facts (extraction fails db)
                    {| valid_readings := valid_readings db;
                       dim_location := dim_location (run_cycle fails db);
                       dim_time := dim_time (run_cycle fails db);
                       dim_soil := dim_soil (run_cycle fails db);
                       dim_weather := dim_weather (run_cycle fails db);
                       fact_sensor_readings := fact_sensor_readings db |}
          else fact_sensor_readings db)
    /\ (fails FactInsert = true ->
        fact_sensor_readings (run_cycle fails db) = fact_sensor_readings db
        /\ last_ts false (run_cycle fails db) = last_ts false db).
Proof.
  intros fails db.
  destruct (run_cycle_tables fails db) as (_ & Hl & Ht & Hs & Hw & Hf).
  fold (extraction fails db) in Hl, Ht, Hs, Hw, Hf.
  split_and!; try done.
  intros Hfail.
  assert (Hsame : fact_sensor_readings (run_cycle fails db) = fact_sensor_readings db).
  { rewrite Hf. unfold takes_effect. rewrite Hfail.
    by destruct (extraction fails db). }
  split; [done |]. unfold last_ts. by rewrite Hsame.
Qed.

(** C4 as stated fails: the [dim_weather] statement raises, and the fact
    INSERT still runs. Of the two rows that arrived, the one at instant
    300 is inserted and the one at instant 200, whose weather row is
    missing, is not; the watermark moves from 100 to 300, and the next
    cycle extracts nothing. *)
Lemma cycle_goes_on_after_failure :
  last_ts false two_arrivals = 100
  /\ length (dim_weather (run_cycle weather_fails two_arrivals)) = 1%nat
  /\ map evt_id (fact_sensor_readings (run_cycle weather_fails two_arrivals))
     = [Some "evt-1"; Some "evt-2"]
  /\ last_ts false (run_cycle weather_fails two_arrivals) = 300
  /\ extraction no_failure (run_cycle weather_fails two_arrivals) = [].
Proof. split_and!; vm_compute; reflexivity. Qed.

(** ** Running the cycle twice *)

(** C2 fails on [dim_weather]: a source row with a NULL rain never joins,
    so the watermark stays below it and the second run extracts it
    again; its weather tuple, which equals no row under SQL equality
    because of the NULL, is inserted a second time. No source row was
    added between the two runs. *)
Theorem second_run_inserts_weather_row :
  valid_readings (run_cycle no_failure (run_cycle no_failure null_rain_source))
  = valid_readings null_rain_source
  /\ length (dim_weather (run_cycle no_failure null_rain_source)) = 1%nat
  /\ length (dim_weather (run_cycle no_failure (run_cycle no_failure null_rain_source)))
     = 2%nat
  /\ map snd (dim_weather (run_cycle no_failure (run_cycle no_failure null_rain_source)))
     = [weather_of (source_row "evt-1" 100 7 30 None);
        weather_of (source_row "evt-1" 100 7 30 None)].
Proof. split_and!; vm_compute; reflexivity. Qed.

(** ** The dimension upserts *)

Lemma select_distinct_spec {T : Type} `{EqDecision T} (cols : valid_reading -> T)
    (cond : valid_reading -> option bool) (P : T -> Prop) `{forall x, Decision (P x)} nv :
  (forall v, holds (cond v) = true <-> P (cols v)) ->
  select_distinct cols cond nv = remove_dups (filter P (map cols nv)).
Proof.
  intros Hcond. unfold select_distinct. f_equal.
  induction nv as [|v nv IH]; [done |].
  cbn [map]. rewrite !filter_cons.
  destruct (decide (holds (cond v) = true)) as [Hv | Hv];
    destruct (decide (P (cols v))) as [Hp | Hp].
  - cbn [map]. by rewrite IH.
  - by apply Hcond in Hv.
  - by apply Hcond in Hp.
  - exact IH.
Qed.

Lemma select_distinct_elem {T : Type} `{EqDecision T} (cols : valid_reading -> T) cond nv r :
  r ∈ select_distinct cols cond nv <->
  exists v, v ∈ nv /\ holds (cond v) = true /\ r = cols v.
Proof.
  unfold select_distinct. rewrite elem_of_remove_dups, list_elem_of_fmap.
  split.
  - intros (v & -> & [Hc Hv]%list_elem_of_filter). eauto.
  - intros (v & Hv & Hc & ->). exists v. split; [done |]. by apply list_elem_of_filter.
Qed.

Lemma select_distinct_nodup {T : Type} `{EqDecision T} (cols : valid_reading -> T) cond nv :
  NoDup (select_distinct cols cond nv).
Proof. apply NoDup_remove_dups. Qed.

Lemma snd_number_from {T : Type} k (rows : list T) : map snd (number_from k rows) = rows.
Proof.
  revert k. induction rows as [|r rows IH]; intros k; cbn; [done |]. by rewrite IH.
Qed.

Lemma snd_insert_into {T : Type} (t : dim T) rows :
  map snd (insert_into t rows) = map snd t ++ rows.
Proof. unfold insert_into. by rewrite map_app, snd_number_from. Qed.

Lemma insert_into_nodup {T : Type} (t : dim T) rows :
  NoDup (map snd t) -> NoDup rows -> (forall r, r ∈ rows -> r ∉ map snd t) ->
  NoDup (map snd (insert_into t rows)).
Proof.
  intros Ht Hrows Hnew. rewrite snd_insert_into. apply NoDup_app.
  split_and!; [done | | done]. intros r Hr Hr'. by apply (Hnew r Hr').
Qed.

(** *** SQL conditions, read as plain propositions *)

Lemma holds_and p q : holds (sql_and p q) = true <-> holds p = true /\ holds q = true.
Proof.
  unfold holds. rewrite !bool_decide_eq_true.
  destruct p as [[]|], q as [[]|]; cbn; split; intros; try done;
    destruct_and?; done.
Qed.

Lemma holds_is_not_null {A : Type} (a : option A) :
  holds (is_not_null a) = true <-> is_Some a.
Proof.
  unfold holds, is_not_null. rewrite bool_decide_eq_true. split.
  - intros [= H]. by apply bool_decide_eq_true in H.
  - intros H. f_equal. by apply bool_decide_eq_true.
Qed.

Lemma holds_eq {A : Type} `{EqDecision A} (a b : option A) :
  holds (sql_eq a b) = true <-> is_Some a /\ a = b.
Proof.
  unfold holds, sql_eq. rewrite bool_decide_eq_true.
  destruct a as [x|], b as [y|]; split; try (intros [[? [=]] ?]; done); try done.
  - intros [= H]. apply bool_decide_eq_true in H. subst. eauto.
  - intros [_ [= ->]]. f_equal. by apply bool_decide_eq_true.
Qed.

Lemma holds_not_in {A : Type} `{EqDecision A} (a : option A) sub :
  is_Some a ->
  holds (sql_not_in a sub) = true <-> (a ∉ sub) /\ (None ∉ sub).
Proof.
  intros [x ->]. unfold holds, sql_not_in. rewrite bool_decide_eq_true.
  destruct sub as [|c sub].
  - split; [| done]. intros _. split; apply not_elem_of_nil.
  - repeat case_bool_decide; split; try done; intros [? ?]; done.
Qed.

Lemma holds_not_exists {R : Type} (cond : R -> option bool) t :
  holds (sql_not_exists cond t) = true <-> forall r, r ∈ t -> cond r <> Some true.
Proof.
  unfold holds, sql_not_exists. rewrite bool_decide_eq_true. split.
  - intros [= Hex] r Hr Hc. apply negb_true_iff in Hex.
    assert (existsb (fun r => bool_decide (cond r = Some true)) t = true); [| congruence].
    apply existsb_exists. exists r. split; [by apply list_elem_of_In |].
    by apply bool_decide_eq_true.
  - intros Hall. f_equal. apply negb_true_iff. apply not_true_iff_false.
    intros (r & Hr%list_elem_of_In & Hc%bool_decide_eq_true)%existsb_exists.
    by apply (Hall r Hr).
Qed.

Lemma holds_true c : holds c = true <-> c = Some true.
Proof. unfold holds. apply bool_decide_eq_true. Qed.

(** *** dim_soil: presence is equality of the whole tuple *)

Lemma soil_matches_true v ds :
  soil_matches v ds = Some true <-> complete_soil (soil_of v) /\ ds = soil_of v.
Proof.
  rewrite <- holds_true. unfold soil_matches, complete_soil.
  rewrite !holds_and, !holds_eq. destruct ds as [a b c d]. cbn. split.
  - intros ([Ha ->] & [Hb ->] & [Hc ->] & [Hd ->]). done.
  - intros ((Ha & Hb & Hc & Hd) & [= -> -> -> ->]). done.
Qed.

Lemma new_soil_cond v (t : dim soil) :
  holds (sql_and (sql_not_exists (fun r => soil_matches v r.2) t)
           (sql_and (is_not_null (ph v))
              (sql_and (is_not_null (nitrogen v))
                 (sql_and (is_not_null (phosphorus v))
                    (is_not_null (potassium v)))))) = true
  <-> complete_soil (soil_of v) /\ soil_of v ∉ map snd t.
Proof.
  rewrite !holds_and, !holds_is_not_null, holds_not_exists.
  unfold complete_soil. cbn [soil_of s_ph s_nitrogen s_phosphorus s_potassium]. split.
  - intros (Hnone & Hcomplete). split; [done |].
    intros (r & Hr & Hin)%list_elem_of_fmap.
    apply (Hnone r Hin). apply soil_matches_true. done.
  - intros (Hcomplete & Hnew). split; [| done].
    intros r Hr [_ Heq]%soil_matches_true. apply Hnew.
    apply list_elem_of_fmap. by exists r.
Qed.

(** *** dim_location and dim_time: presence is decided by one column *)

Lemma new_location_cond v (t : dim location) :
  holds (sql_and (is_not_null (loc_id v))
           (sql_not_in (loc_id v) (map (fun r => l_loc_id r.2) t))) = true
  <-> is_Some (l_loc_id (location_of v))
      /\ (l_loc_id (location_of v) ∉ map (fun r => l_loc_id r.2) t)
      /\ (None ∉ map (fun r => l_loc_id r.2) t).
Proof.
  rewrite holds_and, holds_is_not_null. cbn [location_of l_loc_id]. split.
  - intros [Hsome Hin]. by apply holds_not_in in Hin.
  - intros (Hsome & Hnew & Hnull). split; [done |]. by apply holds_not_in.
Qed.

Lemma new_time_cond v (t : dim time) :
  holds (sql_and (is_not_null (timestamp v))
           (sql_not_in (timestamp v) (map (fun r => t_full_date r.2) t))) = true
  <-> is_Some (t_full_date (time_of v))
      /\ (t_full_date (time_of v) ∉ map (fun r => t_full_date r.2) t)
      /\ (None ∉ map (fun r => t_full_date r.2) t).
Proof.
  rewrite holds_and, holds_is_not_null. cbn [time_of t_full_date]. split.
  - intros [Hsome Hin]. by apply holds_not_in in Hin.
  - intros (Hsome & Hnew & Hnull). split; [done |]. by apply holds_not_in.
Qed.

(** *** No two rows of a dimension with the same attributes *)

Lemma new_soils_fresh nv (t : dim soil) r : r ∈ new_soils nv t -> r ∉ map snd t.
Proof.
  unfold new_soils. intros (v & _ & Hc & ->)%select_distinct_elem.
  by apply new_soil_cond in Hc as [_ ?].
Qed.

Lemma new_locations_fresh nv (t : dim location) r :
  r ∈ new_locations nv t -> r ∉ map snd t.
Proof.
  unfold new_locations. intros (v & _ & Hc & ->)%select_distinct_elem.
  apply new_location_cond in Hc as (_ & Hnew & _).
  intros (row & Hrow & Hin)%list_elem_of_fmap. apply Hnew.
  apply list_elem_of_fmap. exists row. by rewrite <- Hrow.
Qed.

Lemma new_times_fresh nv (t : dim time) r : r ∈ new_times nv t -> r ∉ map snd t.
Proof.
  unfold new_times. intros (v & _ & Hc & ->)%select_distinct_elem.
  apply new_time_cond in Hc as (_ & Hnew & _).
  intros (row & Hrow & Hin)%list_elem_of_fmap. apply Hnew.
  apply list_elem_of_fmap. exists row. by rewrite <- Hrow.
Qed.

(** A cycle, whatever fails in it, keeps the rows of [dim_location],
    [dim_time] and [dim_soil] pairwise distinct. *)
Lemma run_cycle_distinct fails db :
  NoDup (map snd (dim_location db)) /\ NoDup (map snd (dim_time db))
  /\ NoDup (map snd (dim_soil db)) ->
  NoDup (map snd (dim_location (run_cycle fails db)))
  /\ NoDup (map snd (dim_time (run_cycle fails db)))
  /\ NoDup (map snd (dim_soil (run_cycle fails db))).
Proof.
  intros (Hl & Ht & Hs).
  destruct (run_cycle_tables fails db) as (_ & -> & -> & -> & _ & _).
  split_and!.
  - destruct (takes_effect _ _ _); [| done].
    apply insert_into_nodup; [done | apply select_distinct_nodup |].
    apply new_locations_fresh.
  - destruct (takes_effect _ _ _); [| done].
    apply insert_into_nodup; [done | apply select_distinct_nodup |].
    apply new_times_fresh.
  - destruct (takes_effect _ _ _); [| done].
    apply insert_into_nodup; [done | apply select_distinct_nodup |].
    apply new_soils_fresh.
Qed.

Lemma run_cycles_distinct cycles :
  forall db,
    NoDup (map snd (dim_location db)) /\ NoDup (map snd (dim_time db))
    /\ NoDup (map snd (dim_soil db)) ->
    NoDup (map snd (dim_location (run_cycles cycles db)))
    /\ NoDup (map snd (dim_time (run_cycles cycles db)))
    /\ NoDup (map snd (dim_soil (run_cycles cycles db))).
Proof.
  unfold run_cycles. induction cycles as [|[rows fails] cycles IH]; intros db Hdb; [done |].
  cbn [fold_left]. apply IH. apply run_cycle_distinct. exact Hdb.
Qed.

(** C6, as the code has it. [dim_soil] receives exactly the distinct
    soil tuples of the extracted rows that have no NULL and equal no row
    already there. For [dim_time] and [dim_location] presence is decided
    by one column: they receive the distinct tuples whose [full_date],
    respectively [loc_id], is not NULL and is the [full_date], respectively
    [loc_id], of no row already there (and nothing when that column of the
    dimension holds a NULL). In these three dimensions no two rows share
    their attributes after any sequence of cycles from the empty
    warehouse, whatever rows arrive and whatever statements fail. *)
Theorem dimension_upserts :
  forall (nv : list valid_reading) (ts : dim soil) (tt : dim time) (tl : dim location)
         (cycles : list (list valid_reading * (step -> bool))),
    new_soils nv ts
    = remove_dups (filter (fun s => complete_soil s /\ s ∉ map snd ts) (map soil_of nv))
    /\ new_times nv tt
       = remove_dups
           (filter (fun x => is_Some (t_full_date x)
                             /\ (t_full_date x ∉ map (fun r => t_full_date r.2) tt)
                             /\ (None ∉ map (fun r => t_full_date r.2) tt))
              (map time_of nv))
    /\ new_locations nv tl
       = remove_dups
           (filter (fun l => is_Some (l_loc_id l)
                             /\ (l_loc_id l ∉ map (fun r => l_loc_id r.2) tl)
                             /\ (None ∉ map (fun r => l_loc_id r.2) tl))
              (map location_of nv))
    /\ NoDup (map snd (dim_location (run_cycles cycles empty_warehouse)))
    /\ NoDup (map snd (dim_time (run_cycles cycles empty_warehouse)))
    /\ NoDup (map snd (dim_soil (run_cycles cycles empty_warehouse))).
Proof.
  intros nv ts tt tl cycles.
  split; [| split; [| split]].
  - unfold new_soils. apply select_distinct_spec. intros v. apply new_soil_cond.
  - unfold new_times. apply select_distinct_spec. intros v. apply new_time_cond.
  - unfold new_locations. apply select_distinct_spec. intros v. apply new_location_cond.
  - apply run_cycles_distinct. cbn. split_and!; apply NoDup_nil_2.
Qed.

(** C6 as stated fails on [dim_location]: a row of loc_1 with other
    coordinates than the row already loaded has a tuple that is not
    present, yet nothing is inserted for it, its [loc_id] being already
    there. *)
Lemma location_presence_is_by_loc_id :
  map snd (dim_location loaded_once)
  = [ {| l_loc_id := Some "loc_1"; l_latitude := Some 23; l_longitude := Some 30 |} ]
  /\ remove_dups (filter (fun l => l ∉ map snd (dim_location loaded_once))
                    (map location_of [moved_row]))
     = [ {| l_loc_id := Some "loc_1"; l_latitude := Some 24; l_longitude := Some 31 |} ]
  /\ new_locations [moved_row] (dim_location loaded_once) = []
  /\ dim_location (run_cycle no_failure (add_readings [moved_row] loaded_once))
     = dim_location loaded_once.
Proof. split_and!; vm_compute; reflexivity. Qed.

(** ** A second run without the NULL weather columns

    The second run of C2 does insert nothing when every source row with
    a weather temperature has all six weather columns: the statement of
    [dim_weather] is then the only place where the idempotence of the
    job breaks. *)

Lemma weather_matches_true v dw :
  weather_matches v dw = Some true <-> complete_weather (weather_of v) /\ dw = weather_of v.
Proof.
  rewrite <- holds_true. unfold weather_matches, complete_weather.
  rewrite !holds_and, !holds_eq. destruct dw as [a b c d e f]. cbn. split.
  - intros ([Ha ->] & [Hb ->] & [Hc ->] & [Hd ->] & [He ->] & [Hf ->]). done.
  - intros ((Ha & Hb & Hc & Hd & He & Hf) & [= -> -> -> -> -> ->]). done.
Qed.

Lemma new_weather_cond v (t : dim weather) :
  (is_Some (weather_temperature_2m v) -> complete_weather (weather_of v)) ->
  holds (sql_and (sql_not_exists (fun r => weather_matches v r.2) t)
           (is_not_null (weather_temperature_2m v))) = true
  <-> is_Some (weather_temperature_2m v) /\ weather_of v ∉ map snd t.
Proof.
  intros Hcomplete. rewrite holds_and, holds_is_not_null, holds_not_exists. split.
  - intros (Hnone & Htemp). split; [done |].
    intros (r & Hr & Hin)%list_elem_of_fmap.
    apply (Hnone r Hin). apply weather_matches_true. split; [by apply Hcomplete | done].
  - intros (Htemp & Hnew). split; [| done].
    intros r Hr [_ Heq]%weather_matches_true. apply Hnew.
    apply list_elem_of_fmap. by exists r.
Qed.

Lemma select_distinct_nil {T : Type} `{EqDecision T} (cols : valid_reading -> T) cond nv :
  (forall v, v ∈ nv -> holds (cond v) <> true) -> select_distinct cols cond nv = [].
Proof.
  intros Hnone. destruct (select_distinct cols cond nv) as [|r l] eqn:Hsel; [done |].
  assert (Hr : r ∈ select_distinct cols cond nv) by (rewrite Hsel; apply list_elem_of_here).
  apply select_distinct_elem in Hr as (v & Hv & Hc & _). by destruct (Hnone v Hv).
Qed.

Lemma insert_into_nil {T : Type} (t : dim T) : insert_into t [] = t.
Proof. unfold insert_into. cbn. apply app_nil_r. Qed.

Lemma warehouse_eq db db' :
  valid_readings db = valid_readings db' ->
  dim_location db = dim_location db' ->
  dim_time db = dim_time db' ->
  dim_soil db = dim_soil db' ->
  dim_weather db = dim_weather db' ->
  fact_sensor_readings db = fact_sensor_readings db' ->
  db = db'.
Proof. destruct db, db'. cbn. by intros -> -> -> -> -> ->. Qed.

Lemma run_cycle_nothing_new fails db :
  new_locations (extraction fails db) (dim_location db) = [] ->
  new_times (extraction fails db) (dim_time db) = [] ->
  new_soils (extraction fails db) (dim_soil db) = [] ->
  new_weathers (extraction fails db) (dim_weather db) = [] ->
  new_facts (extraction fails db) db = [] ->
  run_cycle fails db = db.
Proof.
  intros Hl Ht Hs Hw Hf.
  destruct (run_cycle_tables fails db) as (Esrc & El & Et & Es & Ew & Ef).
  fold (extraction fails db) in El, Et, Es, Ew, Ef.
  rewrite Hl, insert_into_nil in El. rewrite Ht, insert_into_nil in Et.
  rewrite Hs, insert_into_nil in Es. rewrite Hw, insert_into_nil in Ew.
  assert (El' : dim_location (run_cycle fails db) = dim_location db)
    by (rewrite El; by destruct (takes_effect fails DimLocation _)).
  assert (Et' : dim_time (run_cycle fails db) = dim_time db)
    by (rewrite Et; by destruct (takes_effect fails DimTime _)).
  assert (Es' : dim_soil (run_cycle fails db) = dim_soil db)
    by (rewrite Es; by destruct (takes_effect fails DimSoil _)).
  assert (Ew' : dim_weather (run_cycle fails db) = dim_weather db)
    by (rewrite Ew; by destruct (takes_effect fails DimWeather _)).
  apply warehouse_eq; try done.
  rewrite Ef. destruct (takes_effect fails FactInsert _); [| done].
  rewrite El', Et', Es', Ew'.
  change (new_facts (extraction fails db) _) with (new_facts (extraction fails db) db).
  rewrite Hf. apply app_nil_r.
Qed.

Lemma sql_max_in col m : sql_max col = Some m -> Some m ∈ col.
Proof.
  revert m. induction col as [|c col IH]; intros m; cbn [sql_max foldr]; [discriminate |].
  fold (sql_max col). destruct c as [x|].
  - destruct (sql_max col) as [y|].
    + intros [= <-]. destruct (Z.max_spec x y) as [[_ ->] | [_ ->]].
      * by apply list_elem_of_further, IH.
      * apply list_elem_of_here.
    + intros [= <-]. apply list_elem_of_here.
  - intros Hm. by apply list_elem_of_further, IH.
Qed.

(** What the second of two runs extracts, the first extracted too. *)
Lemma rerun_extracts_subset db v :
  v ∈ extraction no_failure (run_cycle no_failure db) ->
  v ∈ extraction no_failure db.
Proof.
  unfold extraction. cbn [no_failure]. intros Hv.
  destruct (run_cycle_tables no_failure db) as (Hsrc & _ & _ & _ & _ & Hfacts).
  assert (Hin : v ∈ valid_readings db).
  { unfold new_data in Hv. apply list_elem_of_filter in Hv as [_ Hv]. by rewrite <- Hsrc. }
  assert (Hts : exists t, timestamp v = Some t).
  { unfold new_data in Hv. apply list_elem_of_filter in Hv as [Hgt _].
    unfold holds, sql_gt in Hgt. apply bool_decide_eq_true in Hgt.
    destruct (timestamp v); [eauto | discriminate]. }
  destruct Hts as [t Ht].
  apply (extracted_iff _ v t) in Hv as [Hlt Hepoch]; [| by rewrite Hsrc | done].
  apply (extracted_iff _ v t); [done | done |]. split.
  - intros f d Hf Hd. apply (Hlt f d); [| done].
    rewrite Hfacts. destruct (takes_effect no_failure FactInsert _); [| done].
    apply elem_of_app. by left.
  - intros Hall.
    destruct (sql_max (map full_date (fact_sensor_readings (run_cycle no_failure db))))
      as [m|] eqn:Hm.
    + apply sql_max_in in Hm. apply list_elem_of_fmap in Hm as (f & Hd & Hf).
      assert (Hmt : m < t) by (by apply (Hlt f m)).
      rewrite Hfacts in Hf. destruct (takes_effect no_failure FactInsert _).
      * apply elem_of_app in Hf as [Hf | Hf].
        { rewrite (Hall f Hf) in Hd. discriminate. }
        apply new_facts_origin in Hf as (v' & Hv' & _ & Hdate).
        cbn [no_failure] in Hv'.
        assert (Hin' : v' ∈ valid_readings db).
        { unfold new_data in Hv'. by apply list_elem_of_filter in Hv' as [_ ?]. }
        apply (extracted_iff _ v' m) in Hv' as [_ Hepoch']; [| done | congruence].
        specialize (Hepoch' Hall). lia.
      * rewrite (Hall f Hf) in Hd. discriminate.
    + apply Hepoch. intros f Hf.
      apply (proj1 (sql_max_none _) Hm). apply list_elem_of_fmap. by exists f.
Qed.

Lemma new_facts_subset nv nv' db f :
  (forall v, v ∈ nv -> v ∈ nv') -> f ∈ new_facts nv db -> f ∈ new_facts nv' db.
Proof.
  intros Hsub. unfold new_facts.
  intros (v & Hf & Hv)%list_elem_of_bind.
  apply list_elem_of_bind. exists v. split; [done | by apply Hsub].
Qed.

(** X26. With complete weather tuples, a second run right after the
    first changes nothing: when every source row that has a weather
    temperature has all six weather columns, running the job again
    without new rows and without failures leaves every table as it is. *)
Lemma second_run_is_noop db :
  (forall v, v ∈ valid_readings db ->
             is_Some (weather_temperature_2m v) -> complete_weather (weather_of v)) ->
  run_cycle no_failure (run_cycle no_failure db) = run_cycle no_failure db.
Proof.
  intros Hcomplete.
  destruct (run_cycle_tables no_failure db) as (Hsrc & Hl & Ht & Hs & Hw & Hf).
  fold (extraction no_failure db) in Hl, Ht, Hs, Hw, Hf.
  destruct (extraction no_failure db) as [|v0 nv0] eqn:Hnv.
  { assert (Hid : run_cycle no_failure db = db).
    { unfold run_cycle. unfold extraction in Hnv. by rewrite Hnv. }
    by rewrite !Hid. }
  cbn [takes_effect no_failure negb] in Hl, Ht, Hs, Hw, Hf.
  assert (Hsub : forall v, v ∈ extraction no_failure (run_cycle no_failure db) ->
                           v ∈ v0 :: nv0).
  { intros v Hv. rewrite <- Hnv. by apply rerun_extracts_subset. }
  assert (Hsrc' : forall v, v ∈ extraction no_failure (run_cycle no_failure db) ->
                            v ∈ valid_readings db).
  { intros v Hv%Hsub. rewrite <- Hnv in Hv. unfold extraction, new_data in Hv.
    by apply list_elem_of_filter in Hv as [_ ?]. }
  apply run_cycle_nothing_new.
  - apply select_distinct_nil. intros v Hv Hc.
    apply new_location_cond in Hc as (Hsome & Hnew & Hnull).
    rewrite Hl in Hnew, Hnull. unfold insert_into in Hnew, Hnull.
    rewrite map_app in Hnew, Hnull.
    apply not_elem_of_app in Hnew as [Hnew0 Hnew1].
    apply not_elem_of_app in Hnull as [Hnull0 _].
    apply Hnew1. apply list_elem_of_fmap.
    assert (Hrow : location_of v ∈ new_locations (v0 :: nv0) (dim_location db)).
    { apply select_distinct_elem. exists v. split_and!; [by apply Hsub | | done].
      by apply new_location_cond. }
    assert (Hrow' : location_of v
                    ∈ map snd (number_from (next_key (dim_location db))
                                 (new_locations (v0 :: nv0) (dim_location db))))
      by (by rewrite snd_number_from).
    apply list_elem_of_fmap in Hrow' as (r & Hr & Hin). exists r. by rewrite <- Hr.
  - apply select_distinct_nil. intros v Hv Hc.
    apply new_time_cond in Hc as (Hsome & Hnew & Hnull).
    rewrite Ht in Hnew, Hnull. unfold insert_into in Hnew, Hnull.
    rewrite map_app in Hnew, Hnull.
    apply not_elem_of_app in Hnew as [Hnew0 Hnew1].
    apply not_elem_of_app in Hnull as [Hnull0 _].
    apply Hnew1. apply list_elem_of_fmap.
    assert (Hrow : time_of v ∈ new_times (v0 :: nv0) (dim_time db)).
    { apply select_distinct_elem. exists v. split_and!; [by apply Hsub | | done].
      by apply new_time_cond. }
    assert (Hrow' : time_of v
                    ∈ map snd (number_from (next_key (dim_time db))
                                 (new_times (v0 :: nv0) (dim_time db))))
      by (by rewrite snd_number_from).
    apply list_elem_of_fmap in Hrow' as (r & Hr & Hin). exists r. by rewrite <- Hr.
  - apply select_distinct_nil. intros v Hv Hc.
    apply new_soil_cond in Hc as (Hsome & Hnew).
    rewrite Hs, snd_insert_into in Hnew.
    apply not_elem_of_app in Hnew as [Hnew0 Hnew1].
    apply Hnew1. apply select_distinct_elem. exists v.
    split_and!; [by apply Hsub | | done]. by apply new_soil_cond.
  - apply select_distinct_nil. intros v Hv Hc.
    pose proof (Hcomplete v (Hsrc' v Hv)) as Hcv.
    apply (new_weather_cond _ _ Hcv) in Hc as (Hsome & Hnew).
    rewrite Hw, snd_insert_into in Hnew.
    apply not_elem_of_app in Hnew as [Hnew0 Hnew1].
    apply Hnew1. apply select_distinct_elem. exists v.
    split_and!; [by apply Hsub | | done]. by apply (new_weather_cond _ _ Hcv).
  - destruct (new_facts _ (run_cycle no_failure db)) as [|f fs] eqn:Hnew; [done |].
    exfalso.
    assert (Hfin : f ∈ new_facts (extraction no_failure (run_cycle no_failure db))
                         (run_cycle no_failure db))
      by (rewrite Hnew; apply list_elem_of_here).
    pose proof (new_facts_origin _ _ _ Hfin) as (v & Hv & _ & Hdate).
    apply (new_facts_subset _ (v0 :: nv0)) in Hfin; [| exact Hsub].
    assert (Hold : f ∈ fact_sensor_readings (run_cycle no_failure db)).
    { rewrite Hf. apply elem_of_app. right. exact Hfin. }
    assert (Hts : exists t, timestamp v = Some t).
    { unfold extraction, new_data in Hv. apply list_elem_of_filter in Hv as [Hgt _].
      unfold holds, sql_gt in Hgt. apply bool_decide_eq_true in Hgt.
      destruct (timestamp v); [eauto | discriminate]. }
    destruct Hts as [t Htv].
    unfold extraction in Hv. cbn [no_failure] in Hv.
    apply (extracted_iff _ v t) in Hv as [Hlt _];
      [| rewrite Hsrc; by apply Hsrc' | done].
    specialize (Hlt f t Hold). rewrite Hdate, Htv in Hlt. specialize (Hlt eq_refl). lia.
Qed.

End WarehouseSpec.

(* ===================================================================== *)
(** * Further properties of the validator *)
(* ===================================================================== *)

Module ValidatorMore.
Import Py Validator Alerts Notions Scenarios ValidatorSpec.

(** ** One round of the sensor loop, case by case *)

Lemma validate_sensor_cases q lo hi low high d errs warns :
  threshold_band lo hi = Return (low, high) ->
  validate_sensor (q, (lo, hi)) (PDict d, errs, warns)
  = Return
      (let val := default PNone (d !! q) in
       if in_atoms val extreme_values then
         (PDict d, errs ++ [sensor_error q "_extreme_value"], warns)
       else
         match checked_number val with
         | None => (PDict d, errs ++ [sensor_error q "_invalid_type"], warns)
         | Some x =>
             let sd := match converted val with
                       | Some f => PDict (<[q := PFloat f]> d)
                       | None => PDict d
                       end in
             let warns := match converted val with
                          | Some f => warns ++ [sensor_warning q "_type_converted"]
                          | None => warns
                          end in
             if in_range lo hi x then (sd, errs, warns)
             else if in_range low high x
                  then (sd, errs, warns ++ [sensor_warning q "_near_threshold"])
                  else (sd, errs ++ [sensor_error q "_out_of_range"], warns)
         end).
Proof.
  intros Hband. unfold threshold_band in Hband.
  destruct (num_sub hi lo) as [width|] eqn:Hw; cbn [bind] in Hband; [| discriminate].
  destruct (num_mul width _) as [buffer|] eqn:Hb; cbn [bind] in Hband; [| discriminate].
  destruct (num_sub lo buffer) as [low'|] eqn:Hl; cbn [bind] in Hband; [| discriminate].
  destruct (num_add hi buffer) as [high'|] eqn:Hh; cbn [bind] in Hband; [| discriminate].
  injection Hband as -> ->.
  unfold validate_sensor, py_get. cbn [bind]. cbv zeta.
  set (val := default PNone (d !! q)).
  destruct (in_atoms val extreme_values) eqn:Hext; [reflexivity |].
  assert (Hnone : val <> PNone) by (intros E; rewrite E in Hext; discriminate).
  unfold checked_number, converted, in_range.
  destruct val as [|b|n|f|s|l|m]; try done; cbn [as_num float_of_value fmap option_fmap option_map];
    try (destruct (num_le lo _ && num_le _ hi); [reflexivity |];
         rewrite Hw; cbn [bind]; rewrite Hb; cbn [bind]; rewrite Hl; cbn [bind];
         rewrite Hh; cbn [bind]; destruct (num_le low _ && num_le _ high); reflexivity);
    try reflexivity.
  destruct (float_of_string s) as [f|]; cbn; [| reflexivity].
  destruct (num_le lo _ && num_le _ hi); [reflexivity |].
  rewrite Hw; cbn [bind]; rewrite Hb; cbn [bind]; rewrite Hl; cbn [bind];
    rewrite Hh; cbn [bind]; destruct (num_le low _ && num_le _ high); reflexivity.
Qed.

(** ** The two ways [validate_record] returns *)

(** Either it returns early, INVALID, with [data] untouched; or it has
    run the sensor loop on a non-empty dict and the cross-check. *)
Lemma validate_record_cases data st errors warnings data' :
  validate_record data = Return (st, errors, warnings, data') ->
  (st = INVALID /\ errors <> [] /\ warnings = [] /\ data' = data)
  \/ (exists loc ranges d d' es ws,
        loc_id data = Some loc
        /\ assoc loc EXPECTED_RANGES_PER_LOCATION = Some ranges
        /\ sensor_data data = Some (PDict d)
        /\ d <> ∅
        /\ validate_sensors ranges (PDict d, missing_top_level_keys data, [])
           = Return (PDict d', missing_top_level_keys data ++ es, ws)
        /\ cross_validate (PDict d') (set_sensor_data (PDict d') data) ws = Return warnings
        /\ errors = missing_top_level_keys data ++ es
        /\ st = overall_status errors warnings
        /\ data' = set_sensor_data (PDict d') data).
Proof.
  unfold validate_record.
  destruct (loc_id data) as [loc|] eqn:Hloc.
  2:{ intros [= <- <- <- <-]. by left. }
  destruct (String.eqb loc "").
  { intros [= <- <- <- <-]. by left. }
  destruct (assoc loc EXPECTED_RANGES_PER_LOCATION) as [ranges|] eqn:Hranges.
  2:{ intros [= <- <- <- <-]. by left. }
  destruct (negb (truthy _)) eqn:Htruthy.
  { intros [= <- <- <- <-]. left. split_and!; try done.
    intros [_ ?]%app_eq_nil. done. }
  destruct (sensor_data data) as [sd|] eqn:Hsd; cbn [default from_option id] in *.
  2:{ cbn in Htruthy. discriminate. }
  destruct sd as [| | | | | |d].
  1-6: rewrite validate_sensors_not_dict; [discriminate | | done];
       intros ->; by apply shipped_names in Hranges.
  assert (Hne : d <> ∅).
  { intros ->. cbn in Htruthy. by rewrite bool_decide_eq_true_2 in Htruthy. }
  destruct (validate_sensors_frame ranges (shipped_band_clear _ _ Hranges)
              d (missing_top_level_keys data) [])
    as (d' & es & ws & Hloop & _ & _ & _).
  rewrite app_nil_l in Hloop. rewrite Hloop. cbn [bind].
  destruct (cross_validate _ _ _) as [ws'|] eqn:Hcross; [| discriminate].
  intros [= <- <- <- <-]. right. exists loc, ranges, d, d', es, ws.
  split_and!; done.
Qed.

(** X1. Whenever [validate_record] returns, the status says what the
    two lists hold: INVALID exactly when there is an error, WARNING
    exactly when there is no error but a warning, VALID exactly when both
    lists are empty. The early returns included. *)
Theorem status_reflects_lists :
  forall (data : reading) (st : status) (errors : list string)
         (warnings : list fstring) (data' : reading),
    validate_record data = Return (st, errors, warnings, data') ->
    (st = INVALID <-> errors <> [])
    /\ (st = WARNING <-> errors = [] /\ warnings <> [])
    /\ (st = VALID <-> errors = [] /\ warnings = []).
Proof.
  intros data st errors warnings data' Hret.
  apply validate_record_cases in Hret
    as [(-> & Herr & -> & _) | (loc & ranges & d & d' & es & ws & _ & _ & _ & _ & _ & _ & _ & -> & _)].
  - split_and!; split; try done; intros [? ?]; done.
  - destruct errors as [|e errors], warnings as [|w warnings]; cbn;
      split_and!; split; try done; intros [? ?]; done.
Qed.

Lemma status_reflects_lists_witness :
  (WARNING = INVALID <-> ([] : list string) <> [])
  /\ (WARNING = WARNING <->
        ([] : list string) = []
        /\ [sensor_warning "temperature" "_near_threshold";
            [Lit "temperature_mismatch:"; Val (PInt 9); Lit "vs"; Val (flt 300 (-1))]] <> [])
  /\ (WARNING = VALID <->
        ([] : list string) = []
        /\ [sensor_warning "temperature" "_near_threshold";
            [Lit "temperature_mismatch:"; Val (PInt 9); Lit "vs"; Val (flt 300 (-1))]] = []).
Proof.
  apply (status_reflects_lists near_threshold_reading WARNING [] _ near_threshold_reading).
  vm_compute. reflexivity.
Defined.

(** ** What the sensor loop does to the sensor map *)

Lemma validate_sensor_step q lo hi d errs warns :
  band_clear (q, (lo, hi)) = true ->
  exists d1 es1 ws1,
    validate_sensor (q, (lo, hi)) (PDict d, errs, warns)
    = Return (PDict d1, errs ++ es1, warns ++ ws1)
    /\ (d1 = d
        \/ exists s f, d !! q = Some (PStr s) /\ float_of_string s = Some f
                       /\ d1 = <[q := PFloat f]> d
                       /\ sensor_warning q "_type_converted" ∈ ws1)
    /\ (es1 = [] ->
        exists v x, d1 !! q = Some v /\ as_num v = Some x /\ tolerated lo hi x).
Proof.
  intros Hclear. destruct (band_clear_returns _ _ _ Hclear) as (low & high & Hband).
  rewrite (validate_sensor_cases _ _ _ _ _ _ _ _ Hband). cbv zeta.
  destruct (in_atoms (default PNone (d !! q)) extreme_values) eqn:Hext.
  { exists d, [sensor_error q "_extreme_value"], []. rewrite app_nil_r.
    split_and!; [done | by left | done]. }
  assert (Hval : forall v, default PNone (d !! q) = v -> v <> PNone -> d !! q = Some v).
  { intros v Hv Hne. destruct (d !! q); cbn in Hv; by subst. }
  unfold checked_number, converted.
  destruct (default PNone (d !! q)) as [|b|n|f|s|l|m] eqn:Hv;
    cbn [as_num float_of_value fmap option_fmap option_map].
  - discriminate.
  - specialize (Hval _ eq_refl ltac:(done)).
    destruct (in_range lo hi _) eqn:Hin; [| destruct (in_range low high _) eqn:Hin'].
    + exists d, [], []. rewrite !app_nil_r. split_and!; [done | by left |].
      intros _. eexists _, _. split_and!; [done | done | by left].
    + exists d, [], [sensor_warning q "_near_threshold"]. rewrite !app_nil_r.
      split_and!; [done | by left |].
      intros _. eexists _, _. split_and!; [done | done | right; eauto].
    + exists d, [sensor_error q "_out_of_range"], []. rewrite !app_nil_r.
      split_and!; [done | by left | done].
  - specialize (Hval _ eq_refl ltac:(done)).
    destruct (in_range lo hi _) eqn:Hin; [| destruct (in_range low high _) eqn:Hin'].
    + exists d, [], []. rewrite !app_nil_r. split_and!; [done | by left |].
      intros _. eexists _, _. split_and!; [done | done | by left].
    + exists d, [], [sensor_warning q "_near_threshold"]. rewrite !app_nil_r.
      split_and!; [done | by left |].
      intros _. eexists _, _. split_and!; [done | done | right; eauto].
    + exists d, [sensor_error q "_out_of_range"], []. rewrite !app_nil_r.
      split_and!; [done | by left | done].
  - specialize (Hval _ eq_refl ltac:(done)).
    destruct (in_range lo hi _) eqn:Hin; [| destruct (in_range low high _) eqn:Hin'].
    + exists d, [], []. rewrite !app_nil_r. split_and!; [done | by left |].
      intros _. eexists _, _. split_and!; [done | done | by left].
    + exists d, [], [sensor_warning q "_near_threshold"]. rewrite !app_nil_r.
      split_and!; [done | by left |].
      intros _. eexists _, _. split_and!; [done | done | right; eauto].
    + exists d, [sensor_error q "_out_of_range"], []. rewrite !app_nil_r.
      split_and!; [done | by left | done].
  - specialize (Hval _ eq_refl ltac:(done)).
    destruct (float_of_string s) as [f|] eqn:Hparse; cbn [fmap option_fmap option_map].
    2:{ exists d, [sensor_error q "_invalid_type"], []. rewrite !app_nil_r.
        split_and!; [done | by left | done]. }
    destruct (in_range lo hi _) eqn:Hin; [| destruct (in_range low high _) eqn:Hin'].
    + exists (<[q := PFloat f]> d), [], [sensor_warning q "_type_converted"].
      rewrite !app_nil_r.
      split_and!; [done | right; exists s, f; split_and!; try done; apply list_elem_of_here |].
      intros _. exists (PFloat f), (NFloat f).
      rewrite lookup_insert_eq. split_and!; [done | done | by left].
    + exists (<[q := PFloat f]> d), [],
        [sensor_warning q "_type_converted"; sensor_warning q "_near_threshold"].
      rewrite !app_nil_r, <- app_assoc.
      split_and!; [done | right; exists s, f; split_and!; try done; apply list_elem_of_here |].
      intros _. exists (PFloat f), (NFloat f).
      rewrite lookup_insert_eq. split_and!; [done | done | right; eauto].
    + exists (<[q := PFloat f]> d), [sensor_error q "_out_of_range"],
        [sensor_warning q "_type_converted"].
      split_and!; [done | right; exists s, f; split_and!; try done; apply list_elem_of_here | done].
  - exists d, [sensor_error q "_invalid_type"], []. rewrite !app_nil_r.
    split_and!; [done | by left | done].
  - exists d, [sensor_error q "_invalid_type"], []. rewrite !app_nil_r.
    split_and!; [done | by left | done].
Qed.

Lemma validate_sensors_shape ranges d errs warns sd' errs' warns' :
  forallb band_clear ranges = true ->
  validate_sensors ranges (PDict d, errs, warns) = Return (sd', errs', warns') ->
  exists d' es ws,
    sd' = PDict d' /\ errs' = errs ++ es /\ warns' = warns ++ ws
    /\ (forall k, k ∉ map fst ranges -> d' !! k = d !! k).
Proof.
  intros Hclear Hloop.
  destruct (validate_sensors_frame ranges Hclear d errs warns)
    as (d' & es & ws & Hloop' & Hd' & _ & _).
  rewrite Hloop' in Hloop. injection Hloop as <- <- <-. by exists d', es, ws.
Qed.

(** The loop rewrites the sensor map only where a quantity held a text
    that reads as a float, and it leaves a [_type_converted] warning for
    each; and when it appends no error, every quantity ends up with a
    number inside its range or the buffer around it. *)
Lemma validate_sensors_stored ranges :
  forallb band_clear ranges = true ->
  NoDup (map fst ranges) ->
  forall d errs warns d' errs' warns',
    validate_sensors ranges (PDict d, errs, warns) = Return (PDict d', errs', warns') ->
    (forall k, d' !! k = d !! k
               \/ (k ∈ map fst ranges
                   /\ exists s f, d !! k = Some (PStr s) /\ float_of_string s = Some f
                                  /\ d' !! k = Some (PFloat f)
                                  /\ sensor_warning k "_type_converted" ∈ warns'))
    /\ (errs' = errs ->
        forall q lo hi, (q, (lo, hi)) ∈ ranges ->
          exists v x, d' !! q = Some v /\ as_num v = Some x /\ tolerated lo hi x).
Proof.
  induction ranges as [|[q [lo hi]] ranges IH]; intros Hclear Hnodup d errs warns d' errs' warns'.
  - cbn. intros [= <- <- <-]. split; [by left |]. by intros _ q lo hi ?%elem_of_nil.
  - cbn [forallb] in Hclear. apply andb_prop in Hclear as [Hq Hrest].
    cbn [map fst] in Hnodup. apply NoDup_cons in Hnodup as [Hfresh Hnodup].
    destruct (validate_sensor_step q lo hi d errs warns Hq)
      as (d1 & es1 & ws1 & Hstep & Hd1 & Hok).
    cbn [validate_sensors]. rewrite Hstep. cbn [bind]. intros Hloop.
    destruct (validate_sensors_shape _ _ _ _ _ _ _ Hrest Hloop)
      as (d2 & es2 & ws2 & [= <-] & -> & -> & Hframe).
    destruct (IH Hrest Hnodup _ _ _ _ _ _ Hloop) as [Hmap Hnum].
    assert (Hq' : d' !! q = d1 !! q) by (by apply Hframe).
    split.
    + intros k. destruct (decide (k = q)) as [-> | Hne].
      * rewrite Hq'. destruct Hd1 as [-> | (s & f & Hs & Hf & -> & Hw)]; [by left |].
        right. split; [apply list_elem_of_here |].
        exists s, f. rewrite lookup_insert_eq. split_and!; try done.
        apply elem_of_app. left. apply elem_of_app. by right.
      * assert (Hk : d1 !! k = d !! k).
        { destruct Hd1 as [-> | (s & f & _ & _ & -> & _)]; [done |].
          by rewrite lookup_insert_ne. }
        destruct (Hmap k) as [Heq | (Hin & s & f & Hs & Hf & Hk' & Hw)].
        -- left. by rewrite Heq.
        -- right. split; [by apply list_elem_of_further |].
           exists s, f. by rewrite <- Hk.
    + intros Herrs.
      assert (Hnil : es1 = [] /\ es2 = []).
      { rewrite <- app_assoc in Herrs.
        assert (Hlen : length (errs ++ es1 ++ es2) = length errs) by (by rewrite Herrs).
        rewrite !length_app in Hlen.
        split; apply length_zero_iff_nil; lia. }
      destruct Hnil as [-> ->]. rewrite !app_nil_r in *.
      intros q' lo' hi' [[= -> -> ->] | Hin]%elem_of_cons.
      * rewrite Hq'. by apply Hok.
      * by apply (Hnum eq_refl).
Qed.

(** What a record that is not classified INVALID looks like after the
    call. *)
Lemma passed_record data st errors warnings data' :
  validate_record data = Return (st, errors, warnings, data') ->
  st <> INVALID ->
  exists loc ranges d',
    loc_id data = Some loc
    /\ loc_id data' = Some loc
    /\ assoc loc EXPECTED_RANGES_PER_LOCATION = Some ranges
    /\ sensor_data data' = Some (PDict d')
    /\ forall q lo hi, (q, (lo, hi)) ∈ ranges ->
         exists v x, d' !! q = Some v /\ as_num v = Some x /\ tolerated lo hi x.
Proof.
  intros Hret Hst.
  apply validate_record_cases in Hret
    as [(-> & _) | (loc & ranges & d & d' & es & ws & Hloc & Hranges & Hsd & Hne
                    & Hloop & Hcross & -> & -> & ->)]; [done |].
  exists loc, ranges, d'. split_and!; try done.
  assert (Hnil : missing_top_level_keys data ++ es = []).
  { destruct (missing_top_level_keys data ++ es); [done | by destruct warnings]. }
  rewrite Hnil in Hloop. apply app_eq_nil in Hnil as [Hmiss _]. rewrite Hmiss in Hloop.
  assert (Hnodup : NoDup (map fst ranges)).
  { rewrite (shipped_names _ _ Hranges). apply sensor_names_nodup. }
  destruct (validate_sensors_stored ranges (shipped_band_clear _ _ Hranges) Hnodup
              _ _ _ _ _ _ Hloop) as [_ Hnum].
  by apply Hnum.
Qed.

(** X2. A record that [validate_record] does not classify INVALID has a
    configured location, and after the call every quantity of that
    location's table holds a number that lies in the quantity's range or
    in the range widened by the buffer. *)
Theorem passed_values_are_tolerated :
  forall (data : reading) (st : status) (errors : list string)
         (warnings : list fstring) (data' : reading),
    validate_record data = Return (st, errors, warnings, data') ->
    st <> INVALID ->
    exists loc ranges d',
      loc_id data = Some loc
      /\ assoc loc EXPECTED_RANGES_PER_LOCATION = Some ranges
      /\ sensor_data data' = Some (PDict d')
      /\ forall q lo hi, (q, (lo, hi)) ∈ ranges ->
           exists v x, d' !! q = Some v /\ as_num v = Some x /\ tolerated lo hi x.
Proof.
  intros data st errors warnings data' Hret Hst.
  destruct (passed_record _ _ _ _ _ Hret Hst)
    as (loc & ranges & d' & Hloc & _ & Hranges & Hsd & Hnum).
  by exists loc, ranges, d'.
Qed.

Lemma passed_values_are_tolerated_witness :
  exists loc ranges d',
    loc_id near_threshold_reading = Some loc
    /\ assoc loc EXPECTED_RANGES_PER_LOCATION = Some ranges
    /\ sensor_data near_threshold_reading = Some (PDict d')
    /\ forall q lo hi, (q, (lo, hi)) ∈ ranges ->
         exists v x, d' !! q = Some v /\ as_num v = Some x /\ tolerated lo hi x.
Proof.
  apply (passed_values_are_tolerated near_threshold_reading WARNING []
           [sensor_warning "temperature" "_near_threshold";
            [Lit "temperature_mismatch:"; Val (PInt 9); Lit "vs"; Val (flt 300 (-1))]]
           near_threshold_reading).
  - vm_compute. reflexivity.
  - discriminate.
Defined.

(** X3. [validate_record] changes nothing of the record but entries of
    its sensor map, and of those only a quantity of the range tables
    whose value was a text that reads as a float: the entry then holds
    that float, and the warnings hold the quantity's [_type_converted]
    code. *)
Theorem only_conversions_rewrite_the_record :
  forall (data : reading) (st : status) (errors : list string)
         (warnings : list fstring) (data' : reading),
    validate_record data = Return (st, errors, warnings, data') ->
    event_id data' = event_id data
    /\ timestamp data' = timestamp data
    /\ loc_id data' = loc_id data
    /\ weather_data data' = weather_data data
    /\ location data' = location data
    /\ (sensor_data data' = sensor_data data
        \/ exists d d',
             sensor_data data = Some (PDict d)
             /\ sensor_data data' = Some (PDict d')
             /\ forall k,
                  d' !! k = d !! k
                  \/ (k ∈ sensor_names
                      /\ exists s f,
                           d !! k = Some (PStr s)
                           /\ float_of_string s = Some f
                           /\ d' !! k = Some (PFloat f)
                           /\ sensor_warning k "_type_converted" ∈ warnings)).
Proof.
  intros data st errors warnings data' Hret.
  apply validate_record_cases in Hret
    as [(_ & _ & _ & ->) | (loc & ranges & d & d' & es & ws & Hloc & Hranges & Hsd & Hne
                            & Hloop & Hcross & -> & -> & ->)].
  { split_and!; try done. by left. }
  split_and!; try done. right. exists d, d'. split_and!; try done.
  assert (Hnodup : NoDup (map fst ranges)).
  { rewrite (shipped_names _ _ Hranges). apply sensor_names_nodup. }
  destruct (validate_sensors_stored ranges (shipped_band_clear _ _ Hranges) Hnodup
              _ _ _ _ _ _ Hloop) as [Hmap _].
  intros k. destruct (Hmap k) as [Heq | (Hin & s & f & Hs & Hf & Hk & Hw)]; [by left |].
  right. rewrite (shipped_names _ _ Hranges) in Hin. split; [done |].
  exists s, f. split_and!; try done.
  destruct (cross_validate_warnings _ _ _ _ Hcross) as [-> | (a & b & ->)]; [done |].
  apply elem_of_app. by left.
Qed.

Lemma only_conversions_rewrite_the_record_witness :
  event_id converted_temperature_reading = event_id textual_temperature_reading
  /\ timestamp converted_temperature_reading = timestamp textual_temperature_reading
  /\ loc_id converted_temperature_reading = loc_id textual_temperature_reading
  /\ weather_data converted_temperature_reading = weather_data textual_temperature_reading
  /\ location converted_temperature_reading = location textual_temperature_reading
  /\ (sensor_data converted_temperature_reading = sensor_data textual_temperature_reading
      \/ exists d d',
           sensor_data textual_temperature_reading = Some (PDict d)
           /\ sensor_data converted_temperature_reading = Some (PDict d')
           /\ forall k,
                d' !! k = d !! k
                \/ (k ∈ sensor_names
                    /\ exists s f,
                         d !! k = Some (PStr s)
                         /\ float_of_string s = Some f
                         /\ d' !! k = Some (PFloat f)
                         /\ sensor_warning k "_type_converted"
                            ∈ [sensor_warning "temperature" "_type_converted"])).
Proof.
  apply (only_conversions_rewrite_the_record textual_temperature_reading WARNING []
           [sensor_warning "temperature" "_type_converted"] converted_temperature_reading).
  vm_compute. reflexivity.
Defined.

(** ** A numeric value inside its range, and one beyond the buffer *)

Lemma shipped_range_clear loc ranges :
  assoc loc EXPECTED_RANGES_PER_LOCATION = Some ranges ->
  forallb range_clear ranges = true.
Proof.
  unfold EXPECTED_RANGES_PER_LOCATION. simpl.
  repeat (destruct (String.eqb loc _); [intros [= <-]; vm_compute; reflexivity |]).
  discriminate.
Qed.

(** A number inside a shipped range is no sentinel. *)
Lemma in_range_not_extreme q lo hi v x :
  range_clear (q, (lo, hi)) = true ->
  as_num v = Some x ->
  in_range lo hi x = true ->
  in_atoms v extreme_values = false.
Proof.
  intros Hclear Hnum Hin. unfold range_clear in Hclear.
  assert (Hs : forall s, s ∈ numeric_sentinels -> num_eq x (NInt s) = false).
  { intros s Hs. destruct (num_eq x (NInt s)) eqn:Heq; [| done].
    rewrite forallb_forall in Hclear.
    specialize (Hclear s (proj1 (list_elem_of_In _ _) Hs)).
    rewrite <- (in_range_eq lo hi _ _ Heq), Hin in Hclear. done. }
  assert (H0 := Hs 0 ltac:(apply list_elem_of_here)).
  assert (H1 := Hs 9999 ltac:(apply list_elem_of_further, list_elem_of_here)).
  assert (H2 := Hs (-9999)
                  ltac:(apply list_elem_of_further, list_elem_of_further, list_elem_of_here)).
  unfold in_atoms, extreme_values. simpl.
  destruct v; simpl in Hnum; try discriminate; injection Hnum as <-;
    simpl; rewrite ?H0, ?H1, ?H2; reflexivity.
Qed.

Lemma checked_number_num v x : as_num v = Some x -> checked_number v = Some x.
Proof. unfold checked_number. by intros ->. Qed.

Lemma converted_num v x : as_num v = Some x -> converted v = None.
Proof. unfold converted. by intros ->. Qed.

Lemma validate_sensor_in_range q lo hi d v x errs warns :
  band_clear (q, (lo, hi)) = true ->
  range_clear (q, (lo, hi)) = true ->
  d !! q = Some v ->
  as_num v = Some x ->
  in_range lo hi x = true ->
  validate_sensor (q, (lo, hi)) (PDict d, errs, warns) = Return (PDict d, errs, warns).
Proof.
  intros Hband Hclear Hv Hnum Hin.
  destruct (band_clear_returns _ _ _ Hband) as (low & high & Hb).
  rewrite (validate_sensor_cases _ _ _ _ _ _ _ _ Hb). cbv zeta.
  rewrite Hv. cbn [default from_option id].
  rewrite (in_range_not_extreme _ _ _ _ _ Hclear Hnum Hin).
  by rewrite (checked_number_num _ _ Hnum), (converted_num _ _ Hnum), Hin.
Qed.

Lemma validate_sensor_beyond q lo hi d v x errs warns :
  d !! q = Some v ->
  as_num v = Some x ->
  in_atoms v extreme_values = false ->
  beyond_buffer lo hi x ->
  validate_sensor (q, (lo, hi)) (PDict d, errs, warns)
  = Return (PDict d, errs ++ [sensor_error q "_out_of_range"], warns).
Proof.
  intros Hv Hnum Hext (Hout & low & high & Hb & Hfar).
  rewrite (validate_sensor_cases _ _ _ _ _ _ _ _ Hb). cbv zeta.
  rewrite Hv. cbn [default from_option id]. rewrite Hext.
  by rewrite (checked_number_num _ _ Hnum), (converted_num _ _ Hnum), Hout, Hfar.
Qed.

(** What [validate_record] returns about one quantity, when the round of
    that quantity leaves the sensor map alone and appends [eq] to the
    errors and [wq] to the warnings. *)
Lemma validate_record_focus data loc ranges q lo hi d eq wq st errors warnings data' :
  loc_id data = Some loc ->
  assoc loc EXPECTED_RANGES_PER_LOCATION = Some ranges ->
  (q, (lo, hi)) ∈ ranges ->
  sensor_data data = Some (PDict d) ->
  d <> ∅ ->
  (forall d1 errs1 warns1,
      d1 !! q = d !! q ->
      validate_sensor (q, (lo, hi)) (PDict d1, errs1, warns1)
      = Return (PDict d1, errs1 ++ eq, warns1 ++ wq)) ->
  validate_record data = Return (st, errors, warnings, data') ->
  (forall e, e ∈ eq -> e ∈ errors)
  /\ (forall e, e ∈ errors_of q -> e ∈ errors -> e ∈ eq)
  /\ (forall w, w ∈ wq -> w ∈ warnings)
  /\ (forall w, w ∈ raised_warnings q -> w ∈ warnings -> w ∈ wq)
  /\ st = overall_status errors warnings.
Proof.
  intros Hloc Hranges Hin Hsd Hne Hstep.
  pose proof (shipped_name _ _ _ _ Hranges Hin) as Hq.
  assert (Hnodup : NoDup (map fst ranges)).
  { rewrite (shipped_names _ _ Hranges). apply sensor_names_nodup. }
  destruct (validate_sensors_focus ranges q lo hi d eq wq
              (missing_top_level_keys data) []
              (shipped_band_clear _ _ Hranges) Hnodup Hin Hstep)
    as (d' & es & ws & Hloop & Heq & Hwq & Hes & Hws).
  rewrite app_nil_l in Hloop.
  rewrite (validate_record_unfold _ _ _ _ Hloc Hranges Hsd Hne), Hloop.
  cbn [bind fst snd].
  destruct (cross_validate _ _ ws) as [ws'|] eqn:Hcross; [| discriminate].
  intros [= <- <- <- <-].
  assert (Hshape := cross_validate_warnings _ _ _ _ Hcross).
  split_and!.
  - intros e He. apply elem_of_app. right. by apply Heq.
  - intros e (k & Hk & ->)%errors_of_kind [He | He]%elem_of_app.
    + by destruct (top_level_not_sensor data _ q k He).
    + destruct (Hes _ He) as [? | (q' & Hq' & Hne' & He')]; [done |].
      apply raised_errors_kind in He' as (k' & Hk' & _ & Heq').
      rewrite (shipped_names _ _ Hranges) in Hq'.
      by destruct (sensor_code_eq _ _ _ _ Hq Hq' Hk Hk' Heq') as [-> _].
  - intros w Hw. destruct Hshape as [-> | (a & b & ->)]; [by apply Hwq |].
    apply elem_of_app. left. by apply Hwq.
  - intros w (k & Hk & ->)%raised_warnings_kind Hw.
    assert (Hws' : sensor_warning q k ∈ ws).
    { destruct Hshape as [-> | (a & b & ->)]; [done |].
      apply elem_of_app in Hw as [Hw | Hw%list_elem_of_singleton]; [done |].
      unfold sensor_warning in Hw. discriminate. }
    destruct (Hws _ Hws') as [? | (q' & Hq' & Hne' & Hw')]; [done |].
    apply raised_warnings_kind in Hw' as (k' & Hk' & Heq').
    apply sensor_warning_inj in Heq'.
    rewrite (shipped_names _ _ Hranges) in Hq'.
    by destruct (sensor_code_eq _ _ _ _ Hq Hq' Hk Hk' Heq') as [-> _].
  - done.
Qed.

(** X4. A quantity whose value is an int or a float inside the
    quantity's range leaves no trace in what [validate_record] returns:
    none of the quantity's error codes and none of its warning codes. *)
Theorem in_range_value_is_clean :
  forall (data : reading) (loc : string) (ranges : list (string * (pynum * pynum)))
         (q : string) (lo hi : pynum) (d : gmap string pyval) (v : pyval) (x : pynum)
         (st : status) (errors : list string) (warnings : list fstring) (data' : reading),
    loc_id data = Some loc ->
    assoc loc EXPECTED_RANGES_PER_LOCATION = Some ranges ->
    (q, (lo, hi)) ∈ ranges ->
    sensor_data data = Some (PDict d) ->
    d !! q = Some v ->
    as_num v = Some x ->
    in_range lo hi x = true ->
    validate_record data = Return (st, errors, warnings, data') ->
    (forall e, e ∈ errors_of q -> e ∉ errors)
    /\ (forall w, w ∈ raised_warnings q -> w ∉ warnings).
Proof.
  intros data loc ranges q lo hi d v x st errors warnings data'
    Hloc Hranges Hin Hsd Hv Hnum Hx Hret.
  pose proof (lookup_Some_nonempty _ _ _ Hv) as Hne.
  pose proof (band_clear_entry _ _ _ _ (shipped_band_clear _ _ Hranges) Hin) as Hband.
  assert (Hclear : range_clear (q, (lo, hi)) = true).
  { pose proof (shipped_range_clear _ _ Hranges) as Hall.
    rewrite forallb_forall in Hall. apply Hall. by apply list_elem_of_In. }
  destruct (validate_record_focus data loc ranges q lo hi d [] [] st errors warnings data'
              Hloc Hranges Hin Hsd Hne) as (_ & Herr & _ & Hwarn & _); [| done |].
  { intros d1 errs1 warns1 Hd1. rewrite !app_nil_r.
    apply (validate_sensor_in_range q lo hi d1 v x); try done. by rewrite Hd1. }
  split.
  - intros e He Hin'. exact (proj1 (elem_of_nil e) (Herr e He Hin')).
  - intros w Hw Hin'. exact (proj1 (elem_of_nil w) (Hwarn w Hw Hin')).
Qed.

Lemma in_range_value_is_clean_witness :
  (forall e, e ∈ errors_of "humidity" -> e ∉ ([] : list string))
  /\ (forall w, w ∈ raised_warnings "humidity" -> w ∉ ([] : list fstring)).
Proof.
  apply (in_range_value_is_clean healthy_reading "loc_1"
           (default [] (assoc "loc_1" EXPECTED_RANGES_PER_LOCATION))
           "humidity" (NInt 30) (NInt 90)
           healthy_sensors (PInt 60) (NInt 60) VALID [] [] healthy_reading).
  - reflexivity.
  - reflexivity.
  - apply list_elem_of_further, list_elem_of_here.
  - reflexivity.
  - vm_compute. reflexivity.
  - reflexivity.
  - vm_compute. reflexivity.
  - vm_compute. reflexivity.
Defined.

(** X5. A quantity whose value is an int or a float that is no
    sentinel and lies outside the range widened by the buffer makes the
    record INVALID: the errors hold the quantity's [_out_of_range] code
    and no other code of the quantity, and the warnings hold none. *)
Theorem beyond_buffer_is_out_of_range :
  forall (data : reading) (loc : string) (ranges : list (string * (pynum * pynum)))
         (q : string) (lo hi : pynum) (d : gmap string pyval) (v : pyval) (x : pynum)
         (st : status) (errors : list string) (warnings : list fstring) (data' : reading),
    loc_id data = Some loc ->
    assoc loc EXPECTED_RANGES_PER_LOCATION = Some ranges ->
    (q, (lo, hi)) ∈ ranges ->
    sensor_data data = Some (PDict d) ->
    d !! q = Some v ->
    as_num v = Some x ->
    in_atoms v extreme_values = false ->
    beyond_buffer lo hi x ->
    validate_record data = Return (st, errors, warnings, data') ->
    st = INVALID
    /\ sensor_error q "_out_of_range" ∈ errors
    /\ (forall e, e ∈ errors_of q -> e ∈ errors -> e = sensor_error q "_out_of_range")
    /\ (forall w, w ∈ raised_warnings q -> w ∉ warnings).
Proof.
  intros data loc ranges q lo hi d v x st errors warnings data'
    Hloc Hranges Hin Hsd Hv Hnum Hext Hfar Hret.
  pose proof (lookup_Some_nonempty _ _ _ Hv) as Hne.
  destruct (validate_record_focus data loc ranges q lo hi d
              [sensor_error q "_out_of_range"] [] st errors warnings data'
              Hloc Hranges Hin Hsd Hne) as (Hmine & Herr & _ & Hwarn & Hst); [| done |].
  { intros d1 errs1 warns1 Hd1. rewrite !app_nil_r.
    apply (validate_sensor_beyond q lo hi d1 v x); try done. by rewrite Hd1. }
  specialize (Hmine _ (list_elem_of_here _ _)).
  split_and!.
  - rewrite Hst. destruct errors; [by apply elem_of_nil in Hmine | done].
  - done.
  - intros e He Hin'. by apply list_elem_of_singleton, Herr.
  - intros w Hw Hin'. exact (proj1 (elem_of_nil w) (Hwarn w Hw Hin')).
Qed.

Lemma beyond_buffer_is_out_of_range_witness :
  INVALID = INVALID
  /\ sensor_error "temperature" "_out_of_range" ∈ [sensor_error "temperature" "_out_of_range"]
  /\ (forall e, e ∈ errors_of "temperature" ->
        e ∈ [sensor_error "temperature" "_out_of_range"] ->
        e = sensor_error "temperature" "_out_of_range")
  /\ (forall w, w ∈ raised_warnings "temperature" ->
        w ∉ [[Lit "temperature_mismatch:"; Val (PInt 70); Lit "vs"; Val (flt 300 (-1))]]).
Proof.
  apply (beyond_buffer_is_out_of_range scorching_reading "loc_1"
           (default [] (assoc "loc_1" EXPECTED_RANGES_PER_LOCATION)) "temperature"
           (NInt 10) (NInt 50) (<["temperature" := PInt 70]> healthy_sensors)
           (PInt 70) (NInt 70) INVALID _ _ scorching_reading).
  - reflexivity.
  - reflexivity.
  - apply list_elem_of_here.
  - reflexivity.
  - vm_compute. reflexivity.
  - reflexivity.
  - vm_compute. reflexivity.
  - split; [vm_compute; reflexivity |].
    eexists _, _. split; vm_compute; reflexivity.
  - vm_compute. reflexivity.
Defined.

(** ** The exceptions of [validate_record] *)

(** The cross-check raises only on the subtraction or on a weather
    value that is no dict: never a KeyError, never an AttributeError. *)
Lemma cross_validate_raise d' data ws e :
  cross_validate (PDict d') data ws = Raise e ->
  (e = TypeError \/ e = OverflowError)
  /\ is_Some (d' !! "temperature")
  /\ exists wd, weather_data data = Some wd
                /\ forall dw, wd = PDict dw -> is_Some (dw !! "temperature_2m").
Proof.
  unfold cross_validate. cbn [py_in bind].
  destruct (bool_decide (is_Some (d' !! "temperature"))) eqn:Htemp; [| discriminate].
  apply bool_decide_eq_true in Htemp.
  destruct (weather_data data) as [wd|]; [| discriminate].
  intros Hraise.
  assert (Hgoal : (e = TypeError \/ e = OverflowError)
                  /\ forall dw, wd = PDict dw -> is_Some (dw !! "temperature_2m")).
  2:{ destruct Hgoal as [He Hwd]. split_and!; [done | done |]. by exists wd. }
  destruct Htemp as [t Ht].
  destruct wd as [|b|n|f|s|l|dw]; cbn [py_in bind] in Hraise.
  - injection Hraise as <-. split; [by left | discriminate].
  - injection Hraise as <-. split; [by left | discriminate].
  - injection Hraise as <-. split; [by left | discriminate].
  - injection Hraise as <-. split; [by left | discriminate].
  - destruct (contains _ s); [| discriminate].
    cbn [py_getitem bind] in Hraise. rewrite Ht in Hraise. cbn [bind] in Hraise.
    injection Hraise as <-. split; [by left | discriminate].
  - destruct (existsb _ l); [| discriminate].
    cbn [py_getitem bind] in Hraise. rewrite Ht in Hraise. cbn [bind] in Hraise.
    injection Hraise as <-. split; [by left | discriminate].
  - destruct (bool_decide (is_Some (dw !! "temperature_2m"))) eqn:Hw; [| discriminate].
    apply bool_decide_eq_true in Hw. split; [| by intros ? [= <-]].
    destruct Hw as [u Hu].
    cbn [py_getitem bind] in Hraise. rewrite Ht, Hu in Hraise. cbn [bind] in Hraise.
    unfold py_sub in Hraise.
    destruct (as_num t) as [x|]; [| injection Hraise as <-; by left].
    destruct (as_num u) as [y|]; [| injection Hraise as <-; by left].
    unfold num_sub, num_arith, to_float in Hraise.
    destruct x as [x|x], y as [y|y]; cbn [bind] in Hraise.
    + destruct (num_gt _ _); discriminate.
    + destruct (float_of_int x); cbn [bind] in Hraise.
      * destruct (num_gt _ _); discriminate.
      * injection Hraise as <-. by right.
    + destruct (float_of_int y); cbn [bind] in Hraise.
      * destruct (num_gt _ _); discriminate.
      * injection Hraise as <-. by right.
    + destruct (num_gt _ _); discriminate.
Qed.

Lemma configured_not_empty ranges :
  assoc "" EXPECTED_RANGES_PER_LOCATION = Some ranges -> False.
Proof. vm_compute. discriminate. Qed.

(** Where an exception of [validate_record] comes from. *)
Lemma validate_record_raise_cases data e :
  validate_record data = Raise e ->
  exists loc ranges sd,
    loc_id data = Some loc
    /\ assoc loc EXPECTED_RANGES_PER_LOCATION = Some ranges
    /\ sensor_data data = Some sd
    /\ truthy sd = true
    /\ ((e = AttributeError /\ forall d, sd <> PDict d)
        \/ ((e = TypeError \/ e = OverflowError)
            /\ exists d wd,
                 sd = PDict d
                 /\ is_Some (d !! "temperature")
                 /\ weather_data data = Some wd
                 /\ forall dw, wd = PDict dw -> is_Some (dw !! "temperature_2m"))).
Proof.
  unfold validate_record.
  destruct (loc_id data) as [loc|] eqn:Hloc; [| discriminate].
  destruct (String.eqb loc ""); [discriminate |].
  destruct (assoc loc EXPECTED_RANGES_PER_LOCATION) as [ranges|] eqn:Hranges; [| discriminate].
  destruct (negb (truthy _)) eqn:Htruthy; [discriminate |].
  apply negb_false_iff in Htruthy.
  destruct (sensor_data data) as [sd|] eqn:Hsd; cbn [default from_option id] in *.
  2:{ cbn in Htruthy. by rewrite bool_decide_eq_true_2 in Htruthy. }
  intros Hraise. exists loc, ranges, sd. split_and!; try done.
  assert (Hnames : ranges <> []).
  { intros ->. by apply shipped_names in Hranges. }
  assert (Hdict : (exists d, sd = PDict d) \/ forall d, sd <> PDict d).
  { destruct sd; try (by right); left; eauto. }
  destruct Hdict as [[d ->] | Hsd'].
  2:{ left. rewrite (validate_sensors_not_dict _ _ _ _ Hnames Hsd') in Hraise.
      by injection Hraise as <-. }
  right.
  assert (Hnodup : NoDup (map fst ranges)).
  { rewrite (shipped_names _ _ Hranges). apply sensor_names_nodup. }
  destruct (validate_sensors_frame ranges (shipped_band_clear _ _ Hranges)
              d (missing_top_level_keys data) [])
    as (d' & es & ws & Hloop & _ & _ & _).
  rewrite Hloop in Hraise. cbn [bind] in Hraise.
  destruct (cross_validate _ _ _) as [ws'|e'] eqn:Hcross; [discriminate |].
  injection Hraise as ->.
  apply cross_validate_raise in Hcross as (He & Htemp & wd & Hwd & Hkey).
  split; [done |]. exists d, wd. split_and!; try done.
  destruct (validate_sensors_stored ranges (shipped_band_clear _ _ Hranges) Hnodup
              _ _ _ _ _ _ Hloop) as [Hmap _].
  destruct (Hmap "temperature") as [<- | (_ & s & f & -> & _)]; [done | eauto].
Qed.

(** X6. [validate_record] raises an AttributeError exactly when the
    location is configured and [sensor_data] is a value that counts as
    true and is no dict: the loop then calls [get] on it. *)
Theorem attribute_error_iff_sensor_data_is_no_dict :
  forall data : reading,
    validate_record data = Raise AttributeError
    <-> exists loc ranges sd,
          loc_id data = Some loc
          /\ assoc loc EXPECTED_RANGES_PER_LOCATION = Some ranges
          /\ sensor_data data = Some sd
          /\ truthy sd = true
          /\ forall d, sd <> PDict d.
Proof.
  intros data. split.
  - intros (loc & ranges & sd & Hloc & Hranges & Hsd & Htruthy & Hcase)%validate_record_raise_cases.
    exists loc, ranges, sd. split_and!; try done.
    destruct Hcase as [[_ Hno] | [[He | He] _]]; [done | discriminate | discriminate].
  - intros (loc & ranges & sd & Hloc & Hranges & Hsd & Htruthy & Hno).
    unfold validate_record. rewrite Hloc.
    destruct (String.eqb_spec loc "") as [-> | _].
    { by destruct (configured_not_empty _ Hranges). }
    rewrite Hranges, Hsd. cbn [default from_option id]. rewrite Htruthy. cbn [negb].
    rewrite validate_sensors_not_dict; [done | | done].
    intros ->. by apply shipped_names in Hranges.
Qed.

(** X7. Any other exception of [validate_record] is a TypeError or an
    OverflowError (never a KeyError) and comes from the cross-check:
    the sensor map has a temperature entry, and [weather_data] is
    present and is either no dict or a dict with a [temperature_2m]
    entry. *)
Theorem other_exceptions_come_from_the_cross_check :
  forall (data : reading) (e : exn),
    validate_record data = Raise e ->
    e <> AttributeError ->
    (e = TypeError \/ e = OverflowError)
    /\ exists d wd,
         sensor_data data = Some (PDict d)
         /\ is_Some (d !! "temperature")
         /\ weather_data data = Some wd
         /\ forall dw, wd = PDict dw -> is_Some (dw !! "temperature_2m").
Proof.
  intros data e (loc & ranges & sd & _ & _ & Hsd & _ & Hcase)%validate_record_raise_cases Hne.
  destruct Hcase as [[-> _] | [He (d & wd & -> & Htemp & Hwd & Hkey)]]; [done |].
  split; [done |]. by exists d, wd.
Qed.

Lemma other_exceptions_come_from_the_cross_check_witness :
  (TypeError = TypeError \/ TypeError = OverflowError)
  /\ exists d wd,
       sensor_data textual_sentinel_reading = Some (PDict d)
       /\ is_Some (d !! "temperature")
       /\ weather_data textual_sentinel_reading = Some wd
       /\ forall dw, wd = PDict dw -> is_Some (dw !! "temperature_2m").
Proof.
  apply (other_exceptions_come_from_the_cross_check textual_sentinel_reading TypeError).
  - vm_compute. reflexivity.
  - discriminate.
Defined.

(** X8. Take a reading of a configured location whose sensor map is
    not empty and gives a quantity of the location's range table a
    sentinel value, or no value at all. The sensor loop returns, and the
    state it leaves holds that quantity's [_extreme_value] error and no
    warning of the quantity. What [validate_record] does is then settled
    by the temperature cross-check on that state: if the cross-check
    returns, [validate_record] returns INVALID with these errors and the
    cross-check's warnings, none of them about the quantity; if it
    raises, [validate_record] raises the same exception. Without
    [weather_data] the cross-check returns. *)
Theorem sentinel_value_is_flagged :
  forall (data : reading) (loc : string) (ranges : list (string * (pynum * pynum)))
         (q : string) (lo hi : pynum) (d : gmap string pyval),
    loc_id data = Some loc ->
    assoc loc EXPECTED_RANGES_PER_LOCATION = Some ranges ->
    (q, (lo, hi)) ∈ ranges ->
    sensor_data data = Some (PDict d) ->
    d <> ∅ ->
    in_atoms (default PNone (d !! q)) extreme_values = true ->
    exists d' es ws,
      validate_sensors ranges (PDict d, missing_top_level_keys data, [])
      = Return (PDict d', missing_top_level_keys data ++ es, ws)
      /\ sensor_error q "_extreme_value" ∈ es
      /\ (forall w, w ∈ raised_warnings q -> w ∉ ws)
      /\ match cross_validate (PDict d') (set_sensor_data (PDict d') data) ws with
         | Return warnings =>
             validate_record data
             = Return (INVALID, missing_top_level_keys data ++ es, warnings,
                       set_sensor_data (PDict d') data)
             /\ (forall w, w ∈ raised_warnings q -> w ∉ warnings)
         | Raise e => validate_record data = Raise e
         end
      /\ (weather_data data = None ->
          cross_validate (PDict d') (set_sensor_data (PDict d') data) ws = Return ws).
Proof.
  intros data loc ranges q lo hi d Hloc Hranges Hin Hsd Hne Hext.
  pose proof (shipped_name _ _ _ _ Hranges Hin) as Hq.
  assert (Hnodup : NoDup (map fst ranges)).
  { rewrite (shipped_names _ _ Hranges). apply sensor_names_nodup. }
  destruct (validate_sensors_focus ranges q lo hi d [sensor_error q "_extreme_value"] []
              (missing_top_level_keys data) []
              (shipped_band_clear _ _ Hranges) Hnodup Hin)
    as (d' & es & ws & Hloop & Heq & _ & _ & Hws).
  { intros d1 errs1 warns1 Hd1. rewrite app_nil_r.
    apply validate_sensor_extreme. by rewrite Hd1. }
  rewrite app_nil_l in Hloop.
  rewrite (validate_record_unfold _ _ _ _ Hloc Hranges Hsd Hne), Hloop.
  cbn [bind fst snd].
  assert (Hmine : sensor_error q "_extreme_value" ∈ es)
    by apply Heq, list_elem_of_here.
  assert (Hquiet : forall w, w ∈ raised_warnings q -> w ∉ ws).
  { intros w (k & Hk & ->)%raised_warnings_kind Hw.
    destruct (Hws _ Hw) as [?%elem_of_nil | (q' & Hq' & Hne' & Hw')]; [done |].
    apply raised_warnings_kind in Hw' as (k' & Hk' & Heq').
    apply sensor_warning_inj in Heq'.
    rewrite (shipped_names _ _ Hranges) in Hq'.
    destruct (sensor_code_eq _ _ _ _ Hq Hq' Hk Hk' Heq') as [-> _]. done. }
  exists d', es, ws. split_and!; [done | done | done | | ].
  - destruct (cross_validate _ _ ws) as [ws'|] eqn:Hcross; [| done].
    assert (Hshape := cross_validate_warnings _ _ _ _ Hcross).
    split.
    + f_equal. f_equal. f_equal.
      destruct (missing_top_level_keys data ++ es) as [|e0 l] eqn:Hl; [| done].
      apply app_eq_nil in Hl as [_ ->]. by apply elem_of_nil in Hmine.
    + intros w Hraised Hw.
      destruct Hshape as [-> | (a & b & ->)]; [by apply (Hquiet w) |].
      apply elem_of_app in Hw as [Hw | Hw%list_elem_of_singleton];
        [by apply (Hquiet w) |].
      apply raised_warnings_kind in Hraised as (k & _ & ->).
      unfold sensor_warning in Hw. discriminate.
  - apply cross_validate_without_weather.
Qed.

(** The reading without its nitrogen value is such a record. *)
Lemma sentinel_value_is_flagged_witness :
  exists d' es ws,
    validate_sensors (default [] (assoc "loc_1" EXPECTED_RANGES_PER_LOCATION))
      (PDict (delete "nitrogen" healthy_sensors),
       missing_top_level_keys missing_nitrogen_reading, [])
    = Return (PDict d', missing_top_level_keys missing_nitrogen_reading ++ es, ws)
    /\ sensor_error "nitrogen" "_extreme_value" ∈ es
    /\ (forall w, w ∈ raised_warnings "nitrogen" -> w ∉ ws)
    /\ match cross_validate (PDict d') (set_sensor_data (PDict d') missing_nitrogen_reading)
               ws with
       | Return warnings =>
           validate_record missing_nitrogen_reading
           = Return (INVALID, missing_top_level_keys missing_nitrogen_reading ++ es,
                     warnings, set_sensor_data (PDict d') missing_nitrogen_reading)
           /\ (forall w, w ∈ raised_warnings "nitrogen" -> w ∉ warnings)
       | Raise e => validate_record missing_nitrogen_reading = Raise e
       end
    /\ (weather_data missing_nitrogen_reading = None ->
        cross_validate (PDict d') (set_sensor_data (PDict d') missing_nitrogen_reading) ws
        = Return ws).
Proof.
  apply (sentinel_value_is_flagged missing_nitrogen_reading "loc_1"
           (default [] (assoc "loc_1" EXPECTED_RANGES_PER_LOCATION))
           "nitrogen" (NInt 80) (NInt 150) (delete "nitrogen" healthy_sensors)).
  - reflexivity.
  - reflexivity.
  - do 3 apply list_elem_of_further. apply list_elem_of_here.
  - reflexivity.
  - apply (lookup_Some_nonempty _ "ph" (flt 70 (-1))). vm_compute. reflexivity.
  - vm_compute. reflexivity.
Defined.

Example listed_sensors_raise :
  validate_record listed_sensors_reading = Raise AttributeError.
Proof. vm_compute. reflexivity. Qed.

(** ** The texts [float()] reads *)

(** Decimal digits of any script are read as digits, blanks and
    underscores between digits are passed over, and the separators 28 to
    31, blanks for [str.strip], are rejected. *)
Example arabic_indic_digits_are_read :
  float_of_string "٦٠" = Some (float_of_decimal false 60 0)
  /\ float_of_value (PStr "٣٨") = Some (float_of_decimal false 38 0).
Proof. split; vm_compute; reflexivity. Qed.

Example blanks_and_underscores_are_passed_over :
  float_of_string " 1_0.5 " = Some (float_of_decimal false 105 (-1)).
Proof. vm_compute. reflexivity. Qed.

Example file_separator_is_rejected :
  float_of_string (String (Ascii.ascii_of_nat 28) "1") = None.
Proof. vm_compute. reflexivity. Qed.

(** ** A value that is no number and does not read as one *)

Lemma validate_sensor_unreadable q lo hi d v errs warns :
  band_clear (q, (lo, hi)) = true ->
  d !! q = Some v ->
  in_atoms v extreme_values = false ->
  checked_number v = None ->
  validate_sensor (q, (lo, hi)) (PDict d, errs, warns)
  = Return (PDict d, errs ++ [sensor_error q "_invalid_type"], warns).
Proof.
  intros Hband Hv Hext Hnone.
  destruct (band_clear_returns _ _ _ Hband) as (low & high & Hb).
  rewrite (validate_sensor_cases _ _ _ _ _ _ _ _ Hb). cbv zeta.
  rewrite Hv. cbn [default from_option id]. by rewrite Hext, Hnone.
Qed.

(** X9. A quantity whose value is no sentinel, no int or float, and
    nothing [float()] accepts (a text that is no number, a list, a dict)
    makes the record INVALID: the errors hold the quantity's
    [_invalid_type] code and no other code of the quantity, and the
    warnings hold none. *)
Theorem unreadable_value_is_invalid_type :
  forall (data : reading) (loc : string) (ranges : list (string * (pynum * pynum)))
         (q : string) (lo hi : pynum) (d : gmap string pyval) (v : pyval)
         (st : status) (errors : list string) (warnings : list fstring) (data' : reading),
    loc_id data = Some loc ->
    assoc loc EXPECTED_RANGES_PER_LOCATION = Some ranges ->
    (q, (lo, hi)) ∈ ranges ->
    sensor_data data = Some (PDict d) ->
    d !! q = Some v ->
    in_atoms v extreme_values = false ->
    as_num v = None ->
    float_of_value v = None ->
    validate_record data = Return (st, errors, warnings, data') ->
    st = INVALID
    /\ sensor_error q "_invalid_type" ∈ errors
    /\ (forall e, e ∈ errors_of q -> e ∈ errors -> e = sensor_error q "_invalid_type")
    /\ (forall w, w ∈ raised_warnings q -> w ∉ warnings).
Proof.
  intros data loc ranges q lo hi d v st errors warnings data'
    Hloc Hranges Hin Hsd Hv Hext Hnum Hfloat Hret.
  pose proof (lookup_Some_nonempty _ _ _ Hv) as Hne.
  pose proof (band_clear_entry _ _ _ _ (shipped_band_clear _ _ Hranges) Hin) as Hband.
  destruct (validate_record_focus data loc ranges q lo hi d
              [sensor_error q "_invalid_type"] [] st errors warnings data'
              Hloc Hranges Hin Hsd Hne) as (Hmine & Herr & _ & Hwarn & Hst); [| done |].
  { intros d1 errs1 warns1 Hd1. rewrite !app_nil_r.
    apply (validate_sensor_unreadable q lo hi d1 v); try done; [by rewrite Hd1 |].
    unfold checked_number. by rewrite Hnum, Hfloat. }
  specialize (Hmine _ (list_elem_of_here _ _)).
  split_and!.
  - rewrite Hst. destruct errors; [by apply elem_of_nil in Hmine | done].
  - done.
  - intros e He Hin'. by apply list_elem_of_singleton, Herr.
  - intros w Hw Hin'. exact (proj1 (elem_of_nil w) (Hwarn w Hw Hin')).
Qed.

Lemma unreadable_value_is_invalid_type_witness :
  INVALID = INVALID
  /\ sensor_error "humidity" "_invalid_type" ∈ [sensor_error "humidity" "_invalid_type"]
  /\ (forall e, e ∈ errors_of "humidity" ->
        e ∈ [sensor_error "humidity" "_invalid_type"] ->
        e = sensor_error "humidity" "_invalid_type")
  /\ (forall w, w ∈ raised_warnings "humidity" -> w ∉ ([] : list fstring)).
Proof.
  apply (unreadable_value_is_invalid_type unreadable_humidity_reading "loc_1"
           (default [] (assoc "loc_1" EXPECTED_RANGES_PER_LOCATION)) "humidity"
           (NInt 30) (NInt 90) (<["humidity" := PStr "wet"]> healthy_sensors)
           (PStr "wet") INVALID _ _ unreadable_humidity_reading).
  - reflexivity.
  - reflexivity.
  - apply list_elem_of_further, list_elem_of_here.
  - reflexivity.
  - vm_compute. reflexivity.
  - vm_compute. reflexivity.
  - reflexivity.
  - vm_compute. reflexivity.
  - vm_compute. reflexivity.
Defined.

(** ** The cross-check with the weather service *)

(** X10. When the sensor temperature and the weather service's
    [temperature_2m] are both ints or floats whose difference can be
    computed, [validate_record] returns, and its warnings hold the
    [temperature_mismatch] of the two values exactly when the
    difference exceeds 15 in absolute value; they hold no mismatch of
    other values. *)
Theorem temperature_cross_check :
  forall (data : reading) (loc : string) (ranges : list (string * (pynum * pynum)))
         (d wd : gmap string pyval) (v u : pyval) (x y diff : pynum),
    loc_id data = Some loc ->
    assoc loc EXPECTED_RANGES_PER_LOCATION = Some ranges ->
    sensor_data data = Some (PDict d) ->
    d !! "temperature" = Some v ->
    as_num v = Some x ->
    weather_data data = Some (PDict wd) ->
    wd !! "temperature_2m" = Some u ->
    as_num u = Some y ->
    num_sub x y = Return diff ->
    exists st errors warnings data',
      validate_record data = Return (st, errors, warnings, data')
      /\ ([Lit "temperature_mismatch:"; Val v; Lit "vs"; Val u] ∈ warnings
          <-> num_gt (num_abs diff) (NInt 15) = true)
      /\ (forall a b, [Lit "temperature_mismatch:"; Val a; Lit "vs"; Val b] ∈ warnings ->
            a = v /\ b = u).
Proof.
  intros data loc ranges d wd v u x y diff Hloc Hranges Hsd Hv Hx Hwd Hu Hy Hdiff.
  pose proof (lookup_Some_nonempty _ _ _ Hv) as Hne.
  assert (Hnodup : NoDup (map fst ranges)).
  { rewrite (shipped_names _ _ Hranges). apply sensor_names_nodup. }
  destruct (validate_record_loop data loc ranges d Hloc Hranges Hsd Hne)
    as (d' & es & ws & Hloop & _ & _ & Hws & ->).
  destruct (validate_sensors_stored ranges (shipped_band_clear _ _ Hranges) Hnodup
              _ _ _ _ _ _ Hloop) as [Hmap _].
  assert (Hv' : d' !! "temperature" = Some v).
  { destruct (Hmap "temperature") as [-> | (_ & s & f & Hs & _)]; [done |].
    rewrite Hv in Hs. injection Hs as ->. discriminate. }
  assert (Hplain : forall a b, [Lit "temperature_mismatch:"; Val a; Lit "vs"; Val b] ∉ ws).
  { intros a b Hin. destruct (Hws _ Hin) as (q & _ & Hq).
    apply raised_warnings_kind in Hq as (k & _ & Hq). unfold sensor_warning in Hq.
    discriminate. }
  unfold cross_validate. cbn [py_in bind weather_data set_sensor_data].
  rewrite Hwd. cbn [py_in bind].
  rewrite !bool_decide_eq_true_2 by (rewrite ?Hv', ?Hu; eauto).
  cbn [py_getitem bind]. rewrite Hv', Hu. cbn [bind].
  unfold py_sub. rewrite Hx, Hy, Hdiff. cbn [bind].
  destruct (num_gt (num_abs diff) (NInt 15)) eqn:Hgt.
  - eexists _, _, _, _. split; [reflexivity |]. split.
    + split; [done |]. intros _. apply elem_of_app. right. apply list_elem_of_here.
    + intros a b [Hin | Hin%list_elem_of_singleton]%elem_of_app.
      * by destruct (Hplain a b).
      * by injection Hin as -> ->.
  - eexists _, _, _, _. split; [reflexivity |]. split.
    + split; [| done]. intros Hin. by destruct (Hplain v u).
    + intros a b Hin. by destruct (Hplain a b).
Qed.

Lemma temperature_cross_check_witness :
  exists st errors warnings data',
    validate_record near_threshold_reading = Return (st, errors, warnings, data')
    /\ ([Lit "temperature_mismatch:"; Val (PInt 9); Lit "vs"; Val (flt 300 (-1))] ∈ warnings
        <-> num_gt (num_abs (NFloat (float_of_decimal true 21 0))) (NInt 15) = true)
    /\ (forall a b, [Lit "temperature_mismatch:"; Val a; Lit "vs"; Val b] ∈ warnings ->
          a = PInt 9 /\ b = flt 300 (-1)).
Proof.
  apply (temperature_cross_check near_threshold_reading "loc_1"
           (default [] (assoc "loc_1" EXPECTED_RANGES_PER_LOCATION))
           (<["temperature" := PInt 9]> healthy_sensors)
           {[ "temperature_2m" := flt 300 (-1) ]}
           (PInt 9) (flt 300 (-1)) (NInt 9) (NFloat (float_of_decimal false 300 (-1)))).
  - reflexivity.
  - reflexivity.
  - reflexivity.
  - vm_compute. reflexivity.
  - reflexivity.
  - reflexivity.
  - vm_compute. reflexivity.
  - reflexivity.
  - vm_compute. reflexivity.
Defined.

End ValidatorMore.

(* ===================================================================== *)
(** * More on the alert derivation *)
(* ===================================================================== *)

Module AlertsMore.
Import Py Validator Alerts Notions Scenarios ValidatorSpec AlertsSpec ValidatorMore.

(** ** The order of numbers *)

Lemma xcompare_le_not_lt x y z :
  (xcompare x y = Some Lt \/ xcompare x y = Some Eq) ->
  (xcompare y z = Some Lt \/ xcompare y z = Some Eq) ->
  xcompare z x <> Some Lt.
Proof.
  destruct x as [| |p|], y as [| |q|], z as [| |r|]; simpl;
    intros [H1 | H1] [H2 | H2]; try discriminate; intros [= H3];
    injection H1 as H1; injection H2 as H2.
  all: assert (Hpq : (p <= q)%Q) by (apply Qle_alt; rewrite H1; discriminate).
  all: assert (Hqr : (q <= r)%Q) by (apply Qle_alt; rewrite H2; discriminate).
  all: apply Qlt_alt in H3.
  all: apply (Qlt_not_le _ _ H3); by apply (Qle_trans _ q).
Qed.

Lemma num_le_not_lt a b c :
  num_le a b = true -> num_le b c = true -> num_lt c a = false.
Proof.
  unfold num_le, num_lt, num_compare. intros Hab Hbc.
  pose proof (xcompare_le_not_lt (num_val a) (num_val b) (num_val c)) as H.
  destruct (xcompare (num_val c) (num_val a)) as [[]|]; try done.
  destruct H; try done.
  - destruct (xcompare (num_val a) (num_val b)) as [[]|]; try done; auto.
  - destruct (xcompare (num_val b) (num_val c)) as [[]|]; try done; auto.
Qed.

(** A number that passed the range check, or the check of the range
    widened by the buffer, is not below a floor under both. *)
Lemma tolerated_not_below floor q lo hi x :
  floor_clear floor (q, (lo, hi)) = true ->
  tolerated lo hi x ->
  num_lt x floor = false.
Proof.
  unfold floor_clear, tolerated, in_range.
  destruct (threshold_band lo hi) as [[low high]|]; [| done].
  intros [Hlo Hlow]%andb_prop [[Hx _]%andb_prop | (low' & high' & [= <- <-] & [Hx _]%andb_prop)].
  - by apply (num_le_not_lt _ lo).
  - by apply (num_le_not_lt _ low).
Qed.

Lemma assoc_elem {A : Type} k (l : list (string * A)) a :
  assoc k l = Some a -> (k, a) ∈ l.
Proof.
  induction l as [|[k' a'] l IH]; cbn [assoc]; [done |].
  destruct (String.eqb_spec k k') as [<- | _].
  - intros [= <-]. apply list_elem_of_here.
  - intros H. apply list_elem_of_further. by apply IH.
Qed.

Lemma shipped_floors loc ranges :
  assoc loc EXPECTED_RANGES_PER_LOCATION = Some ranges ->
  temperature_clear ranges = true /\ forallb (nutrient_clear ranges) nutrients = true.
Proof.
  unfold EXPECTED_RANGES_PER_LOCATION. simpl.
  repeat (destruct (String.eqb loc _); [intros [= <-]; split; vm_compute; reflexivity |]).
  discriminate.
Qed.

(** ** The rules for VALID and WARNING records, one by one *)

Lemma temperature_alerts_kinds loc sd l :
  temperature_alerts loc sd = Return l ->
  one_of [("High Temperature", "HIGH"); ("Low Temperature", "HIGH")] l.
Proof.
  unfold temperature_alerts.
  destruct (py_get sd "temperature") as [v|]; cbn [bind]; [| discriminate].
  destruct (as_num v); [| intros [= <-]; by left].
  destruct (num_gt _ _).
  { destruct (fixed _ _ _); cbn [bind]; [| discriminate].
    intros [= <-]. right. eexists. split; [done |]. apply list_elem_of_here. }
  destruct (num_lt _ _); [| intros [= <-]; by left].
  destruct (fixed _ _ _); cbn [bind]; [| discriminate].
  intros [= <-]. right. eexists. split; [done |].
  apply list_elem_of_further, list_elem_of_here.
Qed.

Lemma water_level_alerts_kinds loc sd l :
  water_level_alerts loc sd = Return l ->
  one_of [("Low Water Level", "HIGH"); ("High Water Level", "MEDIUM")] l.
Proof.
  unfold water_level_alerts.
  destruct (py_get sd "water_level") as [v|]; cbn [bind]; [| discriminate].
  destruct (as_num v); [| intros [= <-]; by left].
  destruct (num_lt _ _).
  { destruct (fixed _ _ _); cbn [bind]; [| discriminate].
    intros [= <-]. right. eexists. split; [done |]. apply list_elem_of_here. }
  destruct (num_gt _ _); [| intros [= <-]; by left].
  destruct (fixed _ _ _); cbn [bind]; [| discriminate].
  intros [= <-]. right. eexists. split; [done |].
  apply list_elem_of_further, list_elem_of_here.
Qed.

Lemma ph_alerts_kinds loc sd l :
  ph_alerts loc sd = Return l ->
  one_of [("Soil pH Warning", "HIGH"); ("Soil pH Warning", "MEDIUM")] l.
Proof.
  unfold ph_alerts.
  destruct (py_get sd "ph") as [v|]; cbn [bind]; [| discriminate].
  destruct (as_num v) as [x|]; [| intros [= <-]; by left].
  destruct (num_lt x (lit 60 (-1)) || num_gt x (lit 75 (-1))); [| intros [= <-]; by left].
  destruct (fixed _ _ _); cbn [bind]; [| discriminate].
  intros [= <-]. right. eexists. split; [done |]. unfold kind_of. cbn [alert_type alert_priority].
  destruct (num_lt x (lit 55 (-1)) || num_gt x (lit 80 (-1))).
  - apply list_elem_of_here.
  - apply list_elem_of_further, list_elem_of_here.
Qed.

Lemma nutrient_alerts_kinds loc sd nutrient l :
  nutrient_alerts loc sd nutrient = Return l ->
  one_of [("Low Nutrient", "MEDIUM")] l.
Proof.
  unfold nutrient_alerts.
  destruct (py_get sd nutrient) as [v|]; cbn [bind]; [| discriminate].
  destruct (as_num v); [| intros [= <-]; by left].
  destruct (lookup_or_raise loc _) as [ranges|]; cbn [bind]; [| discriminate].
  destruct (lookup_or_raise nutrient ranges) as [bounds|]; cbn [bind]; [| discriminate].
  destruct (num_mul _ _) as [floor|]; cbn [bind]; [| discriminate].
  destruct (num_lt _ _); [| intros [= <-]; by left].
  destruct (fixed _ _ _); cbn [bind]; [| discriminate].
  intros [= <-]. right. eexists. split; [done |]. apply list_elem_of_here.
Qed.

Lemma operational_alerts_split loc sd alerts :
  operational_alerts loc sd = Return alerts ->
  exists t w p n ph k,
    alerts = t ++ w ++ p ++ n ++ ph ++ k
    /\ temperature_alerts loc sd = Return t
    /\ water_level_alerts loc sd = Return w
    /\ ph_alerts loc sd = Return p
    /\ nutrient_alerts loc sd "nitrogen" = Return n
    /\ nutrient_alerts loc sd "phosphorus" = Return ph
    /\ nutrient_alerts loc sd "potassium" = Return k.
Proof.
  unfold operational_alerts.
  destruct (temperature_alerts loc sd) as [t|]; cbn [bind]; [| discriminate].
  destruct (water_level_alerts loc sd) as [w|]; cbn [bind]; [| discriminate].
  destruct (ph_alerts loc sd) as [p|]; cbn [bind]; [| discriminate].
  destruct (nutrient_alerts loc sd "nitrogen") as [n|]; cbn [bind]; [| discriminate].
  destruct (nutrient_alerts loc sd "phosphorus") as [ph|]; cbn [bind]; [| discriminate].
  destruct (nutrient_alerts loc sd "potassium") as [k|]; cbn [bind]; [| discriminate].
  intros [= <-]. by exists t, w, p, n, ph, k.
Qed.

Lemma one_of_length kinds l : one_of kinds l -> (length l <= 1)%nat.
Proof. intros [-> | (a & -> & _)]; cbn; lia. Qed.

Lemma one_of_kinds kinds l a : one_of kinds l -> a ∈ l -> kind_of a ∈ kinds.
Proof.
  intros [-> | (a' & -> & Hk)]; [by intros ?%elem_of_nil |].
  by intros ->%list_elem_of_singleton.
Qed.

Lemma one_of_weaken kinds kinds' l :
  (forall k, k ∈ kinds -> k ∈ kinds') -> one_of kinds l -> one_of kinds' l.
Proof. intros Hsub [-> | (a & -> & Hk)]; [by left | right; eauto]. Qed.

Lemma operational_alerts_kinds loc sd alerts :
  operational_alerts loc sd = Return alerts ->
  exists t w p n,
    alerts = t ++ w ++ p ++ n
    /\ one_of [("High Temperature", "HIGH"); ("Low Temperature", "HIGH")] t
    /\ one_of [("Low Water Level", "HIGH"); ("High Water Level", "MEDIUM")] w
    /\ one_of [("Soil pH Warning", "HIGH"); ("Soil pH Warning", "MEDIUM")] p
    /\ (length n <= 3)%nat
    /\ Forall (fun a => kind_of a = ("Low Nutrient", "MEDIUM")) n.
Proof.
  intros Hop.
  apply operational_alerts_split in Hop
    as (t & w & p & n & ph & k & -> & Ht & Hw & Hp & Hn & Hph & Hk).
  exists t, w, p, (n ++ ph ++ k).
  apply temperature_alerts_kinds in Ht. apply water_level_alerts_kinds in Hw.
  apply ph_alerts_kinds in Hp. apply nutrient_alerts_kinds in Hn, Hph, Hk.
  split_and!; try done.
  - rewrite !length_app.
    pose proof (one_of_length _ _ Hn). pose proof (one_of_length _ _ Hph).
    pose proof (one_of_length _ _ Hk). lia.
  - rewrite !Forall_app. split_and!; apply Forall_forall; intros a Ha.
    + by apply list_elem_of_singleton, (one_of_kinds _ n).
    + by apply list_elem_of_singleton, (one_of_kinds _ ph).
    + by apply list_elem_of_singleton, (one_of_kinds _ k).
Qed.

(** X11. The alerts [handle_alerts] derives for a record that is not
    INVALID are, in this order: at most one about the temperature (High
    or Low, priority HIGH), at most one about the water level (Low with
    priority HIGH, or High with priority MEDIUM), at most one Soil pH
    Warning (HIGH or MEDIUM), and at most three Low Nutrient alerts of
    priority MEDIUM. *)
Theorem operational_alerts_shape :
  forall (record : reading) (st : status) (errors : list string) (alerts : list alert),
    handle_alerts record st errors = Return alerts ->
    st <> INVALID ->
    exists t w p n,
      alerts = t ++ w ++ p ++ n
      /\ one_of [("High Temperature", "HIGH"); ("Low Temperature", "HIGH")] t
      /\ one_of [("Low Water Level", "HIGH"); ("High Water Level", "MEDIUM")] w
      /\ one_of [("Soil pH Warning", "HIGH"); ("Soil pH Warning", "MEDIUM")] p
      /\ (length n <= 3)%nat
      /\ Forall (fun a => kind_of a = ("Low Nutrient", "MEDIUM")) n.
Proof.
  intros record st errors alerts Halerts Hst.
  apply (operational_alerts_kinds (loc_text record)
           (default (PDict ∅) (sensor_data record))).
  by destruct st.
Qed.

Lemma operational_alerts_shape_witness :
  exists t w p n,
    healthy_alerts = t ++ w ++ p ++ n
    /\ one_of [("High Temperature", "HIGH"); ("Low Temperature", "HIGH")] t
    /\ one_of [("Low Water Level", "HIGH"); ("High Water Level", "MEDIUM")] w
    /\ one_of [("Soil pH Warning", "HIGH"); ("Soil pH Warning", "MEDIUM")] p
    /\ (length n <= 3)%nat
    /\ Forall (fun a => kind_of a = ("Low Nutrient", "MEDIUM")) n.
Proof.
  apply (operational_alerts_shape healthy_reading VALID [] healthy_alerts).
  - vm_compute. reflexivity.
  - discriminate.
Defined.

(** ** The alerts of an INVALID record *)

Lemma append_inj_l p a b : p +:+ a = p +:+ b -> a = b.
Proof.
  induction p as [|c p IH]; [done |].
  change (String c (p +:+ a) = String c (p +:+ b) -> a = b).
  intros [= H]. by apply IH.
Qed.

Lemma sensor_failure_alert_inj loc t t' :
  sensor_failure_alert loc t = sensor_failure_alert loc t' -> t = t'.
Proof.
  unfold sensor_failure_alert. intros [= H].
  by do 3 apply append_inj_l in H.
Qed.

Lemma error_types_bound l :
  forall t, t ∈ elements (error_types l) ->
            t ∈ ["sensor_failure"; "sensor_disconnected"; "sensor_malfunction"].
Proof.
  intros t (e & _ & Hc)%elem_of_elements%elem_of_error_types.
  destruct (classify_error_cases _ _ Hc) as [-> | [-> | ->]].
  - apply list_elem_of_here.
  - apply list_elem_of_further, list_elem_of_here.
  - do 2 apply list_elem_of_further. apply list_elem_of_here.
Qed.

Lemma invalid_alerts_nonempty loc errors :
  invalid_alerts loc errors <> []
  <-> exists e, e ∈ errors /\ startswith "sensor_data" e = true
                /\ is_Some (classify_error e).
Proof.
  unfold invalid_alerts.
  destruct (filter (startswith "sensor_data") errors) as [|e0 l] eqn:Hf.
  - split; [done |]. intros (e & He & Hstart & _).
    assert (Hin : e ∈ filter (startswith "sensor_data") errors).
    { apply list_elem_of_filter. split; [by rewrite Hstart | done]. }
    rewrite Hf in Hin. by apply elem_of_nil in Hin.
  - rewrite <- Hf. split.
    + intros Hne.
      destruct (elements (error_types (filter (startswith "sensor_data") errors)))
        as [|t ts] eqn:Hel; [done |].
      assert (Ht : t ∈ elements (error_types (filter (startswith "sensor_data") errors))).
      { rewrite Hel. apply list_elem_of_here. }
      apply elem_of_elements, elem_of_error_types in Ht as (e & He & Hc).
      apply list_elem_of_filter in He as [Hstart He].
      exists e. split_and!; [done | by destruct (startswith "sensor_data" e) | by eexists].
    + intros (e & He & Hstart & [t Hc]) Hnil.
      assert (Ht : t ∈ elements (error_types (filter (startswith "sensor_data") errors))).
      { apply elem_of_elements, elem_of_error_types. exists e. split; [| done].
        apply list_elem_of_filter. split; [by rewrite Hstart | done]. }
      apply fmap_nil_inv in Hnil. rewrite Hnil in Ht. by apply elem_of_nil in Ht.
Qed.

(** X12. For an INVALID record [handle_alerts] always returns; every
    alert it derives is a Sensor Failure of priority CRITICAL; no two of
    them are equal and there are at most three, one per class of error;
    and there is one at all exactly when some error code starts with
    [sensor_data] and holds [extreme_value], [missing] or
    [out_of_range]. *)
Theorem invalid_alerts_shape :
  forall (record : reading) (errors : list string),
    exists alerts,
      handle_alerts record INVALID errors = Return alerts
      /\ (forall a, a ∈ alerts -> kind_of a = ("Sensor Failure", "CRITICAL"))
      /\ NoDup alerts
      /\ (length alerts <= 3)%nat
      /\ (alerts <> []
          <-> exists e, e ∈ errors /\ startswith "sensor_data" e = true
                        /\ is_Some (classify_error e)).
Proof.
  intros record errors. eexists. split; [reflexivity |].
  set (loc := loc_text record).
  split_and!.
  - unfold invalid_alerts. intros a Ha.
    destruct (filter _ errors); [by apply elem_of_nil in Ha |].
    by apply list_elem_of_fmap in Ha as (t & -> & _).
  - unfold invalid_alerts. destruct (filter _ errors) as [|e0 l]; [constructor |].
    apply NoDup_fmap_2; [| apply NoDup_elements].
    intros t t'. apply sensor_failure_alert_inj.
  - unfold invalid_alerts. destruct (filter _ errors) as [|e0 l]; [cbn; lia |].
    rewrite length_fmap.
    apply (submseteq_length _ ["sensor_failure"; "sensor_disconnected"; "sensor_malfunction"]).
    apply NoDup_submseteq; [apply NoDup_elements | apply error_types_bound].
  - apply invalid_alerts_nonempty.
Qed.

(** ** Validation followed by the alert derivation *)

(** How the codes of the shipped quantities are classified. *)
Lemma shipped_codes :
  Forall (fun q =>
      startswith "sensor_data" (sensor_error q "_extreme_value") = true
      /\ classify_error (sensor_error q "_extreme_value") = Some "sensor_failure"
      /\ classify_error (sensor_error q "_invalid_type") = None
      /\ startswith "sensor_data" (sensor_error q "_out_of_range") = true
      /\ classify_error (sensor_error q "_out_of_range") = Some "sensor_malfunction")
    sensor_names.
Proof. apply (bool_decide_unpack _). vm_compute. exact I. Qed.

Lemma benign_sensor_error data e :
  benign data e ->
  startswith "sensor_data" e = true ->
  exists q, q ∈ sensor_names /\ e ∈ raised_errors q.
Proof.
  intros [-> | [[loc ->] | [He | [-> | Hq]]]]; try (cbn; discriminate); [| done].
  unfold missing_top_level_keys in He.
  apply list_elem_of_fmap in He as (kb & -> & _). cbn. discriminate.
Qed.

(** X13. When [validate_record] classifies a record INVALID,
    [handle_alerts] derives at most two alerts from its errors, and it
    derives one at all exactly when the errors hold the
    [_extreme_value] or the [_out_of_range] code of some quantity: a
    record that is INVALID for its location, a missing key, an empty
    sensor map or a value of the wrong type alone raises no alert. *)
Theorem invalid_record_alerts :
  forall (data : reading) (errors : list string) (warnings : list fstring)
         (data' : reading),
    validate_record data = Return (INVALID, errors, warnings, data') ->
    exists alerts,
      handle_alerts data' INVALID errors = Return alerts
      /\ (length alerts <= 2)%nat
      /\ (alerts <> []
          <-> exists q, q ∈ sensor_names
                        /\ (sensor_error q "_extreme_value" ∈ errors
                            \/ sensor_error q "_out_of_range" ∈ errors)).
Proof.
  intros data errors warnings data' Hret.
  pose proof (validate_record_errors _ _ _ _ _ Hret) as Hbenign.
  pose proof shipped_codes as Hcodes. rewrite Forall_forall in Hcodes.
  eexists. split; [reflexivity |]. split.
  - unfold invalid_alerts.
    destruct (filter (startswith "sensor_data") errors) as [|e0 l] eqn:Hf; [cbn; lia |].
    rewrite <- Hf, length_fmap.
    apply (submseteq_length _ ["sensor_failure"; "sensor_malfunction"]).
    apply NoDup_submseteq; [apply NoDup_elements |].
    intros t Ht. assert (Ht' := Ht).
    apply elem_of_elements, elem_of_error_types in Ht' as (e & He & Hc).
    apply list_elem_of_filter in He as [Hstart He].
    destruct (classify_error_cases _ _ Hc) as [-> | [-> | ->]].
    + apply list_elem_of_here.
    + destruct (benign_not_disconnected data e); [by apply Hbenign | | done].
      by destruct (startswith "sensor_data" e).
    + apply list_elem_of_further, list_elem_of_here.
  - rewrite invalid_alerts_nonempty. split.
    + intros (e & He & Hstart & [t Hc]).
      destruct (benign_sensor_error data e (Hbenign _ He) Hstart) as (q & Hq & Hraised).
      exists q. split; [done |].
      destruct (Hcodes q Hq) as (_ & _ & Hinv & _ & _).
      unfold raised_errors in Hraised.
      apply elem_of_cons in Hraised as [-> | Hraised]; [by left |].
      apply elem_of_cons in Hraised as [-> | Hraised]; [congruence |].
      apply list_elem_of_singleton in Hraised as ->. by right.
    + intros (q & Hq & Hin).
      destruct (Hcodes q Hq) as (Hs1 & Hc1 & _ & Hs2 & Hc2).
      destruct Hin as [Hin | Hin]; eexists; split_and!; try exact Hin; try done; by eexists.
Qed.

Lemma invalid_record_alerts_witness :
  exists alerts,
    handle_alerts missing_nitrogen_reading INVALID
      [sensor_error "nitrogen" "_extreme_value"] = Return alerts
    /\ (length alerts <= 2)%nat
    /\ (alerts <> []
        <-> exists q, q ∈ sensor_names
                      /\ (sensor_error q "_extreme_value"
                            ∈ [sensor_error "nitrogen" "_extreme_value"]
                          \/ sensor_error q "_out_of_range"
                               ∈ [sensor_error "nitrogen" "_extreme_value"])).
Proof.
  apply (invalid_record_alerts missing_nitrogen_reading
           [sensor_error "nitrogen" "_extreme_value"] [] missing_nitrogen_reading).
  vm_compute. reflexivity.
Defined.

(** *** The values of a passed record can be formatted *)

Lemma xcompare_le_trans x y z :
  (xcompare x y = Some Lt \/ xcompare x y = Some Eq) ->
  (xcompare y z = Some Lt \/ xcompare y z = Some Eq) ->
  xcompare x z = Some Lt \/ xcompare x z = Some Eq.
Proof.
  intros H1 H2.
  pose proof (xcompare_le_not_lt x y z H1 H2) as Hnot.
  destruct x as [| |p|], y as [| |q|], z as [| |r|]; simpl in *;
    try (destruct H1 as [H1 | H1]; discriminate H1);
    try (destruct H2 as [H2 | H2]; discriminate H2); auto.
  destruct (Qcompare_spec p r) as [Heq | Hlt | Hgt]; auto.
  destruct Hnot. f_equal. by apply Qlt_alt.
Qed.

Lemma num_le_cases a b :
  num_le a b = true
  <-> num_compare a b = Some Lt \/ num_compare a b = Some Eq.
Proof.
  unfold num_le. destruct (num_compare a b) as [[]|]; split; try done; auto.
  - intros [? | ?]; discriminate.
  - intros [? | ?]; discriminate.
Qed.

Lemma num_le_trans a b c : num_le a b = true -> num_le b c = true -> num_le a c = true.
Proof.
  rewrite !num_le_cases. unfold num_compare. apply xcompare_le_trans.
Qed.

Lemma num_le_int a b : num_le (NInt a) (NInt b) = true -> a <= b.
Proof.
  rewrite num_le_cases. unfold num_compare. cbn [num_val xcompare].
  intros H. rewrite Zle_Qle. apply Qle_alt.
  destruct H as [[= ->] | [= ->]]; discriminate.
Qed.

Lemma small_int_floats :
  forallb (fun k => bool_decide (is_Some (float_of_int (Z.of_nat k - 1000)))) (seq 0 2001)
  = true.
Proof. vm_compute. reflexivity. Qed.

Lemma small_int_float n : -1000 <= n <= 1000 -> is_Some (float_of_int n).
Proof.
  intros Hn. pose proof small_int_floats as Hall. rewrite forallb_forall in Hall.
  specialize (Hall (Z.to_nat (n + 1000))).
  replace (Z.of_nat (Z.to_nat (n + 1000)) - 1000) with n in Hall by lia.
  apply (proj1 (bool_decide_eq_true _)), Hall, in_seq. lia.
Qed.

Lemma tolerated_formattable q lo hi x :
  band_small (q, (lo, hi)) = true ->
  tolerated lo hi x ->
  exists f, to_float x = Return f.
Proof.
  destruct x as [n|f]; [| by eexists].
  unfold band_small, tolerated, in_range.
  destruct (threshold_band lo hi) as [[low high]|]; [| done].
  intros [[[Hlo Hlow]%andb_prop Hhi]%andb_prop Hhigh]%andb_prop Htol.
  assert (Hn : -1000 <= n <= 1000).
  { destruct Htol as [[H1 H2]%andb_prop | (low' & high' & [= <- <-] & [H1 H2]%andb_prop)].
    - split; apply num_le_int.
      + by apply (num_le_trans _ lo).
      + by apply (num_le_trans _ hi).
    - split; apply num_le_int.
      + by apply (num_le_trans _ low).
      + by apply (num_le_trans _ high). }
  cbn [to_float]. destruct (small_int_float n Hn) as [f ->]. by eexists.
Qed.

Lemma shipped_band_small loc ranges :
  assoc loc EXPECTED_RANGES_PER_LOCATION = Some ranges ->
  forallb band_small ranges = true.
Proof.
  unfold EXPECTED_RANGES_PER_LOCATION. simpl.
  repeat (destruct (String.eqb loc _); [intros [= <-]; vm_compute; reflexivity |]).
  discriminate.
Qed.

Lemma fixed_returns digits v x f :
  to_float x = Return f -> fixed digits v x = Return (Fixed digits v).
Proof. unfold fixed. by intros ->. Qed.

(** A quantity of a passed record, as the rules read it. *)
Lemma passed_quantity loc ranges (d : gmap string pyval) q :
  assoc loc EXPECTED_RANGES_PER_LOCATION = Some ranges ->
  q ∈ sensor_names ->
  (forall q lo hi, (q, (lo, hi)) ∈ ranges ->
     exists v x, d !! q = Some v /\ as_num v = Some x /\ tolerated lo hi x) ->
  exists v x lo hi f,
    (q, (lo, hi)) ∈ ranges /\ d !! q = Some v /\ as_num v = Some x
    /\ tolerated lo hi x /\ to_float x = Return f.
Proof.
  intros Hranges Hq Hnum.
  rewrite <- (shipped_names _ _ Hranges) in Hq.
  apply list_elem_of_fmap in Hq as ([q' [lo hi]] & -> & Hin). cbn [fst].
  destruct (Hnum _ _ _ Hin) as (v & x & Hv & Hx & Htol).
  pose proof (shipped_band_small _ _ Hranges) as Hsmall.
  rewrite forallb_forall in Hsmall.
  specialize (Hsmall _ (proj1 (list_elem_of_In _ _) Hin)).
  destruct (tolerated_formattable _ _ _ _ Hsmall Htol) as [f Hf].
  by exists v, x, lo, hi, f.
Qed.

(** On a passed record the water-level and pH rules do not raise. *)
Lemma water_level_alerts_passed loc ranges d :
  assoc loc EXPECTED_RANGES_PER_LOCATION = Some ranges ->
  (forall q lo hi, (q, (lo, hi)) ∈ ranges ->
     exists v x, d !! q = Some v /\ as_num v = Some x /\ tolerated lo hi x) ->
  exists w, water_level_alerts loc (PDict d) = Return w.
Proof.
  intros Hranges Hnum.
  destruct (passed_quantity loc ranges d "water_level" Hranges) as
    (v & x & lo & hi & f & _ & Hv & Hx & _ & Hf); [| done |].
  { do 2 apply list_elem_of_further. apply list_elem_of_here. }
  unfold water_level_alerts. cbn [py_get bind]. rewrite Hv. cbn [default from_option id].
  rewrite Hx, (fixed_returns _ _ _ _ Hf). cbn [bind].
  destruct (num_lt _ _); [eauto |]. destruct (num_gt _ _); eauto.
Qed.

Lemma ph_alerts_passed loc ranges d :
  assoc loc EXPECTED_RANGES_PER_LOCATION = Some ranges ->
  (forall q lo hi, (q, (lo, hi)) ∈ ranges ->
     exists v x, d !! q = Some v /\ as_num v = Some x /\ tolerated lo hi x) ->
  exists p, ph_alerts loc (PDict d) = Return p.
Proof.
  intros Hranges Hnum.
  destruct (passed_quantity loc ranges d "ph" Hranges) as
    (v & x & lo & hi & f & _ & Hv & Hx & _ & Hf); [| done |].
  { do 6 apply list_elem_of_further. apply list_elem_of_here. }
  unfold ph_alerts. cbn [py_get bind]. rewrite Hv. cbn [default from_option id].
  rewrite Hx, (fixed_returns _ _ _ _ Hf). cbn [bind].
  destruct (_ || _); eauto.
Qed.

(** On a passed record the Low Temperature rule cannot fire. *)
Lemma temperature_alerts_passed loc ranges d :
  assoc loc EXPECTED_RANGES_PER_LOCATION = Some ranges ->
  temperature_clear ranges = true ->
  (forall q lo hi, (q, (lo, hi)) ∈ ranges ->
     exists v x, d !! q = Some v /\ as_num v = Some x /\ tolerated lo hi x) ->
  exists t, temperature_alerts loc (PDict d) = Return t
            /\ one_of [("High Temperature", "HIGH")] t.
Proof.
  unfold temperature_clear. intros Hranges Hclear Hnum.
  destruct (assoc "temperature" ranges) as [[lo hi]|] eqn:Hassoc; [| done].
  destruct (Hnum _ _ _ (assoc_elem _ _ _ Hassoc)) as (v & x & Hv & Hx & Htol).
  pose proof (tolerated_not_below _ _ _ _ _ Hclear Htol) as Hlow.
  pose proof (shipped_band_small _ _ Hranges) as Hsmall.
  rewrite forallb_forall in Hsmall.
  specialize (Hsmall _ (proj1 (list_elem_of_In _ _) (assoc_elem _ _ _ Hassoc))).
  destruct (tolerated_formattable _ _ _ _ Hsmall Htol) as [f Hf].
  unfold temperature_alerts. cbn [py_get bind]. rewrite Hv. cbn [default from_option id].
  rewrite Hx, Hlow, (fixed_returns _ _ _ _ Hf). cbn [bind].
  destruct (num_gt x (NInt 35)).
  - eexists. split; [reflexivity |]. right. eexists. split; [done |]. apply list_elem_of_here.
  - eexists. split; [reflexivity |]. by left.
Qed.

(** On a passed record the Low Nutrient rule cannot fire. *)
Lemma nutrient_alerts_passed loc ranges d nutrient :
  assoc loc EXPECTED_RANGES_PER_LOCATION = Some ranges ->
  nutrient_clear ranges nutrient = true ->
  (forall q lo hi, (q, (lo, hi)) ∈ ranges ->
     exists v x, d !! q = Some v /\ as_num v = Some x /\ tolerated lo hi x) ->
  nutrient_alerts loc (PDict d) nutrient = Return [].
Proof.
  unfold nutrient_clear. intros Hranges Hclear Hnum.
  destruct (assoc nutrient ranges) as [[lo hi]|] eqn:Hassoc; [| done].
  cbn [fst] in Hclear.
  destruct (num_mul lo (lit 8 (-1))) as [floor|] eqn:Hfloor; [| done].
  destruct (Hnum _ _ _ (assoc_elem _ _ _ Hassoc)) as (v & x & Hv & Hx & Htol).
  pose proof (tolerated_not_below _ _ _ _ _ Hclear Htol) as Hlow.
  unfold nutrient_alerts, lookup_or_raise. cbn [py_get bind].
  rewrite Hv. cbn [default from_option id]. rewrite Hx, Hranges. cbn [bind].
  rewrite Hassoc. cbn [bind fst]. rewrite Hfloor. cbn [bind]. by rewrite Hlow.
Qed.

(** The alerts of a record that [validate_record] let through. *)
Lemma passed_alerts data st errors warnings data' :
  validate_record data = Return (st, errors, warnings, data') ->
  st <> INVALID ->
  exists t w p,
    handle_alerts data' st errors = Return (t ++ w ++ p)
    /\ one_of [("High Temperature", "HIGH")] t
    /\ one_of [("Low Water Level", "HIGH"); ("High Water Level", "MEDIUM")] w
    /\ one_of [("Soil pH Warning", "HIGH"); ("Soil pH Warning", "MEDIUM")] p.
Proof.
  intros Hret Hst.
  destruct (passed_record _ _ _ _ _ Hret Hst)
    as (loc & ranges & d' & _ & Hloc & Hranges & Hsd & Hnum).
  destruct (shipped_floors _ _ Hranges) as [Htemp Hnut].
  cbn [nutrients forallb] in Hnut.
  apply andb_prop in Hnut as [Hn Hnut]. apply andb_prop in Hnut as [Hph Hnut].
  apply andb_prop in Hnut as [Hk _].
  destruct (temperature_alerts_passed loc ranges d' Hranges Htemp Hnum) as (t & Ht & Htk).
  destruct (water_level_alerts_passed loc ranges d' Hranges Hnum) as [w Hw].
  destruct (ph_alerts_passed loc ranges d' Hranges Hnum) as [p Hp].
  exists t, w, p. split_and!.
  - assert (Hop : operational_alerts loc (PDict d') = Return (t ++ w ++ p)).
    { unfold operational_alerts. rewrite Ht, Hw, Hp. cbn [bind].
      rewrite !(nutrient_alerts_passed loc ranges d') by done. cbn [bind].
      by rewrite !app_nil_r. }
    unfold handle_alerts, loc_text. rewrite Hloc, Hsd. cbn [default from_option id].
    by destruct st.
  - done.
  - by apply (water_level_alerts_kinds loc (PDict d')).
  - by apply (ph_alerts_kinds loc (PDict d')).
Qed.

(** X14. For a record that [validate_record] does not classify
    INVALID, [handle_alerts] returns, and what it returns is at most a
    High Temperature alert, at most one alert about the water level and
    at most one Soil pH Warning: with the shipped ranges the Low
    Temperature and Low Nutrient rules never fire on a record that
    passed validation. *)
Theorem passed_record_alerts :
  forall (data : reading) (st : status) (errors : list string)
         (warnings : list fstring) (data' : reading),
    validate_record data = Return (st, errors, warnings, data') ->
    st <> INVALID ->
    exists t w p,
      handle_alerts data' st errors = Return (t ++ w ++ p)
      /\ one_of [("High Temperature", "HIGH")] t
      /\ one_of [("Low Water Level", "HIGH"); ("High Water Level", "MEDIUM")] w
      /\ one_of [("Soil pH Warning", "HIGH"); ("Soil pH Warning", "MEDIUM")] p.
Proof. intros data st errors warnings data'. apply passed_alerts. Qed.

Lemma passed_record_alerts_witness :
  exists t w p,
    handle_alerts healthy_reading VALID [] = Return (t ++ w ++ p)
    /\ one_of [("High Temperature", "HIGH")] t
    /\ one_of [("Low Water Level", "HIGH"); ("High Water Level", "MEDIUM")] w
    /\ one_of [("Soil pH Warning", "HIGH"); ("Soil pH Warning", "MEDIUM")] p.
Proof.
  apply (passed_record_alerts healthy_reading VALID [] [] healthy_reading).
  - vm_compute. reflexivity.
  - discriminate.
Defined.

Lemma status_cases (st : status) : st = INVALID \/ st <> INVALID.
Proof. destruct st; [by right | by right | by left]. Qed.

(** The alerts [handle_alerts] derives after [validate_record], whatever
    the status: the call does not raise. *)
Lemma handle_alerts_returns data st errors warnings data' :
  validate_record data = Return (st, errors, warnings, data') ->
  exists alerts, handle_alerts data' st errors = Return alerts.
Proof.
  intros Hret. destruct (status_cases st) as [-> | Hst]; [by eexists |].
  destruct (passed_alerts _ _ _ _ _ Hret Hst) as (t & w & p & Halerts & _). eauto.
Qed.

(** ** The recommended action *)

Lemma operational_kinds_actions :
  Forall (fun k => is_Some (assoc k.1 actions)) operational_kinds.
Proof. apply (bool_decide_unpack _). vm_compute. exact I. Qed.

(** X15. Every alert [handle_alerts] derives has a type that the
    [actions] table of [get_recommended_action] lists: the fallback text
    is never the action recommended for an alert of the handler. *)
Theorem every_alert_has_an_action :
  forall (record : reading) (st : status) (errors : list string) (alerts : list alert),
    handle_alerts record st errors = Return alerts ->
    forall a, a ∈ alerts ->
      exists text,
        assoc (alert_type a) actions = Some text
        /\ get_recommended_action (alert_type a) = text.
Proof.
  intros record st errors alerts Halerts a Ha.
  assert (Hsome : is_Some (assoc (alert_type a) actions)).
  2:{ destruct Hsome as [text Htext]. exists text. split; [done |].
      unfold get_recommended_action. by rewrite Htext. }
  destruct (status_cases st) as [-> | Hst].
  - injection Halerts as <-. unfold invalid_alerts in Ha.
    destruct (filter _ errors); [by apply elem_of_nil in Ha |].
    apply list_elem_of_fmap in Ha as (t & -> & _). by eexists.
  - assert (Hop : operational_alerts (loc_text record)
                    (default (PDict ∅) (sensor_data record)) = Return alerts).
    { by destruct st. }
    apply operational_alerts_kinds in Hop as (t & w & p & n & -> & Ht & Hw & Hp & _ & Hn).
    pose proof operational_kinds_actions as Hact. rewrite Forall_forall in Hact.
    assert (Hkind : kind_of a ∈ operational_kinds).
    2:{ exact (Hact _ Hkind). }
    rewrite !elem_of_app in Ha. destruct Ha as [Ha | [Ha | [Ha | Ha]]].
    + apply (one_of_kinds _ _ _ Ht) in Ha.
      apply elem_of_cons in Ha as [-> | Ha%list_elem_of_singleton];
        [| rewrite Ha]; apply (bool_decide_unpack _); vm_compute; exact I.
    + apply (one_of_kinds _ _ _ Hw) in Ha.
      apply elem_of_cons in Ha as [-> | Ha%list_elem_of_singleton];
        [| rewrite Ha]; apply (bool_decide_unpack _); vm_compute; exact I.
    + apply (one_of_kinds _ _ _ Hp) in Ha.
      apply elem_of_cons in Ha as [-> | Ha%list_elem_of_singleton];
        [| rewrite Ha]; apply (bool_decide_unpack _); vm_compute; exact I.
    + rewrite Forall_forall in Hn. rewrite (Hn _ Ha).
      apply (bool_decide_unpack _); vm_compute; exact I.
Qed.

Lemma every_alert_has_an_action_witness :
  exists text,
    assoc (alert_type critical_alert) actions = Some text
    /\ get_recommended_action (alert_type critical_alert) = text.
Proof.
  apply (every_alert_has_an_action missing_nitrogen_reading INVALID
           [sensor_error "nitrogen" "_extreme_value"] [critical_alert]).
  - vm_compute. reflexivity.
  - apply list_elem_of_here.
Defined.

End AlertsMore.

(* ===================================================================== *)
(** * More on the throttle *)
(* ===================================================================== *)

Module ThrottleMore.
Import Py Validator Alerts Throttle Handler Notions Scenarios.

(** X16. The throttle works key by key: a call leaves the entries of
    every key other than the alert's as they were, in both maps; and
    whether the alert is sent depends on the state only through the
    two entries of the alert's own key. *)
Theorem throttle_is_per_key :
  forall (a : alert) (loc : string) (e : pyval) (ts : option pyval) (now : Z) (w : world),
    (forall key, key <> alert_key loc a ->
       last_sent (state (check_and_send_alert a loc e ts now w).2) !! key
       = last_sent (state w) !! key
       /\ consecutive_counts (state (check_and_send_alert a loc e ts now w).2) !! key
          = consecutive_counts (state w) !! key)
    /\ (forall w2,
          last_sent (state w2) !! alert_key loc a = last_sent (state w) !! alert_key loc a ->
          consecutive_counts (state w2) !! alert_key loc a
          = consecutive_counts (state w) !! alert_key loc a ->
          (check_and_send_alert a loc e ts now w2).1
          = (check_and_send_alert a loc e ts now w).1).
Proof.
  intros a loc e ts now w. split.
  - intros key Hkey. unfold check_and_send_alert.
    destruct (String.eqb _ _); cbn [fst snd].
    { cbn. by rewrite lookup_insert_ne. }
    destruct (match last_sent (state w) !! alert_key loc a with
              | Some last => now - last <? ALERT_INTERVAL
              | None => false
              end); cbn [fst snd]; [done |].
    destruct (CONSECUTIVE_RECORDS_THRESHOLD <=? _); cbn.
    + by rewrite !lookup_insert_ne.
    + by rewrite !lookup_insert_ne.
  - intros w2 Hlast Hcount. unfold check_and_send_alert.
    destruct (String.eqb _ _); [done |]. rewrite Hlast, Hcount.
    destruct (match last_sent (state w) !! alert_key loc a with
              | Some last => now - last <? ALERT_INTERVAL
              | None => false
              end); [done |].
    by destruct (CONSECUTIVE_RECORDS_THRESHOLD <=? _).
Qed.

(** What one call does to [last_sent] of the alert's key, for an alert
    that is not CRITICAL. *)
Lemma offer_last_sent a loc e ts now w :
  alert_priority a <> "CRITICAL" ->
  match check_and_send_alert a loc e ts now w with
  | (true, w') =>
      last_sent (state w') !! alert_key loc a = Some now
      /\ forall l, last_sent (state w) !! alert_key loc a = Some l -> ALERT_INTERVAL <= now - l
  | (false, w') =>
      last_sent (state w') !! alert_key loc a = last_sent (state w) !! alert_key loc a
  end.
Proof.
  intros Hp%String.eqb_neq. unfold check_and_send_alert. rewrite Hp.
  destruct (last_sent (state w) !! alert_key loc a) as [l|] eqn:Hl.
  - destruct (now - l <? ALERT_INTERVAL) eqn:Hthr; [done |].
    apply Z.ltb_ge in Hthr.
    destruct (CONSECUTIVE_RECORDS_THRESHOLD <=? _); cbn.
    + rewrite lookup_insert_eq. split; [done |]. by intros ? [= <-].
    + done.
  - destruct (CONSECUTIVE_RECORDS_THRESHOLD <=? _); cbn.
    + rewrite lookup_insert_eq. split; [done |]. by intros ? [=].
    + by rewrite Hl.
Qed.

Lemma interval_positive : 0 < ALERT_INTERVAL.
Proof. reflexivity. Qed.

(** Every later send is at least the interval after what [last_sent]
    recorded when the offers began. *)
Lemma sends_after_last a loc e ts nows :
  alert_priority a <> "CRITICAL" ->
  forall w j tj l,
    last_sent (state w) !! alert_key loc a = Some l ->
    nows !! j = Some tj ->
    (offer_at a loc e ts nows w).1 !! j = Some true ->
    ALERT_INTERVAL <= tj - l.
Proof.
  intros Hp. induction nows as [|now nows IH]; intros w j tj l Hl Hj Hsent; [done |].
  cbn [offer_at] in Hsent.
  pose proof (offer_last_sent a loc e ts now w Hp) as Hstep.
  destruct (check_and_send_alert a loc e ts now w) as [sent w'].
  destruct (offer_at a loc e ts nows w') as [rest w''] eqn:Hrest.
  cbn [fst] in Hsent.
  destruct j as [|j]; cbn in Hj, Hsent.
  - injection Hj as <-. injection Hsent as ->. destruct Hstep as [_ Hstep]. by apply Hstep.
  - assert (Hrest' : (offer_at a loc e ts nows w').1 !! j = Some true) by (by rewrite Hrest).
    destruct sent.
    + destruct Hstep as [Hnow Hgap]. specialize (Hgap _ Hl).
      specialize (IH w' j tj now Hnow Hj Hrest').
      pose proof interval_positive. lia.
    + rewrite Hl in Hstep. exact (IH w' j tj l Hstep Hj Hrest').
Qed.

(** X17. The rate limit: when one alert that is not CRITICAL is
    offered at a sequence of instants, any two offers that are sent lie
    at least [ALERT_INTERVAL], five minutes, apart, whatever the state
    the offers start from. *)
Theorem sends_are_spaced :
  forall (a : alert) (loc : string) (e : pyval) (ts : option pyval)
         (nows : list Z) (w : world) (i j : nat) (ti tj : Z),
    alert_priority a <> "CRITICAL" ->
    (i < j)%nat ->
    nows !! i = Some ti ->
    nows !! j = Some tj ->
    (offer_at a loc e ts nows w).1 !! i = Some true ->
    (offer_at a loc e ts nows w).1 !! j = Some true ->
    ALERT_INTERVAL <= tj - ti.
Proof.
  intros a loc e ts nows w i j ti tj Hp. revert w i j.
  induction nows as [|now nows IH]; intros w i j Hij Hi Hj Hsi Hsj; [done |].
  cbn [offer_at] in Hsi, Hsj.
  pose proof (offer_last_sent a loc e ts now w Hp) as Hstep.
  destruct (check_and_send_alert a loc e ts now w) as [sent w'].
  destruct (offer_at a loc e ts nows w') as [rest w''] eqn:Hrest.
  cbn [fst] in Hsi, Hsj.
  destruct j as [|j]; [lia |]. cbn in Hj, Hsj.
  assert (Hrest' : (offer_at a loc e ts nows w').1 !! j = Some true) by (by rewrite Hrest).
  destruct i as [|i]; cbn in Hi, Hsi.
  - injection Hi as <-. injection Hsi as ->. destruct Hstep as [Hnow _].
    exact (sends_after_last a loc e ts nows Hp w' j tj now Hnow Hj Hrest').
  - apply (IH w' i j); try done; [lia | by rewrite Hrest].
Qed.

Lemma sends_are_spaced_witness : ALERT_INTERVAL <= minutes 6 - 0.
Proof.
  apply (sends_are_spaced medium_alert "loc_1" (PStr "evt-1") None
           [0; minutes 2; minutes 6] empty_world 0 2 0 (minutes 6)).
  - discriminate.
  - lia.
  - reflexivity.
  - reflexivity.
  - vm_compute. reflexivity.
  - vm_compute. reflexivity.
Defined.

(** ** The periodic cleanup *)

Lemma old_keys_spec current_time (st : alert_state) k :
  k ∈ dom (filter (fun kt : string * Z => (seconds 3600 <? current_time - kt.2) = true)
             (last_sent st))
  <-> exists l, last_sent st !! k = Some l /\ seconds 3600 < current_time - l.
Proof.
  rewrite elem_of_dom. unfold is_Some. split.
  - intros [l [Hl Hold]%map_lookup_filter_Some]. exists l. split; [done |].
    by apply Z.ltb_lt.
  - intros (l & Hl & Hold). exists l. apply map_lookup_filter_Some. split; [done |].
    by apply Z.ltb_lt.
Qed.

Lemma cleanup_last_sent current_time st k l :
  last_sent (cleanup current_time st) !! k = Some l
  <-> last_sent st !! k = Some l /\ current_time - l <= seconds 3600.
Proof.
  unfold cleanup. cbn [last_sent]. rewrite map_lookup_filter_Some. cbn [fst].
  rewrite old_keys_spec. split.
  - intros [Hl Hnot]. split; [done |].
    destruct (Z.le_gt_cases (current_time - l) (seconds 3600)) as [? | Hold]; [done |].
    destruct Hnot. eauto.
  - intros [Hl Hle]. split; [done |]. intros (l' & Hl' & Hold).
    rewrite Hl in Hl'. injection Hl' as <-. lia.
Qed.

Lemma cleanup_counts current_time st k c :
  consecutive_counts (cleanup current_time st) !! k = Some c
  <-> consecutive_counts st !! k = Some c
      /\ forall l, last_sent st !! k = Some l -> current_time - l <= seconds 3600.
Proof.
  unfold cleanup. cbn [consecutive_counts]. rewrite map_lookup_filter_Some. cbn [fst].
  rewrite old_keys_spec. split.
  - intros [Hc Hnot]. split; [done |]. intros l Hl.
    destruct (Z.le_gt_cases (current_time - l) (seconds 3600)) as [? | Hold]; [done |].
    destruct Hnot. eauto.
  - intros [Hc Hle]. split; [done |]. intros (l & Hl & Hold).
    specialize (Hle _ Hl). lia.
Qed.

(** X18. What the cleanup keeps: an entry of [last_sent] stays exactly
    when it is at most an hour old at the time of the cleanup, and a
    count stays exactly when its key has no [last_sent] entry older than
    an hour; what stays is unchanged. *)
Theorem cleanup_keeps_the_recent :
  forall (current_time : Z) (st : alert_state) (k : string),
    (forall l, last_sent (cleanup current_time st) !! k = Some l
               <-> last_sent st !! k = Some l /\ current_time - l <= seconds 3600)
    /\ (forall c, consecutive_counts (cleanup current_time st) !! k = Some c
                  <-> consecutive_counts st !! k = Some c
                      /\ forall l, last_sent st !! k = Some l ->
                                   current_time - l <= seconds 3600).
Proof.
  intros current_time st k. split.
  - intros l. apply cleanup_last_sent.
  - intros c. apply cleanup_counts.
Qed.

Lemma option_eq_iff {A : Type} (x y : option A) :
  (forall a, x = Some a <-> y = Some a) -> x = y.
Proof.
  intros H. destruct x as [a|], y as [b|]; try done.
  - symmetry. by apply (H a).
  - by destruct (proj1 (H a) eq_refl).
  - by apply (H b).
Qed.

(** X19. The cleanup does not change what is sent: when no stored
    count is negative, an alert offered at or after the time of the
    cleanup gets the same answer from the cleaned state as from the
    state before the cleanup. *)
Theorem cleanup_keeps_the_answers :
  forall (current_time now : Z) (a : alert) (loc : string) (e : pyval)
         (ts : option pyval) (w : world),
    current_time <= now ->
    (forall k c, consecutive_counts (state w) !! k = Some c -> 0 <= c) ->
    (check_and_send_alert a loc e ts now
       {| state := cleanup current_time (state w); sns := sns w |}).1
    = (check_and_send_alert a loc e ts now w).1.
Proof.
  intros current_time now a loc e ts w Hnow Hpos.
  unfold check_and_send_alert. cbn [state].
  destruct (String.eqb _ _); [done |].
  set (key := alert_key loc a).
  destruct (last_sent (state w) !! key) as [l|] eqn:Hl.
  - destruct (Z.le_gt_cases (current_time - l) (seconds 3600)) as [Hrecent | Hold].
    + assert (Hl' : last_sent (cleanup current_time (state w)) !! key = Some l).
      { by apply cleanup_last_sent. }
      assert (Hc' : consecutive_counts (cleanup current_time (state w)) !! key
                    = consecutive_counts (state w) !! key).
      { apply option_eq_iff. intros c. rewrite cleanup_counts. split; [by intros [? _] |].
        intros Hc. split; [done |]. intros l' Hl''. rewrite Hl in Hl''.
        by injection Hl'' as <-. }
      rewrite Hl', Hc'. destruct (now - l <? ALERT_INTERVAL); [done |].
      by destruct (CONSECUTIVE_RECORDS_THRESHOLD <=? _).
    + assert (Hl' : last_sent (cleanup current_time (state w)) !! key = None).
      { destruct (last_sent (cleanup _ _) !! key) as [l'|] eqn:Hl'; [| done].
        apply cleanup_last_sent in Hl' as [Hl' Hle]. rewrite Hl in Hl'.
        injection Hl' as <-. lia. }
      assert (Hc' : consecutive_counts (cleanup current_time (state w)) !! key = None).
      { destruct (consecutive_counts (cleanup _ _) !! key) as [c|] eqn:Hc'; [| done].
        apply cleanup_counts in Hc' as [_ Hle]. specialize (Hle _ Hl). lia. }
      rewrite Hl', Hc'. cbn [default from_option id].
      assert (Hthr : (now - l <? ALERT_INTERVAL) = false).
      { apply Z.ltb_ge. unfold ALERT_INTERVAL, minutes, seconds in *. lia. }
      rewrite Hthr.
      destruct (consecutive_counts (state w) !! key) as [c|] eqn:Hc;
        cbn [default from_option id]; [| done].
      specialize (Hpos _ _ Hc).
      assert (Hge : (CONSECUTIVE_RECORDS_THRESHOLD <=? c + 1) = true).
      { apply Z.leb_le. unfold CONSECUTIVE_RECORDS_THRESHOLD. lia. }
      by rewrite Hge.
  - assert (Hl' : last_sent (cleanup current_time (state w)) !! key = None).
    { destruct (last_sent (cleanup _ _) !! key) as [l'|] eqn:Hl'; [| done].
      apply cleanup_last_sent in Hl' as [Hl' _]. congruence. }
    assert (Hc' : consecutive_counts (cleanup current_time (state w)) !! key
                  = consecutive_counts (state w) !! key).
    { apply option_eq_iff. intros c. rewrite cleanup_counts. split; [by intros [? _] |].
      intros Hc. split; [done |]. intros l' Hl''. congruence. }
    rewrite Hl', Hc'. by destruct (CONSECUTIVE_RECORDS_THRESHOLD <=? _).
Qed.

Lemma cleanup_keeps_the_answers_witness :
  (check_and_send_alert medium_alert "loc_1" (PStr "evt-1") None (seconds 7200)
     {| state := cleanup (seconds 7200) (state stale_world); sns := sns stale_world |}).1
  = (check_and_send_alert medium_alert "loc_1" (PStr "evt-1") None (seconds 7200)
       stale_world).1.
Proof.
  apply (cleanup_keeps_the_answers (seconds 7200) (seconds 7200) medium_alert "loc_1"
           (PStr "evt-1") None stale_world).
  - lia.
  - intros k c Hc. cbn in Hc.
    apply lookup_singleton_Some in Hc as [_ <-]. lia.
Defined.

End ThrottleMore.

(* ===================================================================== *)
(** * More on the batch handler *)
(* ===================================================================== *)

Module HandlerMore.
Import Py Validator Alerts Throttle Handler Notions Scenarios HandlerSpec AlertsMore.

Lemma process_record_failed clock p b :
  fails_to_process p = true -> process_record clock p b = record_failed b.
Proof.
  destruct p as [|data]; [done |]. cbn [fails_to_process process_record].
  by destruct (validate_record data).
Qed.

(** A record that is decoded and validated is counted as processed,
    unless the append to its [alerts_sent] raises, which takes an
    [alerts_sent] that is no list. *)
Lemma process_record_outcome clock p b :
  fails_to_process p = false ->
  (processed_count (process_record clock p b) = S (processed_count b)
   /\ error_count (process_record clock p b) = error_count b)
  \/ (processed_count (process_record clock p b) = processed_count b
      /\ error_count (process_record clock p b) = S (error_count b)
      /\ recordable p = false).
Proof.
  destruct p as [|data]; [done |]. cbn [fails_to_process process_record recordable].
  destruct (validate_record data) as [[[[st errors] warnings] data']|] eqn:Hret; [| done].
  intros _. destruct (handle_alerts_returns _ _ _ _ _ Hret) as [alerts ->].
  destruct (process_alerts_log clock (loc_text data')
              (default (PStr "unknown") (event_id data')) (timestamp data')
              (can_record data') alerts (ticks b) (the_world b) [])
    as (notes & _ & _ & _ & Hout).
  destruct (process_alerts _ _ _ _ _ _ _ _ _) as [[tick w] outcome].
  cbn [snd] in Hout. destruct outcome as [sent|]; cbn; [by left | right].
  destruct Hout as [Hcan _].
  by rewrite <- (validate_record_can_record _ _ _ _ _ Hret).
Qed.

Lemma process_records_accounting clock records :
  forall b,
    (processed_count (fold_left (fun b p => process_record clock p b) records b)
     + error_count (fold_left (fun b p => process_record clock p b) records b))%nat
    = (processed_count b + error_count b + length records)%nat
    /\ (error_count b + length (List.filter fails_to_process records)
        <= error_count (fold_left (fun b p => process_record clock p b) records b))%nat
    /\ (forallb recordable records = true ->
        error_count (fold_left (fun b p => process_record clock p b) records b)
        = (error_count b + length (List.filter fails_to_process records))%nat).
Proof.
  induction records as [|p records IH]; intros b; cbn [fold_left List.filter forallb length].
  - split_and!; [lia | lia | intros _; lia].
  - destruct (IH (process_record clock p b)) as (Hsum & Hle & Heq).
    destruct (fails_to_process p) eqn:Hp; cbn [length].
    + rewrite (process_record_failed _ _ _ Hp) in *. cbn in Hsum, Hle, Heq.
      split_and!; [lia | lia |]. intros [_ Hall]%andb_prop. rewrite (Heq Hall). lia.
    + destruct (process_record_outcome clock p b Hp) as [[H1 H2] | (H1 & H2 & Hno)];
        rewrite H1, H2 in *.
      * split_and!; [lia | lia |]. intros [_ Hall]%andb_prop. by rewrite (Heq Hall).
      * split_and!; [lia | lia |]. intros [Hyes _]%andb_prop. congruence.
Qed.

(** X20. The two record counters of the summary split the batch:
    together they count every record. [error_records] counts at least
    the payloads that cannot be decoded or on which [validate_record]
    raises, and exactly these when no payload carries an [alerts_sent]
    that is not a list: [handle_alerts] never raises after
    [validate_record] returned, and the one other way a record fails is
    the append to such an [alerts_sent]. *)
Theorem batch_accounting :
  forall (records : list payload) (purge : option Z) (clock : nat -> Z) (w : world),
    (processed_records (lambda_handler records purge clock w).1.1
     + error_records (lambda_handler records purge clock w).1.1)%nat
    = length records
    /\ (length (List.filter fails_to_process records)
        <= error_records (lambda_handler records purge clock w).1.1)%nat
    /\ (forallb recordable records = true ->
        error_records (lambda_handler records purge clock w).1.1
        = length (List.filter fails_to_process records)
        /\ processed_records (lambda_handler records purge clock w).1.1
           = length (List.filter (fun p => negb (fails_to_process p)) records)).
Proof.
  intros records purge clock w. unfold lambda_handler.
  cbn [fst snd processed_records error_records].
  match goal with
  | |- context [fold_left _ records ?b0] =>
      destruct (process_records_accounting clock records b0) as (Hsum & Hle & Heq)
  end.
  cbn [processed_count error_count] in Hsum, Hle, Heq.
  split_and!; [lia | lia |].
  intros Hall. specialize (Heq Hall). split; [lia |].
  assert (Hsplit : (length (List.filter fails_to_process records)
                    + length (List.filter (fun p => negb (fails_to_process p)) records))%nat
                   = length records).
  { clear. induction records as [|p records IH]; [done |].
    cbn [List.filter length]. destruct (fails_to_process p); cbn [negb length]; lia. }
  lia.
Qed.

(** X21. The handler only appends to the log of the calls of
    [sns_client.publish]. The alerts it records as sent are alerts of
    these calls, in their order; and they are exactly the alerts of the
    calls when no payload carries an [alerts_sent] that is not a list.
    Whether SNS accepted a call is not recorded anywhere. *)
Theorem recorded_alerts_were_handed_to_sns :
  forall (records : list payload) (purge : option Z) (clock : nat -> Z) (w : world),
    exists notes,
      sns (lambda_handler records purge clock w).1.2 = sns w ++ notes
      /\ (lambda_handler records purge clock w).2 `sublist_of` map note_alert notes
      /\ (forallb recordable records = true ->
          (lambda_handler records purge clock w).2 = map note_alert notes).
Proof.
  intros records purge clock w. unfold lambda_handler. cbn [fst snd].
  match goal with
  | |- context [fold_left _ records ?b0] =>
      destruct (process_records_counts clock records b0)
        as (_ & notes & extra & -> & -> & Hsub & Hall & _)
  end.
  exists notes. cbn [the_world recorded app]. split_and!; [| done | done].
  by destruct purge.
Qed.

(** ** Records that fail *)

Lemma process_record_failed_comm clock p b :
  process_record clock p (record_failed b) = record_failed (process_record clock p b).
Proof.
  unfold process_record. destruct p as [|data]; [done |].
  destruct (validate_record data) as [[[[st errors] warnings] data']|]; [| done].
  destruct (handle_alerts data' st errors) as [alerts|]; [| done].
  cbn [record_failed ticks the_world].
  destruct (process_alerts _ _ _ _ _ _ _ _ _) as [[tick w] outcome].
  by destruct outcome.
Qed.

Lemma process_records_failed_comm clock records :
  forall b,
    fold_left (fun b p => process_record clock p b) records (record_failed b)
    = record_failed (fold_left (fun b p => process_record clock p b) records b).
Proof.
  induction records as [|p records IH]; intros b; cbn [fold_left]; [done |].
  by rewrite process_record_failed_comm, IH.
Qed.

Lemma process_records_without_failures clock records :
  forall b,
    let b1 := fold_left (fun b p => process_record clock p b) records b in
    let b2 := fold_left (fun b p => process_record clock p b)
                (List.filter (fun p => negb (fails_to_process p)) records) b in
    processed_count b1 = processed_count b2
    /\ alert_count b1 = alert_count b2
    /\ ticks b1 = ticks b2
    /\ the_world b1 = the_world b2
    /\ recorded b1 = recorded b2
    /\ error_count b1
       = (error_count b2 + length (List.filter fails_to_process records))%nat.
Proof.
  induction records as [|p records IH]; intros b; cbn [fold_left List.filter].
  - cbn. split_and!; try done; lia.
  - destruct (fails_to_process p) eqn:Hp; cbn [negb fold_left length].
    + rewrite (process_record_failed _ _ _ Hp), process_records_failed_comm.
      destruct (IH b) as (? & ? & ? & ? & ? & Herr). cbn zeta in *.
      cbn [record_failed processed_count alert_count ticks the_world recorded error_count].
      split_and!; try done. rewrite Herr. lia.
    + destruct (IH (process_record clock p b)) as (? & ? & ? & ? & ? & Herr).
      cbn zeta in *. split_and!; done.
Qed.

(** X22. A record that cannot be decoded, or on which
    [validate_record] raises, leaves no trace but in [error_records]:
    the batch without these records gives the same [processed_records]
    and [total_alerts_generated], records the same alerts as sent and
    leaves the same throttle state and SNS calls, and its
    [error_records] is smaller by their number. (A record that fails
    later, on the append to its [alerts_sent], is not of this kind.) *)
Theorem undecodable_and_unvalidated_records_only_count :
  forall (records : list payload) (purge : option Z) (clock : nat -> Z) (w : world),
    processed_records (lambda_handler records purge clock w).1.1
    = processed_records
        (lambda_handler (List.filter (fun p => negb (fails_to_process p)) records)
           purge clock w).1.1
    /\ total_alerts_generated (lambda_handler records purge clock w).1.1
       = total_alerts_generated
           (lambda_handler (List.filter (fun p => negb (fails_to_process p)) records)
              purge clock w).1.1
    /\ (lambda_handler records purge clock w).1.2
       = (lambda_handler (List.filter (fun p => negb (fails_to_process p)) records)
            purge clock w).1.2
    /\ (lambda_handler records purge clock w).2
       = (lambda_handler (List.filter (fun p => negb (fails_to_process p)) records)
            purge clock w).2
    /\ error_records (lambda_handler records purge clock w).1.1
       = (error_records
            (lambda_handler (List.filter (fun p => negb (fails_to_process p)) records)
               purge clock w).1.1
          + length (List.filter fails_to_process records))%nat.
Proof.
  intros records purge clock w. unfold lambda_handler.
  cbn [fst snd processed_records error_records total_alerts_generated].
  match goal with
  | |- context [fold_left _ records ?b0] =>
      destruct (process_records_without_failures clock records b0)
        as (H1 & H2 & _ & H3 & H4 & H5)
  end.
  cbv zeta in *. by rewrite H1, H2, H3, H4, H5.
Qed.

End HandlerMore.

(* ===================================================================== *)
(** * More on the warehouse load *)
(* ===================================================================== *)

Module WarehouseMore.
Import Warehouse Notions WarehouseScenarios WarehouseSpec.

(** ** Nothing is updated or deleted *)

Lemma grows_into_refl db : grows_into db db.
Proof. unfold grows_into. split_and!; done. Qed.

Lemma grows_into_trans db1 db2 db3 :
  grows_into db1 db2 -> grows_into db2 db3 -> grows_into db1 db3.
Proof.
  unfold grows_into. intros (? & ? & ? & ? & ? & ?) (? & ? & ? & ? & ? & ?).
  split_and!; by etrans.
Qed.

Lemma run_cycle_grows fails db : grows_into db (run_cycle fails db).
Proof.
  destruct (run_cycle_tables fails db) as (Hsrc & Hl & Ht & Hs & Hw & Hf).
  unfold grows_into. rewrite Hsrc, Hl, Ht, Hs, Hw, Hf. unfold insert_into.
  split_and!; try done.
  - destruct (takes_effect fails DimLocation _); [by apply prefix_app_r | done].
  - destruct (takes_effect fails DimTime _); [by apply prefix_app_r | done].
  - destruct (takes_effect fails DimSoil _); [by apply prefix_app_r | done].
  - destruct (takes_effect fails DimWeather _); [by apply prefix_app_r | done].
  - destruct (takes_effect fails FactInsert _); [by apply prefix_app_r | done].
Qed.

Lemma add_readings_grows rows db : grows_into db (add_readings rows db).
Proof. unfold grows_into. cbn. split_and!; try done. by apply prefix_app_r. Qed.

Lemma run_cycles_grows cycles : forall db, grows_into db (run_cycles cycles db).
Proof.
  induction cycles as [|c cycles IH]; intros db; [apply grows_into_refl |].
  cbn [run_cycles fold_left]. fold (run_cycles cycles (run_cycle c.2 (add_readings c.1 db))).
  eapply grows_into_trans; [apply add_readings_grows |].
  eapply grows_into_trans; [apply run_cycle_grows | apply IH].
Qed.

(** X23. The job only appends: after any sequence of arrivals and
    cycles, whatever statements fail, each of the six tables begins with
    the rows it held before, in their order and with their keys; no row
    of the warehouse is ever updated or deleted. *)
Theorem warehouse_is_append_only :
  forall (cycles : list (list valid_reading * (step -> bool))) (db : warehouse),
    valid_readings db `prefix_of` valid_readings (run_cycles cycles db)
    /\ dim_location db `prefix_of` dim_location (run_cycles cycles db)
    /\ dim_time db `prefix_of` dim_time (run_cycles cycles db)
    /\ dim_soil db `prefix_of` dim_soil (run_cycles cycles db)
    /\ dim_weather db `prefix_of` dim_weather (run_cycles cycles db)
    /\ fact_sensor_readings db `prefix_of` fact_sensor_readings (run_cycles cycles db).
Proof. intros cycles db. apply run_cycles_grows. Qed.

(** ** The references of the fact rows *)

Lemma prefix_elem_of {A : Type} (l1 l2 : list A) x :
  l1 `prefix_of` l2 -> x ∈ l1 -> x ∈ l2.
Proof. intros [k ->] Hx. apply elem_of_app. by left. Qed.

Lemma prefix_fmap_elem_of {A B : Type} (g : A -> B) (l1 l2 : list A) y :
  l1 `prefix_of` l2 -> y ∈ map g l1 -> y ∈ map g l2.
Proof.
  intros Hpre (x & -> & Hx)%list_elem_of_fmap. apply list_elem_of_fmap.
  exists x. split; [done |]. by apply (prefix_elem_of l1).
Qed.

Lemma grows_into_references db db' :
  grows_into db db' ->
  fact_sensor_readings db' = fact_sensor_readings db ->
  references_hold db -> references_hold db'.
Proof.
  intros (_ & Hl & Ht & Hs & Hw & _) Hfacts Href f Hf. rewrite Hfacts in Hf.
  destruct (Href f Hf) as (H1 & H2 & H3 & H4 & H5).
  split_and!; [| | | done |]; by eapply prefix_fmap_elem_of.
Qed.

Lemma new_facts_references nv db f :
  f ∈ new_facts nv db ->
  location_key f ∈ map fst (dim_location db)
  /\ weather_key f ∈ map fst (dim_weather db)
  /\ soil_key f ∈ map fst (dim_soil db)
  /\ is_Some (full_date f)
  /\ full_date f ∈ map (fun r => t_full_date r.2) (dim_time db).
Proof.
  unfold new_facts.
  intros (v & Hf & Hv)%list_elem_of_bind.
  apply list_elem_of_bind in Hf as (l & Hf & Hl).
  apply list_elem_of_bind in Hf as (w & Hf & Hw).
  apply list_elem_of_bind in Hf as (s & Hf & Hs).
  apply list_elem_of_bind in Hf as (t & Hf & Ht).
  apply list_elem_of_singleton in Hf as ->. cbn.
  unfold joined in Hl, Hw, Hs, Ht.
  apply list_elem_of_filter in Hl as [_ Hl]. apply list_elem_of_filter in Hw as [_ Hw].
  apply list_elem_of_filter in Hs as [_ Hs]. apply list_elem_of_filter in Ht as [Hon Ht].
  split_and!.
  - apply list_elem_of_fmap. by exists l.
  - apply list_elem_of_fmap. by exists w.
  - apply list_elem_of_fmap. by exists s.
  - unfold time_matches in Hon. apply holds_eq in Hon as [Hsome Heq].
    by rewrite <- Heq.
  - apply list_elem_of_fmap. by exists t.
Qed.

Lemma run_cycle_references fails db :
  references_hold db -> references_hold (run_cycle fails db).
Proof.
  intros Href.
  destruct (run_cycle_tables fails db) as (_ & _ & _ & _ & _ & Hf).
  destruct (takes_effect fails FactInsert _).
  - intros f Hin. rewrite Hf in Hin. apply elem_of_app in Hin as [Hin | Hin].
    + destruct (run_cycle_grows fails db) as (_ & Hl & Ht & Hs & Hw & _).
      destruct (Href f Hin) as (H1 & H2 & H3 & H4 & H5).
      split_and!; [| | | done |]; by eapply prefix_fmap_elem_of.
    + exact (new_facts_references _ _ _ Hin).
  - by apply (grows_into_references db); [apply run_cycle_grows | |].
Qed.

Lemma run_cycles_references cycles :
  forall db, references_hold db -> references_hold (run_cycles cycles db).
Proof.
  induction cycles as [|c cycles IH]; intros db Href; [done |].
  cbn [run_cycles fold_left]. fold (run_cycles cycles (run_cycle c.2 (add_readings c.1 db))).
  apply IH, run_cycle_references.
  by apply (grows_into_references db); [apply add_readings_grows | |].
Qed.

(** X24. Referential integrity: after any sequence of arrivals and
    cycles from the empty warehouse, whatever statements fail, every
    fact row refers to a key that exists in [dim_location], in
    [dim_weather] and in [dim_soil], and its [full_date] is not NULL and
    is the [full_date] of a row of [dim_time]. *)
Theorem fact_rows_refer_to_dimension_rows :
  forall (cycles : list (list valid_reading * (step -> bool))) (f : fact),
    f ∈ fact_sensor_readings (run_cycles cycles empty_warehouse) ->
    location_key f ∈ map fst (dim_location (run_cycles cycles empty_warehouse))
    /\ weather_key f ∈ map fst (dim_weather (run_cycles cycles empty_warehouse))
    /\ soil_key f ∈ map fst (dim_soil (run_cycles cycles empty_warehouse))
    /\ is_Some (full_date f)
    /\ full_date f
       ∈ map (fun r => t_full_date r.2) (dim_time (run_cycles cycles empty_warehouse)).
Proof.
  intros cycles. apply (run_cycles_references cycles empty_warehouse).
  intros f Hf. by apply elem_of_nil in Hf.
Qed.

Lemma fact_rows_refer_to_dimension_rows_witness :
  location_key first_fact
    ∈ map fst (dim_location
                 (run_cycles [([source_row "evt-1" 100 7 30 (Some 0)], no_failure)]
                    empty_warehouse))
  /\ weather_key first_fact
       ∈ map fst (dim_weather
                    (run_cycles [([source_row "evt-1" 100 7 30 (Some 0)], no_failure)]
                       empty_warehouse))
  /\ soil_key first_fact
       ∈ map fst (dim_soil
                    (run_cycles [([source_row "evt-1" 100 7 30 (Some 0)], no_failure)]
                       empty_warehouse))
  /\ is_Some (full_date first_fact)
  /\ full_date first_fact
       ∈ map (fun r => t_full_date r.2)
           (dim_time (run_cycles [([source_row "evt-1" 100 7 30 (Some 0)], no_failure)]
                        empty_warehouse)).
Proof.
  apply (fact_rows_refer_to_dimension_rows
           [([source_row "evt-1" 100 7 30 (Some 0)], no_failure)] first_fact).
  vm_compute. apply list_elem_of_here.
Defined.

(** ** The watermark *)

Lemma sql_max_ge col d : Some d ∈ col -> exists m, sql_max col = Some m /\ d <= m.
Proof.
  induction col as [|c col IH]; [by intros ?%elem_of_nil |].
  cbn [sql_max foldr]. fold (sql_max col).
  intros [<- | Hin]%elem_of_cons.
  - destruct (sql_max col) as [y|]; eexists; split; try reflexivity; lia.
  - destruct (IH Hin) as (m & -> & Hm).
    destruct c as [x|]; eexists; split; try reflexivity; lia.
Qed.

Lemma run_cycle_new_facts fails db f :
  f ∈ fact_sensor_readings (run_cycle fails db) ->
  f ∈ fact_sensor_readings db
  \/ exists d, full_date f = Some d /\ last_ts (fails Watermark) db < d.
Proof.
  destruct (run_cycle_tables fails db) as (_ & _ & _ & _ & _ & Hf).
  rewrite Hf. destruct (takes_effect fails FactInsert _); [| by left].
  intros [Hin | Hin]%elem_of_app; [by left | right].
  apply new_facts_origin in Hin as (v & Hv & _ & ->).
  unfold new_data in Hv. apply list_elem_of_filter in Hv as [Hgt _].
  unfold holds, sql_gt in Hgt. apply bool_decide_eq_true in Hgt.
  destruct (timestamp v) as [t|]; [| discriminate].
  injection Hgt as Hgt. apply Z.ltb_lt in Hgt. eauto.
Qed.

(** X25. The watermark never moves back: whatever statements fail,
    MAX(full_date) after a cycle is at least what it was before; and
    every fact row a cycle adds has a [full_date] above the watermark
    the cycle read. *)
Theorem watermark_never_decreases :
  forall (fails : step -> bool) (db : warehouse),
    last_ts false db <= last_ts false (run_cycle fails db)
    /\ (forall f, f ∈ fact_sensor_readings (run_cycle fails db) ->
          f ∈ fact_sensor_readings db
          \/ exists d, full_date f = Some d /\ last_ts (fails Watermark) db < d).
Proof.
  intros fails db. split; [| intros f; apply run_cycle_new_facts].
  destruct (run_cycle_grows fails db) as (_ & _ & _ & _ & _ & Hpre).
  unfold last_ts at 1 2.
  destruct (sql_max (map full_date (fact_sensor_readings db))) as [m|] eqn:Hold;
    cbn [default from_option id].
  - apply sql_max_in in Hold.
    apply (prefix_fmap_elem_of full_date _ _ _ Hpre) in Hold.
    by destruct (sql_max_ge _ _ Hold) as (m' & -> & Hm).
  - destruct (sql_max (map full_date (fact_sensor_readings (run_cycle fails db))))
      as [m'|] eqn:Hnew; cbn [default from_option id]; [| done].
    apply sql_max_in, list_elem_of_fmap in Hnew as (f & Hd & Hf).
    destruct (run_cycle_new_facts _ _ _ Hf) as [Hin | (d & Hd' & Hlt)].
    + assert (Hnone : full_date f = None).
      { apply (proj1 (sql_max_none _) Hold). apply list_elem_of_fmap. by exists f. }
      congruence.
    + assert (d = m') by congruence. subst d.
      unfold last_ts in Hlt. rewrite Hold in Hlt. cbn [default from_option id] in Hlt.
      destruct (fails Watermark); unfold epoch in *; lia.
Qed.

(** ** A reading that joins is loaded *)

Lemma insert_into_snd_elem {T : Type} (t : dim T) rows x :
  x ∈ map snd t \/ x ∈ rows -> exists r, r ∈ insert_into t rows /\ r.2 = x.
Proof.
  intros Hx.
  assert (Hin : x ∈ map snd (insert_into t rows)).
  { rewrite snd_insert_into. by apply elem_of_app. }
  apply list_elem_of_fmap in Hin as (r & -> & Hr). by exists r.
Qed.

(** X27. A reading that joins is loaded. When no statement fails, a
    row of the extraction whose [loc_id], coordinates, soil tuple and
    weather tuple hold no NULL gets a fact row in the same cycle, with
    its event id, its timestamp and its measures, provided the key
    columns of [dim_location] and [dim_time] hold no NULL and no row of
    [dim_location] has the same [loc_id] with other coordinates. *)
Theorem complete_reading_is_loaded :
  forall (db : warehouse) (v : valid_reading),
    v ∈ extraction no_failure db ->
    is_Some (loc_id v) -> is_Some (latitude v) -> is_Some (longitude v) ->
    complete_soil (soil_of v) ->
    complete_weather (weather_of v) ->
    (None ∉ map (fun r => l_loc_id r.2) (dim_location db)) ->
    (None ∉ map (fun r => t_full_date r.2) (dim_time db)) ->
    (forall l, l ∈ map snd (dim_location db) -> l_loc_id l = loc_id v -> l = location_of v) ->
    exists f,
      f ∈ fact_sensor_readings (run_cycle no_failure db)
      /\ evt_id f = event_id v
      /\ full_date f = timestamp v
      /\ soil_temperature f = temperature v
      /\ soil_humidity f = humidity v
      /\ f_water_level f = water_level v
      /\ f_validation_status f = validation_status v.
Proof.
  intros db v Hv Hloc Hlat Hlon Hsoil Hweather Hlnull Htnull Hsame.
  destruct (run_cycle_tables no_failure db) as (_ & Hl & Ht & Hs & Hw & Hf).
  fold (extraction no_failure db) in Hl, Ht, Hs, Hw, Hf.
  assert (Hts : is_Some (timestamp v)).
  { unfold extraction, new_data in Hv. apply list_elem_of_filter in Hv as [Hgt _].
    unfold holds, sql_gt in Hgt. apply bool_decide_eq_true in Hgt.
    destruct (timestamp v); [by eexists | discriminate]. }
  destruct (extraction no_failure db) as [|v0 nv0] eqn:Hnv; [by apply elem_of_nil in Hv |].
  cbn [takes_effect no_failure negb] in Hl, Ht, Hs, Hw, Hf.
  (* a row of each dimension that joins *)
  assert (Hjl : exists r, r ∈ dim_location (run_cycle no_failure db)
                          /\ r.2 = location_of v).
  { rewrite Hl. apply insert_into_snd_elem.
    destruct (decide (location_of v ∈ map snd (dim_location db))) as [? | Hnew];
      [by left | right].
    apply select_distinct_elem. exists v. split_and!; [done | | done].
    apply new_location_cond. split_and!; [done | | done].
    intros (r & Heq & Hr)%list_elem_of_fmap. apply Hnew.
    assert (Hrow : r.2 ∈ map snd (dim_location db)).
    { apply list_elem_of_fmap. by exists r. }
    by rewrite <- (Hsame _ Hrow (eq_sym Heq)). }
  assert (Hjt : exists r, r ∈ dim_time (run_cycle no_failure db)
                          /\ t_full_date r.2 = timestamp v).
  { rewrite Ht.
    destruct (decide (timestamp v ∈ map (fun r => t_full_date r.2) (dim_time db)))
      as [Hold | Hnew].
    - apply list_elem_of_fmap in Hold as (r & Heq & Hr). exists r. split; [| done].
      unfold insert_into. apply elem_of_app. by left.
    - destruct (insert_into_snd_elem (dim_time db)
                  (new_times (v0 :: nv0) (dim_time db)) (time_of v)) as (r & Hr & Heq).
      { right. apply select_distinct_elem. exists v. split_and!; [done | | done].
        by apply new_time_cond. }
      exists r. split; [done |]. by rewrite Heq. }
  assert (Hjs : exists r, r ∈ dim_soil (run_cycle no_failure db) /\ r.2 = soil_of v).
  { rewrite Hs. apply insert_into_snd_elem.
    destruct (decide (soil_of v ∈ map snd (dim_soil db))) as [? | Hnew]; [by left | right].
    apply select_distinct_elem. exists v. split_and!; [done | | done].
    by apply new_soil_cond. }
  assert (Hjw : exists r, r ∈ dim_weather (run_cycle no_failure db)
                          /\ r.2 = weather_of v).
  { rewrite Hw. apply insert_into_snd_elem.
    destruct (decide (weather_of v ∈ map snd (dim_weather db))) as [? | Hnew];
      [by left | right].
    apply select_distinct_elem. exists v. split_and!; [done | | done].
    apply new_weather_cond; [done |]. split; [| done]. by destruct Hweather. }
  destruct Hjl as (rl & Hrl & Hrl2), Hjt as (rt & Hrt & Hrt2),
           Hjs as (rs & Hrs & Hrs2), Hjw as (rw & Hrw & Hrw2).
  eexists {| evt_id := event_id v; location_key := rl.1; weather_key := rw.1;
             soil_key := rs.1; full_date := t_full_date rt.2;
             soil_temperature := temperature v; soil_humidity := humidity v;
             f_water_level := water_level v;
             f_validation_status := validation_status v |}.
  split; [| split_and!; done].
  rewrite Hf. apply elem_of_app. right. unfold new_facts.
  apply list_elem_of_bind. exists v. split; [| done]. cbn [dim_location dim_weather dim_soil dim_time].
  apply list_elem_of_bind. exists rl. split.
  2:{ apply list_elem_of_filter. split; [| done].
      unfold location_matches. rewrite Hrl2. cbn [location_of l_loc_id l_latitude l_longitude].
      rewrite !holds_and, !holds_eq. split_and!; done. }
  apply list_elem_of_bind. exists rw. split.
  2:{ apply list_elem_of_filter. split; [| done].
      apply holds_true, weather_matches_true. by rewrite Hrw2. }
  apply list_elem_of_bind. exists rs. split.
  2:{ apply list_elem_of_filter. split; [| done].
      apply holds_true, soil_matches_true. by rewrite Hrs2. }
  apply list_elem_of_bind. exists rt. split.
  2:{ apply list_elem_of_filter. split; [| done].
      unfold time_matches. rewrite Hrt2, holds_eq. done. }
  apply list_elem_of_here.
Qed.

Lemma complete_reading_is_loaded_witness :
  exists f,
    f ∈ fact_sensor_readings
          (run_cycle no_failure
             (add_readings [source_row "evt-1" 100 7 30 (Some 0)] empty_warehouse))
    /\ evt_id f = event_id (source_row "evt-1" 100 7 30 (Some 0))
    /\ full_date f = timestamp (source_row "evt-1" 100 7 30 (Some 0))
    /\ soil_temperature f = temperature (source_row "evt-1" 100 7 30 (Some 0))
    /\ soil_humidity f = humidity (source_row "evt-1" 100 7 30 (Some 0))
    /\ f_water_level f = water_level (source_row "evt-1" 100 7 30 (Some 0))
    /\ f_validation_status f = validation_status (source_row "evt-1" 100 7 30 (Some 0)).
Proof.
  apply (complete_reading_is_loaded
           (add_readings [source_row "evt-1" 100 7 30 (Some 0)] empty_warehouse)
           (source_row "evt-1" 100 7 30 (Some 0))).
  - vm_compute. apply list_elem_of_here.
  - by eexists.
  - by eexists.
  - by eexists.
  - unfold complete_soil. cbn. split_and!; by eexists.
  - unfold complete_weather. cbn. split_and!; by eexists.
  - cbn. apply not_elem_of_nil.
  - cbn. apply not_elem_of_nil.
  - cbn. by intros l ?%elem_of_nil.
Defined.

(** The warehouse that holds three complete rows is such a warehouse. *)
Lemma second_run_is_noop_witness :
  run_cycle no_failure (run_cycle no_failure two_arrivals) = run_cycle no_failure two_arrivals.
Proof.
  apply (second_run_is_noop two_arrivals).
  intros v Hv _. vm_compute in Hv.
  repeat (apply elem_of_cons in Hv as [-> | Hv];
          [unfold complete_weather; cbn; split_and!; by eexists |]).
  by apply elem_of_nil in Hv.
Defined.

End WarehouseMore.
